(** * The descheduler control loop and the RemovePodsViolatingNodeTaints strategy

    A shallow embedding of
    - [pkg/descheduler/descheduler.go] (the control loop:
      [RunDeschedulerStrategies], [cachedClient], [initializeStratagies]),
    - [pkg/descheduler/strategies/node_taint.go] (the taint strategy),
    - [pkg/descheduler/strategy_migration.go] and the plugin argument
      validation that follows it in the same file,
    together with the properties the specification states about them.

    Go values are modelled as follows: a pointer that may be nil is an
    [option]; [(T, error)] is a [Result T]; a [map[K]V] is a [gmap K V];
    a [sets.String] is a [gset string]; a slice is a [list]; an interface
    value is a record of its methods.  A strategy's [Run] talks to the rest
    of the system only through its pod evictor and its
    [getPodsAssignedToNode] function, so it is a command tree ([Prog]) over
    exactly these calls, which the tick interprets against the cluster. *)

From stdpp Require Import base strings gmap list.
From Stdlib Require Import ZArith Lia.

Local Open Scope Z_scope.
Local Open Scope string_scope.
Local Open Scope list_scope.

(** ** Go's [(T, error)] results *)

Inductive Result (A : Type) : Type :=
| Ok (a : A)
| Err (msg : string).
Arguments Ok {A} a.
Arguments Err {A} msg.

Definition is_Err {A} (r : Result A) : bool :=
  match r with Ok _ => false | Err _ => true end.

(** ** The [k8s.io/api/core/v1] objects the code reads *)

Inductive TaintEffect := TaintEffectNoSchedule | TaintEffectPreferNoSchedule | TaintEffectNoExecute.

Inductive TolerationOperator := TolerationOpUnset | TolerationOpEqual | TolerationOpExists.

Record Taint := mkTaint {
  taint_Key : string;
  taint_Value : string;
  taint_Effect : TaintEffect }.

(** An empty [Effect] string of a toleration is [None]: it matches every
    effect.  An empty [Key] is the empty string. *)
Record Toleration := mkToleration {
  tol_Key : string;
  tol_Operator : TolerationOperator;
  tol_Value : string;
  tol_Effect : option TaintEffect }.

Record Pod := mkPod {
  pod_Name : string;
  pod_Namespace : string;
  pod_NodeName : string;
  pod_Labels : list (string * string);
  pod_Priority : option Z;
  pod_Tolerations : list Toleration }.

Record Node := mkNode {
  node_Name : string;
  node_Taints : list Taint }.

Global Instance TaintEffect_eq_dec : EqDecision TaintEffect.
Proof. solve_decision. Defined.
Global Instance TolerationOperator_eq_dec : EqDecision TolerationOperator.
Proof. solve_decision. Defined.
Global Instance Taint_eq_dec : EqDecision Taint.
Proof. solve_decision. Defined.
Global Instance Toleration_eq_dec : EqDecision Toleration.
Proof. solve_decision. Defined.
Global Instance Pod_eq_dec : EqDecision Pod.
Proof. solve_decision. Defined.
Global Instance Node_eq_dec : EqDecision Node.
Proof. solve_decision. Defined.

(** The key under which the API server, an informer cache and the fake
    client's object tracker hold a pod: namespace and name. *)
Definition podKey (p : Pod) : string * string := (pod_Namespace p, pod_Name p).

(** ** Taints and tolerations *)

(** [v1.Toleration.ToleratesTaint] of the Kubernetes API: the effect and the
    key must agree where the toleration names them, and the operator decides
    on the value; the unset operator means [Equal]. *)
Definition ToleratesTaint (t : Toleration) (taint : Taint) : bool :=
  match tol_Effect t with
  | Some eff => bool_decide (eff = taint_Effect taint)
  | None => true
  end
  && (bool_decide (tol_Key t = "") || bool_decide (tol_Key t = taint_Key taint))
  && match tol_Operator t with
     | TolerationOpUnset | TolerationOpEqual => bool_decide (tol_Value t = taint_Value taint)
     | TolerationOpExists => true
     end.

(** Modelled from the spec: [utils.TolerationsTolerateTaint] and
    [utils.TolerationsTolerateTaintsWithFilter] ([pkg/utils]) are not part of
    the sources at hand.  A toleration set covers a taint when one of its
    tolerations matches it, and it tolerates a taint list under a filter when
    it covers every taint the filter keeps. *)
Definition TolerationsTolerateTaint (tolerations : list Toleration) (taint : Taint) : bool :=
  existsb (fun t => ToleratesTaint t taint) tolerations.

Definition TolerationsTolerateTaintsWithFilter
    (tolerations : list Toleration) (taints : list Taint) (applyFilter : Taint -> bool) : bool :=
  forallb (fun taint => negb (applyFilter taint) || TolerationsTolerateTaint tolerations taint) taints.

(** The filter the strategy passes:
    [func(taint *v1.Taint) bool { return taint.Effect == v1.TaintEffectNoSchedule }]. *)
Definition isNoSchedule (taint : Taint) : bool :=
  bool_decide (taint_Effect taint = TaintEffectNoSchedule).

(** ** The [api] package: strategy configuration *)

Record LabelSelector := mkLabelSelector {
  MatchLabels : list (string * string);
  MatchExpressions : list (string * string * list string) }.

Record Namespaces := mkNamespaces {
  Include : list string;
  Exclude : list string }.

Record StrategyParameters := mkStrategyParameters {
  params_Namespaces : option Namespaces;
  params_LabelSelector : option LabelSelector;
  params_ThresholdPriority : option Z;
  params_ThresholdPriorityClassName : string;
  params_NodeFit : bool;
  params_IncludePreferNoSchedule : bool;
  params_ExcludedTaints : list string }.

Record DeschedulerStrategy := mkDeschedulerStrategy {
  strategy_Enabled : bool;
  strategy_Params : option StrategyParameters }.

Definition StrategyName := string.

(** [api.StrategyList] is [map[StrategyName]DeschedulerStrategy]. *)
Abbreviation StrategyList := (gmap string DeschedulerStrategy).

Record DeschedulerPolicy := mkDeschedulerPolicy {
  Strategies : StrategyList;
  NodeSelector : option string;
  EvictLocalStoragePods : option bool;
  EvictFailedBarePods : option bool;
  EvictSystemCriticalPods : option bool;
  IgnorePVCPods : option bool;
  MaxNoOfPodsToEvictPerNode : option nat;
  MaxNoOfPodsToEvictPerNamespace : option nat }.

(** [options.DeschedulerServer]: the fields the loop reads.  The interval is
    a [time.Duration], a count of nanoseconds. *)
Record DeschedulerServer := mkDeschedulerServer {
  DryRun : bool;
  DeschedulingInterval : Z;
  DisableMetrics : bool }.

(** ** Validation *)

(** [validateRemovePodsViolatingNodeTaintsParams] (node_taint.go). *)
Definition validateRemovePodsViolatingNodeTaintsParams
    (params : option StrategyParameters) : option string :=
  match params with
  | None => None
  | Some params =>
    if match params_Namespaces params with
       | Some ns => (0 <? length (Include ns))%nat && (0 <? length (Exclude ns))%nat
       | None => false
       end
    then Some "only one of Include/Exclude namespaces can be set"
    else if bool_decide (is_Some (params_ThresholdPriority params))
            && negb (bool_decide (params_ThresholdPriorityClassName params = ""))
    then Some "only one of thresholdPriority and thresholdPriorityClassName can be set"
    else None
  end.

(** [validateNamespaceArgs] (plugin argument validation). *)
Definition validateNamespaceArgs (namespaces : option Namespaces) : option string :=
  match namespaces with
  | Some ns =>
    if (0 <? length (Include ns))%nat && (0 <? length (Exclude ns))%nat
    then Some "only one of Include/Exclude namespaces can be set"
    else None
  | None => None
  end.

(** [errorsAggregate] hands its arguments to [utilerrors.NewAggregate], which
    drops the nil errors and yields nil when none is left. *)
Definition errorsAggregate (errors : list (option string)) : option (list string) :=
  match omap id errors with
  | [] => None
  | errs => Some errs
  end.

(** ** What a strategy may do: command trees

    [Strategy.Run] receives the ready nodes, the pod evictor and
    [getPodsAssignedToNode]; it returns nothing.  Its only contacts with the
    cluster are [podutil.ListAllPodsOnANode] (through
    [getPodsAssignedToNode]) and [podEvictor.EvictPod]; it also writes log
    lines.  A [Prog A] is a computation over these three calls. *)

Inductive Severity := Info | Error.

Global Instance Severity_eq_dec : EqDecision Severity.
Proof. solve_decision. Defined.

(** The value [EvictPod] returns: [(bool, error)]. *)
Definition EvictResult : Type := bool * option string.

Inductive Prog (A : Type) : Type :=
| Ret (a : A)
| Klog (sev : Severity) (msg : string) (k : Prog A)
| ListAllPodsOnANode (nodeName : string) (filter : Pod -> bool) (k : Result (list Pod) -> Prog A)
| EvictPod (pod : Pod) (node : Node) (reason : string) (k : EvictResult -> Prog A).
Arguments Ret {A} a.
Arguments Klog {A} sev msg k.
Arguments ListAllPodsOnANode {A} nodeName filter k.
Arguments EvictPod {A} pod node reason k.

Fixpoint Prog_bind {A B} (f : A -> Prog B) (m : Prog A) : Prog B :=
  match m with
  | Ret a => f a
  | Klog sev msg k => Klog sev msg (Prog_bind f k)
  | ListAllPodsOnANode n flt k => ListAllPodsOnANode n flt (fun r => Prog_bind f (k r))
  | EvictPod p n reason k => EvictPod p n reason (fun r => Prog_bind f (k r))
  end.

Global Instance Prog_ret : MRet Prog := @Ret.
Global Instance Prog_mbind : MBind Prog := @Prog_bind.

Definition klog (sev : Severity) (msg : string) : Prog unit := Klog sev msg (Ret tt).
Definition listAllPodsOnANode (nodeName : string) (filter : Pod -> bool) : Prog (Result (list Pod)) :=
  ListAllPodsOnANode nodeName filter Ret.
Definition evictPod (pod : Pod) (node : Node) (reason : string) : Prog EvictResult :=
  EvictPod pod node reason Ret.

(** The calls a run makes, in order, each with what it returned. *)
Inductive Event :=
| EvLog (sev : Severity) (msg : string)
| EvList (nodeName : string) (res : Result (list Pod))
| EvEvict (pod : Pod) (node : Node) (reason : string) (res : EvictResult)
| EvRun (name : StrategyName)
| EvSkip (name : StrategyName).

(** Whoever runs a [Prog] answers the two cluster calls from a state [S]. *)
Record Handler (S : Type) := mkHandler {
  h_list : string -> (Pod -> bool) -> S -> Result (list Pod);
  h_evict : Pod -> Node -> string -> S -> EvictResult * S }.
Arguments h_list {S} h nodeName filter s.
Arguments h_evict {S} h pod node reason s.

Fixpoint interp {S A} (h : Handler S) (m : Prog A) (s : S) : A * S * list Event :=
  match m with
  | Ret a => (a, s, [])
  | Klog sev msg k =>
    let '(a, s', t) := interp h k s in (a, s', EvLog sev msg :: t)
  | ListAllPodsOnANode n flt k =>
    let r := h_list h n flt s in
    let '(a, s', t) := interp h (k r) s in (a, s', EvList n r :: t)
  | EvictPod p n reason k =>
    let '(r, s1) := h_evict h p n reason s in
    let '(a, s', t) := interp h (k r) s1 in (a, s', EvEvict p n reason r :: t)
  end.

Definition traceOf {S A} (h : Handler S) (m : Prog A) (s : S) : list Event := (interp h m s).2.
Definition stateOf {S A} (h : Handler S) (m : Prog A) (s : S) : S := (interp h m s).1.2.

(** ** The pod evictor's configuration and the helpers of other packages *)

Inductive Clientset := RealClient | FakeClient.

Global Instance Clientset_eq_dec : EqDecision Clientset.
Proof. solve_decision. Defined.

(** The arguments of [evictions.NewPodEvictor], which the evictor keeps
    unchanged for the tick. *)
Record EvictorConfig := mkEvictorConfig {
  pe_client : Clientset;
  pe_policyGroupVersion : string;
  pe_dryRun : bool;
  pe_maxPodsToEvictPerNode : option nat;
  pe_maxPodsToEvictPerNamespace : option nat;
  pe_nodes : list Node;
  pe_evictLocalStoragePods : bool;
  pe_evictSystemCriticalPods : bool;
  pe_ignorePvcPods : bool;
  pe_evictFailedBarePods : bool;
  pe_metricsEnabled : bool }.

(** [podutil.Options], as filled by [NewOptions().WithFilter(..)
    .WithNamespaces(..).WithoutNamespaces(..).WithLabelSelector(..)]. *)
Record Options := mkOptions {
  opt_filter : Pod -> bool;
  opt_includedNamespaces : gset string;
  opt_excludedNamespaces : gset string;
  opt_labelSelector : option LabelSelector }.

(** Functions of packages whose sources are not at hand, taken as
    parameters: the priority resolution of [pkg/utils], the evictability
    predicate of [pkg/descheduler/evictions], the filter builder of
    [pkg/descheduler/pod] and the selector conversion of apimachinery. *)
Class Packages := {
  GetPriorityFromStrategyParams : option Clientset -> option StrategyParameters -> Result Z;
  IsEvictable : EvictorConfig -> Z -> bool -> Pod -> bool;
  BuildFilterFunc : Options -> Result (Pod -> bool);
  LabelSelectorAsSelector : LabelSelector -> Result (Pod -> bool) }.

(** ** The strategy interface *)

(** [type Strategy interface { Name(); Enabled(); Validate(); Run(..) }].
    The loop calls [strategy.Run(ctx, nodes, podEvictor,
    getPodsAssignedToNode)]; the listing function is the one the tick
    answers [ListAllPodsOnANode] with, and of the evictor a strategy can
    read the configuration and call [EvictPod]. *)
Record Strategy := mkStrategy {
  Name : StrategyName;
  Enabled : bool;
  Validate : option string;
  Run : list Node -> EvictorConfig -> Prog unit }.

(** ** node_taint.go *)

Definition RemovePodsViolatingNodeTaints : StrategyName := "RemovePodsViolatingNodeTaints".

Module NodeTaint.
Section WithPackages.
Context `{Packages}.

(** [type RemovePodsViolatingNodeTaintsStrategy struct]. *)
Record RemovePodsViolatingNodeTaintsStrategy := mkTaintStrategy {
  strategy : DeschedulerStrategy;
  client : option Clientset }.

Definition Name (s : RemovePodsViolatingNodeTaintsStrategy) : StrategyName :=
  RemovePodsViolatingNodeTaints.

(** The constructor looks its own name up in the policy's strategy map and
    fails when there is no entry; it leaves [client] nil. *)
Definition NewRemovePodsViolatingNodeTaintsStrategy
    (strategyList : StrategyList) : Result RemovePodsViolatingNodeTaintsStrategy :=
  let s := {| strategy := mkDeschedulerStrategy false None; client := None |} in
  match strategyList !! Name s with
  | None => Err ""
  | Some strategy => Ok {| strategy := strategy; client := client s |}
  end.

Definition Enabled (s : RemovePodsViolatingNodeTaintsStrategy) : bool :=
  strategy_Enabled (strategy s).

Definition Validate (s : RemovePodsViolatingNodeTaintsStrategy) : option string :=
  validateRemovePodsViolatingNodeTaintsParams (strategy_Params (strategy s)).

(** The inner loop of [Run]: [for i := 0; i < totalPods; i++].  An error
    of [EvictPod] leaves the loop ([break]). *)
Fixpoint evictPods (node : Node) (pods : list Pod) : Prog unit :=
  match pods with
  | [] => mret tt
  | pod :: rest =>
    if negb (TolerationsTolerateTaintsWithFilter
               (pod_Tolerations pod) (node_Taints node) isNoSchedule)
    then
      klog Info "Not all taints with NoSchedule effect are tolerated after update for pod on node";;
      r ← evictPod pod node "NodeTaint";
      match r.2 with
      | Some err => klog Error "Error evicting pod"
      | None => evictPods node rest
      end
    else evictPods node rest
  end.

(** The outer loop of [Run]: [for _, node := range nodes].  An error of
    the listing leaves [Run] ([return]). *)
Fixpoint processNodes (podFilter : Pod -> bool) (nodes : list Node) : Prog unit :=
  match nodes with
  | [] => mret tt
  | node :: rest =>
    klog Info "Processing node";;
    r ← listAllPodsOnANode (node_Name node) podFilter;
    match r with
    | Err err => mret tt
    | Ok pods => evictPods node pods;; processNodes podFilter rest
    end
  end.

(** [Run evicts pods on the node which violate NoSchedule Taints on nodes]. *)
Definition Run (client : option Clientset) (strategy : DeschedulerStrategy)
    (nodes : list Node) (podEvictor : EvictorConfig) : Prog unit :=
  match validateRemovePodsViolatingNodeTaintsParams (strategy_Params strategy) with
  | Some err => klog Error "Invalid RemovePodsViolatingNodeTaints parameters"
  | None =>
    let '(includedNamespaces, excludedNamespaces) :=
      match strategy_Params strategy with
      | Some params =>
        match params_Namespaces params with
        | Some ns => (list_to_set (Include ns), list_to_set (Exclude ns))
        | None => (∅, ∅)
        end
      | None => (∅, ∅)
      end in
    let labelSelector :=
      match strategy_Params strategy with
      | Some params => params_LabelSelector params
      | None => None
      end in
    match GetPriorityFromStrategyParams client (strategy_Params strategy) with
    | Err err => klog Error "Failed to get threshold priority from strategy's params"
    | Ok thresholdPriority =>
      let nodeFit :=
        match strategy_Params strategy with
        | Some params => params_NodeFit params
        | None => false
        end in
      let evictable := IsEvictable podEvictor thresholdPriority nodeFit in
      match BuildFilterFunc
              (mkOptions evictable includedNamespaces excludedNamespaces labelSelector) with
      | Err err => klog Error "Error initializing pod filter function"
      | Ok podFilter => processNodes podFilter nodes
      end
    end
  end.

(** The strategy as a value of the interface.  The loop passes the nodes,
    the evictor and the listing function; the receiver's own [client] and
    [strategy] fields stand for the two further parameters of [Run]. *)
Definition asStrategy (s : RemovePodsViolatingNodeTaintsStrategy) : Strategy :=
  mkStrategy (Name s) (Enabled s) (Validate s) (Run (client s) (strategy s)).

End WithPackages.
End NodeTaint.

(** ** The plugin wiring of strategy_migration.go *)

(** What a call does: it returns, or it panics on a nil pointer. *)
Inductive Outcome (A : Type) : Type :=
| Returns (a : A)
| Panics.
Arguments Returns {A} a.
Arguments Panics {A}.

Record RemovePodsViolatingNodeTaintsArgs := mkRemovePodsViolatingNodeTaintsArgs {
  args_Namespaces : option Namespaces;
  args_LabelSelector : option LabelSelector;
  args_IncludePreferNoSchedule : bool;
  args_ExcludedTaints : list string }.

Section Migration.
Context `{Packages}.

Definition validateLabelSelectorArgs (labelSelector : option LabelSelector) : option string :=
  match labelSelector with
  | Some sel =>
    match LabelSelectorAsSelector sel with
    | Err err => Some "failed to get label selectors from strategy's params"
    | Ok _ => None
    end
  | None => None
  end.

Definition ValidateRemovePodsViolatingNodeTaintsArgs
    (args : RemovePodsViolatingNodeTaintsArgs) : option (list string) :=
  errorsAggregate [ validateNamespaceArgs (args_Namespaces args);
                    validateLabelSelectorArgs (args_LabelSelector args) ].

(** [RemovePodsViolatingNodeTaints2plugin] up to the construction of the
    plugin: the arguments it wires, or the validation error.  [params] is a
    pointer the function reads at once ([params.Namespaces]): with nil
    parameters that read panics. *)
Definition RemovePodsViolatingNodeTaints2plugin
    (params : option StrategyParameters)
    : Outcome (Result RemovePodsViolatingNodeTaintsArgs) :=
  match params with
  | None => Panics
  | Some params =>
    let args := {| args_Namespaces := params_Namespaces params;
                   args_LabelSelector := params_LabelSelector params;
                   args_IncludePreferNoSchedule := params_IncludePreferNoSchedule params;
                   args_ExcludedTaints := params_ExcludedTaints params |} in
    match ValidateRemovePodsViolatingNodeTaintsArgs args with
    | Some errs => Returns (Err (String.concat ", " errs))
    | None => Returns (Ok args)
    end
  end.
End Migration.

(** ** descheduler.go: the strategy list *)

Global Instance Result_ret : MRet Result := @Ok.
Global Instance Result_mbind : MBind Result := fun A B f r =>
  match r with Ok a => f a | Err msg => Err msg end.

(** The constructors of the nine other strategies ([pkg/descheduler/
    strategies] and [.../nodeutilization]); their sources are not at hand,
    so they are parameters. *)
Class StrategyPackages := {
  NewRemoveDuplicatesStrategy : StrategyList -> Result Strategy;
  NewLowNodeUtilizationStrategy : StrategyList -> Result Strategy;
  NewHighNodeUtilizationStrategy : StrategyList -> Result Strategy;
  NewRemovePodsViolatingInterPodAntiAffinityStrategy : StrategyList -> Result Strategy;
  NewRemovePodsViolatingNodeAffinityStrategy : StrategyList -> Result Strategy;
  NewRemovePodsHavingTooManyRestartsStrategy : StrategyList -> Result Strategy;
  NewPodLifeTimeStrategy : StrategyList -> Result Strategy;
  NewRemovePodsViolatingTopologySpreadConstraintStrategy : StrategyList -> Result Strategy;
  NewRemoveFailedPodsStrategy : StrategyList -> Result Strategy }.

Section Initialize.
Context `{Packages} `{StrategyPackages}.

(** [initializeStratagies]: the ten constructors in a fixed order; the
    first that fails ends it with that error. *)
Definition initializeStratagies (strategyList : StrategyList) : Result (list Strategy) :=
  let stats := [] in
  removeDuplicatePods ← NewRemoveDuplicatesStrategy strategyList;
  let stats := stats ++ [removeDuplicatePods] in
  lowNodeUtilization ← NewLowNodeUtilizationStrategy strategyList;
  let stats := stats ++ [lowNodeUtilization] in
  highNodeUtilization ← NewHighNodeUtilizationStrategy strategyList;
  let stats := stats ++ [highNodeUtilization] in
  removePodsViolatingInterPodAntiAffinity ←
    NewRemovePodsViolatingInterPodAntiAffinityStrategy strategyList;
  let stats := stats ++ [removePodsViolatingInterPodAntiAffinity] in
  removePodsViolatingNodeAffinity ← NewRemovePodsViolatingNodeAffinityStrategy strategyList;
  let stats := stats ++ [removePodsViolatingNodeAffinity] in
  removePodsViolatingNodeTaints ← NodeTaint.NewRemovePodsViolatingNodeTaintsStrategy strategyList;
  let stats := stats ++ [NodeTaint.asStrategy removePodsViolatingNodeTaints] in
  removePodsHavingTooManyRestarts ← NewRemovePodsHavingTooManyRestartsStrategy strategyList;
  let stats := stats ++ [removePodsHavingTooManyRestarts] in
  podLifeTime ← NewPodLifeTimeStrategy strategyList;
  let stats := stats ++ [podLifeTime] in
  removePodsViolatingTopologySpreadConstraint ←
    NewRemovePodsViolatingTopologySpreadConstraintStrategy strategyList;
  let stats := stats ++ [removePodsViolatingTopologySpreadConstraint] in
  removeFailedPods ← NewRemoveFailedPodsStrategy strategyList;
  let stats := stats ++ [removeFailedPods] in
  mret stats.
End Initialize.

(** ** The fake client of a dry run *)

(** The object tracker of [fakeclientset.NewSimpleClientset()]: per resource
    a map from the object's key to the object.  Namespaces and priority
    classes are held by name only. *)
Record FakeClientset := mkFakeClientset {
  tracker_pods : gmap (string * string) Pod;
  tracker_nodes : gmap string Node;
  tracker_namespaces : gset string;
  tracker_priorityClasses : gset string }.

Definition NewSimpleClientset : FakeClientset := mkFakeClientset ∅ ∅ ∅ ∅.

Definition withPods (fc : FakeClientset) (pods : gmap (string * string) Pod) : FakeClientset :=
  mkFakeClientset pods (tracker_nodes fc) (tracker_namespaces fc) (tracker_priorityClasses fc).

(** The two [create] actions on [pods] the code sends to the fake client:
    the copy of a pod, and an eviction (sub-resource [eviction]) naming a
    pod. *)
Inductive Action :=
| CreatePod (item : Pod)
| CreateEviction (namespace name : string).

(** The reactor [cachedClient] prepends: [simulate a pod eviction by
    deleting a pod].  It yields [(handled, err)] and the tracker. *)
Definition evictionReactor (action : Action) (fc : FakeClientset)
    : bool * option string * FakeClientset :=
  match action with
  | CreateEviction namespace name =>
    match tracker_pods fc !! (namespace, name) with
    | None => (false, Some "unable to delete pod", fc)
    | Some _ => (true, None, withPods fc (delete (namespace, name) (tracker_pods fc)))
    end
  | CreatePod _ => (false, None, fc)
  end.

(** The tracker's own reaction, to which an unhandled action falls back: a
    create adds the object unless its key is taken; an eviction reaches it
    only after the delete above found no pod under the key, and the tracker
    then has nothing to update. *)
Definition objectReaction (action : Action) (fc : FakeClientset) : option string * FakeClientset :=
  match action with
  | CreatePod item =>
    match tracker_pods fc !! podKey item with
    | Some _ => (Some "already exists", fc)
    | None => (None, withPods fc (<[podKey item := item]> (tracker_pods fc)))
    end
  | CreateEviction namespace name => (Some "not found", fc)
  end.

(** [Fake.Invokes]: the first reactor that handles the action answers. *)
Definition Invokes (action : Action) (fc : FakeClientset) : option string * FakeClientset :=
  let '(handled, err, fc') := evictionReactor action fc in
  if handled then (err, fc') else objectReaction action fc'.

Definition createNode (item : Node) (fc : FakeClientset) : option string * FakeClientset :=
  match tracker_nodes fc !! node_Name item with
  | Some _ => (Some "already exists", fc)
  | None => (None, mkFakeClientset (tracker_pods fc) (<[node_Name item := item]> (tracker_nodes fc))
                     (tracker_namespaces fc) (tracker_priorityClasses fc))
  end.

Definition createNamespace (item : string) (fc : FakeClientset) : option string * FakeClientset :=
  if bool_decide (item ∈ tracker_namespaces fc) then (Some "already exists", fc)
  else (None, mkFakeClientset (tracker_pods fc) (tracker_nodes fc)
                ({[item]} ∪ tracker_namespaces fc) (tracker_priorityClasses fc)).

Definition createPriorityClass (item : string) (fc : FakeClientset) : option string * FakeClientset :=
  if bool_decide (item ∈ tracker_priorityClasses fc) then (Some "already exists", fc)
  else (None, mkFakeClientset (tracker_pods fc) (tracker_nodes fc)
                (tracker_namespaces fc) ({[item]} ∪ tracker_priorityClasses fc)).

(** [for _, item := range items { if _, err := ..Create(item); err != nil
    { return nil, fmt.Errorf(msg + ": %v", err) } }]. *)
Fixpoint copyAll {A} (create : A -> FakeClientset -> option string * FakeClientset)
    (msg : string) (items : list A) (fc : FakeClientset) : Result FakeClientset :=
  match items with
  | [] => Ok fc
  | item :: rest =>
    match create item fc with
    | (Some err, _) => Err (msg ++ ": " ++ err)%string
    | (None, fc') => copyAll create msg rest fc'
    end
  end.

(** [items, err := lister.List(..); if err != nil { return nil,
    fmt.Errorf(msg + ": %v", err) }]. *)
Definition listOr {A} (msg : string) (r : Result (list A)) : Result (list A) :=
  match r with Ok l => Ok l | Err err => Err (msg ++ ": " ++ err)%string end.

(** [cachedClient]: a fresh fake client with the eviction reactor, filled
    with what the four informer listers return. *)
Definition cachedClient
    (podLister : Result (list Pod)) (nodeLister : Result (list Node))
    (namespaceLister priorityClassLister : Result (list string)) : Result FakeClientset :=
  let fakeClient := NewSimpleClientset in
  pods ← listOr "unable to list pods" podLister;
  fakeClient ← copyAll (fun item => Invokes (CreatePod item)) "unable to copy pod" pods fakeClient;
  nodes ← listOr "unable to list nodes" nodeLister;
  fakeClient ← copyAll createNode "unable to copy node" nodes fakeClient;
  namespaces ← listOr "unable to list namespaces" namespaceLister;
  fakeClient ← copyAll createNamespace "unable to copy node" namespaces fakeClient;
  priorityClasses ← listOr "unable to list priorityclasses" priorityClassLister;
  fakeClient ← copyAll createPriorityClass "unable to copy priorityclass" priorityClasses fakeClient;
  mret fakeClient.

(** ** The pod evictor *)

(** Modelled from the spec: [evictions.PodEvictor] with [NewPodEvictor],
    [EvictPod] and [TotalEvicted] ([pkg/descheduler/evictions]) is not part
    of the sources at hand.  The evictor holds the configuration of its tick,
    per-node and per-namespace eviction counters and a running total, all
    zero when it is built. *)
Record PodEvictor := mkPodEvictor {
  pe_config : EvictorConfig;
  nodepodCount : gmap string nat;
  namespacePodCount : gmap string nat;
  totalEvicted : nat }.

Definition NewPodEvictor (config : EvictorConfig) : PodEvictor :=
  mkPodEvictor config ∅ ∅ 0.

Definition TotalEvicted (pe : PodEvictor) : nat := totalEvicted pe.

Definition countOf (m : gmap string nat) (k : string) : nat := default 0%nat (m !! k).

(** A counter is at its cap; no cap when the limit is unset. *)
Definition atCap (limit : option nat) (count : nat) : bool :=
  match limit with
  | Some n => (n <=? count)%nat
  | None => false
  end.

Definition countEviction (pe : PodEvictor) (pod : Pod) (node : Node) : PodEvictor :=
  mkPodEvictor (pe_config pe)
    (<[node_Name node := S (countOf (nodepodCount pe) (node_Name node))]> (nodepodCount pe))
    (<[pod_Namespace pod := S (countOf (namespacePodCount pe) (pod_Namespace pod))]>
       (namespacePodCount pe))
    (S (totalEvicted pe)).

(** ** What a tick reads from outside *)

(** The closure [RunDeschedulerStrategies] hands to [wait.NonSlidingUntil]
    reads the cluster through the informers and the API server.  A [TickEnv]
    is what they answer during one tick:
    - [e_cancelled]: the root context was cancelled, so that the stop channel
      is found closed when this tick is due;
    - [e_readyNodes]: [nodeutil.ReadyNodes] for a node selector;
    - [e_pods]: the pods of the cluster, which the pod informer's cache
      mirrors; [e_podListErr] is an error of its lister;
    - [e_nodes], [e_namespaces], [e_priorityClasses]: the other listers;
    - [e_fakeIndexErr]: an error of [BuildGetPodsAssignedToNodeFunc] on the
      fake client's informer;
    - [e_indexErr]: an error of the node-name index for a node;
    - [e_apiEvict]: the API server's answer to an eviction, given the pods
      currently in the cluster ([None] accepts it). *)
Record TickEnv := mkTickEnv {
  e_cancelled : bool;
  e_readyNodes : string -> Result (list Node);
  e_pods : list Pod;
  e_podListErr : option string;
  e_nodes : Result (list Node);
  e_namespaces : Result (list string);
  e_priorityClasses : Result (list string);
  e_fakeIndexErr : option string;
  e_indexErr : string -> option string;
  e_apiEvict : list Pod -> Pod -> option string }.

(** What the variable [getPodsAssignedToNode] of [RunDeschedulerStrategies]
    holds: the index of the real pod informer, the index of a fake client's
    informer, or nil. *)
Inductive PodsFn := NilIndex | LiveIndex | FakeIndex.

Global Instance PodsFn_eq_dec : EqDecision PodsFn.
Proof. solve_decision. Defined.

(** The objects a tick's strategies act on: the pods of the real cluster,
    the fake client that a [FakeIndex] reads and a [FakeClient] evictor
    writes (one object, shared), and the evictor. *)
Record World := mkWorld {
  realPods : list Pod;
  fakeClient : FakeClientset;
  evictor : PodEvictor }.

Definition assignedTo (nodeName : string) (filter : Pod -> bool) (pods : list Pod) : list Pod :=
  List.filter (fun p => bool_decide (pod_NodeName p = nodeName) && filter p) pods.

(** [podutil.ListAllPodsOnANode nodeName getPodsAssignedToNode filter]: the
    pods the index holds for the node that pass the filter.  An informer's
    index is read as the current content of what it watches. *)
Definition podsAssignedToNode (e : TickEnv) (fn : PodsFn)
    (nodeName : string) (filter : Pod -> bool) (w : World) : Result (list Pod) :=
  match fn with
  | NilIndex => Err "nil getPodsAssignedToNode"
  | LiveIndex =>
    match e_indexErr e nodeName with
    | Some err => Err err
    | None => Ok (assignedTo nodeName filter (realPods w))
    end
  | FakeIndex =>
    match e_indexErr e nodeName with
    | Some err => Err err
    | None => Ok (assignedTo nodeName filter (map_to_list (tracker_pods (fakeClient w))).*2)
    end
  end.

(** The eviction call on the evictor's client: the API server decides for
    the real client, the reactor chain for the fake one. *)
Definition clientEvict (e : TickEnv) (c : Clientset) (pod : Pod) (w : World) : option string * World :=
  match c with
  | RealClient =>
    match e_apiEvict e (realPods w) pod with
    | Some err => (Some err, w)
    | None =>
      (None, mkWorld (List.filter (fun q => negb (bool_decide (podKey q = podKey pod))) (realPods w))
                     (fakeClient w) (evictor w))
    end
  | FakeClient =>
    let '(err, fc) := Invokes (CreateEviction (pod_Namespace pod) (pod_Name pod)) (fakeClient w) in
    (err, mkWorld (realPods w) fc (evictor w))
  end.

(** Modelled from the spec: [PodEvictor.EvictPod].  At a cap nothing is
    issued and [(false, nil)] is returned; otherwise the eviction is issued
    on the evictor's client; a rejection is returned as an error and counts
    nothing; a success increments the three counters. *)
Definition podEvictor_EvictPod (e : TickEnv) (pod : Pod) (node : Node) (reason : string)
    (w : World) : EvictResult * World :=
  let pe := evictor w in
  if atCap (pe_maxPodsToEvictPerNode (pe_config pe)) (countOf (nodepodCount pe) (node_Name node))
  then ((false, None), w)
  else if atCap (pe_maxPodsToEvictPerNamespace (pe_config pe))
                (countOf (namespacePodCount pe) (pod_Namespace pod))
  then ((false, None), w)
  else
    match clientEvict e (pe_client (pe_config pe)) pod w with
    | (Some err, w') => ((false, Some err), w')
    | (None, w') =>
      ((true, None), mkWorld (realPods w') (fakeClient w') (countEviction (evictor w') pod node))
    end.

Definition tickHandler (e : TickEnv) (fn : PodsFn) : Handler World :=
  {| h_list := podsAssignedToNode e fn;
     h_evict := podEvictor_EvictPod e |}.

(** ** descheduler.go: the loop *)

(** The ready-node listing of a tick failed or has at most one node. *)
Definition unsafeClusterSize (r : Result (list Node)) : bool :=
  match r with
  | Err _ => true
  | Ok nodes => (length nodes <=? 1)%nat
  end.


(** The variables of [RunDeschedulerStrategies] that outlive a tick: the
    stop channel, [getPodsAssignedToNode], and the fake client whose informer
    a [FakeIndex] left in that variable reads. *)
Record LoopState := mkLoopState {
  stopChannelClosed : bool;
  getPodsAssignedToNode : PodsFn;
  indexedFakeClient : FakeClientset }.

(** What a tick did: the calls it made, and the pods of the real cluster
    when it ended. *)
Record TickReport := mkTickReport {
  t_trace : list Event;
  t_podsAfter : list Pod }.

Definition closeStopChannel (ls : LoopState) : LoopState :=
  mkLoopState true (getPodsAssignedToNode ls) (indexedFakeClient ls).

(** The variables as [RunDeschedulerStrategies] sets them up before the loop:
    the stop channel open, [getPodsAssignedToNode] built on the real pod
    informer, no fake client yet. *)
Definition firstLoopState : LoopState := mkLoopState false LiveIndex NewSimpleClientset.

(** How [wait.NonSlidingUntil] left off: it returned because the stop
    channel was closed, or it is still waiting for the next tick. *)
Inductive LoopOutcome := LoopReturned | LoopWaiting.

(** [wait.NonSlidingUntil f period stopCh]: before each call of [f] the stop
    channel is checked, after it the loop waits for the period or the
    channel.  The list holds what the environment answers tick by tick; when
    it is used up with the channel still open, the loop is waiting. *)
Fixpoint NonSlidingUntil (f : TickEnv -> LoopState -> LoopState * TickReport)
    (envs : list TickEnv) (ls : LoopState) : LoopOutcome * LoopState * list TickReport :=
  if stopChannelClosed ls then (LoopReturned, ls, [])
  else
    match envs with
    | [] => (LoopWaiting, ls, [])
    | e :: rest =>
      if e_cancelled e then (LoopReturned, closeStopChannel ls, [])
      else
        let '(ls', report) := f e ls in
        let '(outcome, ls'', reports) := NonSlidingUntil f rest ls' in
        (outcome, ls'', report :: reports)
    end.

(** What [RunDeschedulerStrategies] did: it returned (nil or an error), or
    it is still in its loop. *)
Inductive RunOutcome := Returned (err : option string) | Running.

Section ControlLoop.
Context `{Packages} `{StrategyPackages}.
Context (rs : DeschedulerServer) (deschedulerPolicy : DeschedulerPolicy)
        (evictionPolicyGroupVersion : string).

Definition nodeSelector : string := default "" (NodeSelector deschedulerPolicy).
Definition evictLocalStoragePods : bool := default false (EvictLocalStoragePods deschedulerPolicy).
Definition evictBarePods : bool := default false (EvictFailedBarePods deschedulerPolicy).
Definition evictSystemCriticalPods : bool :=
  default false (EvictSystemCriticalPods deschedulerPolicy).
Definition ignorePvcPods : bool := default false (IgnorePVCPods deschedulerPolicy).

(** [for _, strategy := range strategyList]: an enabled strategy runs, any
    other is logged with [klog.ErrorS(fmt.Errorf("unknown strategy name"),
    "skipping strategy", ..)]. *)
Fixpoint runStrategies (e : TickEnv) (fn : PodsFn) (strategyList : list Strategy)
    (nodes : list Node) (w : World) : World * list Event :=
  match strategyList with
  | [] => (w, [])
  | strategy :: rest =>
    if Enabled strategy then
      let '(_, w1, t1) :=
        interp (tickHandler e fn) (Run strategy nodes (pe_config (evictor w))) w in
      let '(w2, t2) := runStrategies e fn rest nodes w1 in
      (w2, EvRun (Name strategy) :: t1 ++ t2)
    else
      let '(w2, t2) := runStrategies e fn rest nodes w in
      (w2, EvSkip (Name strategy) :: t2)
  end.

(** The [if rs.DryRun] branch of the tick.  [inl] is a [return] out of the
    tick; [inr] carries on with the client for the evictor. *)
Definition dryRunSetup (e : TickEnv) (ls : LoopState)
    : (LoopState * list Event) + (LoopState * Clientset * list Event) :=
  if DryRun rs then
    (* the second line is the first thing cachedClient does *)
    let log := [EvLog Info "Building a cached client from the cluster for the dry run";
                EvLog Info "Pulling resources for the cached client from the cluster"] in
    match cachedClient
            (match e_podListErr e with Some err => Err err | None => Ok (e_pods e) end)
            (e_nodes e) (e_namespaces e) (e_priorityClasses e) with
    | Err err => inl (ls, log ++ [EvLog Error err])
    | Ok fakeClient =>
      match e_fakeIndexErr e with
      | Some err =>
        inl (mkLoopState (stopChannelClosed ls) NilIndex (indexedFakeClient ls),
             log ++ [EvLog Error
                       ("build get pods assigned to node function error: " ++ err)%string])
      | None =>
        inr (mkLoopState (stopChannelClosed ls) FakeIndex fakeClient, FakeClient, log)
      end
    end
  else inr (ls, RealClient, []).

(** The tick finds enough ready nodes and then returns out of the
    [if rs.DryRun] branch. *)
Definition endsInDryRunSetup (e : TickEnv) (ls : LoopState) : bool :=
  negb (unsafeClusterSize (e_readyNodes e nodeSelector))
  && match dryRunSetup e ls with inl _ => true | inr _ => false end.

(** The closure handed to [wait.NonSlidingUntil]: one tick. *)
Definition tick (strategyList : list Strategy) (e : TickEnv) (ls : LoopState)
    : LoopState * TickReport :=
  match e_readyNodes e nodeSelector with
  | Err err =>
    (closeStopChannel ls, mkTickReport [EvLog Info "Unable to get ready nodes"] (e_pods e))
  | Ok nodes =>
    if (length nodes <=? 1)%nat then
      (closeStopChannel ls,
       mkTickReport
         [EvLog Info "The cluster size is 0 or 1 meaning eviction causes service disruption or degradation. So aborting.."]
         (e_pods e))
    else
      match dryRunSetup e ls with
      | inl (ls', log) => (ls', mkTickReport log (e_pods e))
      | inr (ls', podEvictorClient, log) =>
        let podEvictor :=
          NewPodEvictor
            (mkEvictorConfig podEvictorClient evictionPolicyGroupVersion (DryRun rs)
               (MaxNoOfPodsToEvictPerNode deschedulerPolicy)
               (MaxNoOfPodsToEvictPerNamespace deschedulerPolicy)
               nodes evictLocalStoragePods evictSystemCriticalPods ignorePvcPods
               evictBarePods (negb (DisableMetrics rs))) in
        let '(w, t) :=
          runStrategies e (getPodsAssignedToNode ls') strategyList nodes
            (mkWorld (e_pods e) (indexedFakeClient ls') podEvictor) in
        let log := log ++ [EvLog Info "Building a pod evictor"] ++ t
                       ++ [EvLog Info "Number of evicted pods"] in
        (* rs.DeschedulingInterval.Seconds() == 0 holds exactly for the
           zero duration *)
        (if (DeschedulingInterval rs =? 0)%Z
         then mkLoopState true (getPodsAssignedToNode ls') (fakeClient w)
         else mkLoopState (stopChannelClosed ls') (getPodsAssignedToNode ls') (fakeClient w),
         mkTickReport log (realPods w))
      end
  end.

(** [RunDeschedulerStrategies].  [buildIndexErr] is an error of
    [BuildGetPodsAssignedToNodeFunc] on the real pod informer, which the
    function returns behind its own words ([fmt.Errorf(".. error: %v",
    err)]).  The result is how the function ended and what each tick did. *)
Definition RunDeschedulerStrategies (buildIndexErr : option string) (envs : list TickEnv)
    : RunOutcome * list TickReport :=
  match buildIndexErr with
  | Some err =>
    (Returned (Some ("build get pods assigned to node function error: " ++ err)%string), [])
  | None =>
    match initializeStratagies (Strategies deschedulerPolicy) with
    | Err err => (Returned (Some err), [])
    | Ok strategyList =>
      let '(outcome, _, reports) :=
        NonSlidingUntil (tick strategyList) envs firstLoopState in
      (match outcome with
       | LoopReturned => Returned None
       | LoopWaiting => Running
       end, reports)
    end
  end.
End ControlLoop.

(** ** Reading a trace *)

(** The [EvictPod] calls of a trace: pod, node and reason. *)
Definition evictCalls (t : list Event) : list (Pod * Node * string) :=
  omap (fun ev => match ev with
                  | EvEvict pod node reason _ => Some (pod, node, reason)
                  | _ => None
                  end) t.

(** The listings of a trace: node name and result. *)
Definition listings (t : list Event) : list (string * Result (list Pod)) :=
  omap (fun ev => match ev with
                  | EvList nodeName res => Some (nodeName, res)
                  | _ => None
                  end) t.

(** The events of the loop over the strategy list. *)
Definition strategyEvents (t : list Event) : list Event :=
  List.filter (fun ev => match ev with EvRun _ | EvSkip _ => true | _ => false end) t.

(** What the loop over the strategy list does with a strategy. *)
Definition strategyEvent (s : Strategy) : Event :=
  if Enabled s then EvRun (Name s) else EvSkip (Name s).

(** The first event of a trace that is not a log line. *)
Fixpoint nextCall (t : list Event) : option Event :=
  match t with
  | [] => None
  | EvLog _ _ :: t' => nextCall t'
  | ev :: _ => Some ev
  end.

Definition isEvict (ev : Event) : bool :=
  match ev with EvEvict _ _ _ _ => true | _ => false end.

Definition isFailedEvict (ev : Event) : bool :=
  match ev with EvEvict _ _ _ (_, Some _) => true | _ => false end.

Definition isFailedList (ev : Event) : bool :=
  match ev with EvList _ (Err _) => true | _ => false end.

(** No listing of the trace failed. *)
Definition noListErrors (t : list Event) : bool := forallb (fun ev => negb (isFailedList ev)) t.

(** No eviction of the trace returned an error. *)
Definition noEvictErrors (t : list Event) : bool := forallb (fun ev => negb (isFailedEvict ev)) t.

Definition isList (ev : Event) : bool :=
  match ev with EvList _ _ => true | _ => false end.

(** No [klog.ErrorS] line in the trace. *)
Definition noErrorLogged (t : list Event) : bool :=
  forallb (fun ev => match ev with EvLog Error _ => false | _ => true end) t.

(** The next call is a listing, or there is none. *)
Definition listOrEnd (o : option Event) : Prop :=
  match o with
  | None => True
  | Some (EvList _ _) => True
  | Some _ => False
  end.

(** After an eviction that returned an error, the next call of the trace is
    a listing, if there is one. *)
Fixpoint stopsAfterFailedEvict (t : list Event) : Prop :=
  match t with
  | [] => True
  | ev :: t' => (isFailedEvict ev = true -> listOrEnd (nextCall t')) /\ stopsAfterFailedEvict t'
  end.

(** A listing that failed is the last event of the trace. *)
Fixpoint endsAtFailedList (t : list Event) : Prop :=
  match t with
  | [] => True
  | ev :: t' => (isFailedList ev = true -> t' = []) /\ endsAtFailedList t'
  end.

(** An [EvictPod] call of a trace with what it returned. *)
Definition Eviction : Type := Pod * Node * string * EvictResult.

(** The call returned an error. *)
Definition failed (c : Eviction) : bool :=
  match c.2.2 with Some _ => true | None => false end.

(** The [EvictPod] calls of a trace before its first listing. *)
Fixpoint callsBeforeList (t : list Event) : list Eviction :=
  match t with
  | [] => []
  | EvList _ _ :: _ => []
  | EvEvict pod node reason res :: t' => (pod, node, reason, res) :: callsBeforeList t'
  | _ :: t' => callsBeforeList t'
  end.

(** A trace read node by node: each listing with the [EvictPod] calls made
    after it and before the next listing. *)
Fixpoint byNode (t : list Event) : list (string * Result (list Pod) * list Eviction) :=
  match t with
  | [] => []
  | EvList nodeName res :: t' => (nodeName, res, callsBeforeList t') :: byNode t'
  | _ :: t' => byNode t'
  end.

(** The calls are for the given pods on the node, in their order and with
    the reason "NodeTaint", from the first pod up to and including the
    first pod whose eviction returns an error: for all the pods when none
    does, and for no other pod. *)
Fixpoint evictedUntilFailure (node : Node) (pods : list Pod) (calls : list Eviction) : Prop :=
  match pods, calls with
  | [], [] => True
  | pod :: rest, (pod', node', reason, res) :: calls' =>
    pod' = pod /\ node' = node /\ reason = "NodeTaint"
    /\ match res.2 with
       | Some _ => calls' = []
       | None => evictedUntilFailure node rest calls'
       end
  | _, _ => False
  end.

(** The trace of a strategy's [Run] begins with an error line: [Run] ended
    in its set-up (parameters, threshold or filter). *)
Definition setUpFailed (t : list Event) : bool :=
  match t with
  | EvLog Error _ :: _ => true
  | _ => false
  end.

(** The pod does not tolerate every [NoSchedule] taint of the node. *)
Definition violates (node : Node) (pod : Pod) : bool :=
  negb (TolerationsTolerateTaintsWithFilter (pod_Tolerations pod) (node_Taints node) isNoSchedule).

(** ** Invariants of a tick *)

(** Two worlds with the same real pods and the same evictor. *)
Definition sameReal (w1 w2 : World) : Prop :=
  realPods w1 = realPods w2 /\ evictor w1 = evictor w2.

(** Two loop states a tick cannot tell apart: the stop channel agrees, and
    either the run is a dry run or [getPodsAssignedToNode] is the index of
    the real informer in both. *)
Definition alike (dryRun : bool) (ls1 ls2 : LoopState) : Prop :=
  stopChannelClosed ls1 = stopChannelClosed ls2
  /\ (dryRun = true
      \/ (getPodsAssignedToNode ls1 = LiveIndex /\ getPodsAssignedToNode ls2 = LiveIndex)).

(** A tracker holds each pod under the pod's own key. *)
Definition wfTracker (m : gmap (string * string) Pod) : Prop :=
  forall k p, m !! k = Some p -> podKey p = k.

(** No listing of the trace shows a pod that an earlier eviction of the
    trace evicted. *)
Fixpoint unseenAfterEvict (t : list Event) : Prop :=
  match t with
  | [] => True
  | ev :: t' =>
    (forall pod node reason, ev = EvEvict pod node reason (true, None) ->
       forall nodeName pods q, EvList nodeName (Ok pods) ∈ t' -> q ∈ pods -> podKey q <> podKey pod)
    /\ unseenAfterEvict t'
  end.

(** Every pod a listing of the trace shows is in the tracker. *)
Definition listedIn (m : gmap (string * string) Pod) (t : list Event) : Prop :=
  forall nodeName pods q, EvList nodeName (Ok pods) ∈ t -> q ∈ pods -> m !! podKey q = Some q.

(** Every pod the trace evicted is gone from the tracker. *)
Definition evictedGone (t : list Event) (m : gmap (string * string) Pod) : Prop :=
  forall pod node reason, EvEvict pod node reason (true, None) ∈ t -> m !! podKey pod = None.

(** A trace that takes the tracker of a fake client from [m] to [m']. *)
Definition dryRunTrace (m : gmap (string * string) Pod) (t : list Event)
    (m' : gmap (string * string) Pod) : Prop :=
  m' ⊆ m /\ listedIn m t /\ evictedGone t m' /\ unseenAfterEvict t.

(** A world whose evictor writes to the fake client. *)
Definition dryWorld (w : World) : Prop :=
  pe_client (pe_config (evictor w)) = FakeClient /\ wfTracker (tracker_pods (fakeClient w)).

(** ** Instances for the examples *)

Module Sample.

Definition SystemCriticalPriority : Z := 2000000000.

(** Modelled from the spec: [podutil.Options.BuildFilterFunc] is not part
    of the sources at hand.  The evaluator is the conjunction of the
    configured options; building fails for both namespace sets non-empty. *)
Definition buildFilterFunc (o : Options) : Result (Pod -> bool) :=
  if negb (bool_decide (opt_includedNamespaces o = ∅))
     && negb (bool_decide (opt_excludedNamespaces o = ∅))
  then Err "only one of Include/Exclude namespaces can be set"
  else Ok (fun pod =>
    opt_filter o pod
    && (bool_decide (opt_includedNamespaces o = ∅)
        || bool_decide (pod_Namespace pod ∈ opt_includedNamespaces o))
    && negb (bool_decide (pod_Namespace pod ∈ opt_excludedNamespaces o))
    && match opt_labelSelector o with
       | Some sel => forallb (fun kv => bool_decide (kv ∈ pod_Labels pod)) (MatchLabels sel)
       | None => true
       end).

(** Packages for the examples: a numeric threshold resolves to itself and
    anything else to the system-critical priority; a pod is evictable
    below the threshold. *)
Definition packages : Packages :=
  {| GetPriorityFromStrategyParams := fun _ params =>
       match params with
       | Some p => Ok (default SystemCriticalPriority (params_ThresholdPriority p))
       | None => Ok SystemCriticalPriority
       end;
     IsEvictable := fun _ threshold _ pod => (default 0 (pod_Priority pod) <? threshold)%Z;
     BuildFilterFunc := buildFilterFunc;
     LabelSelectorAsSelector := fun sel =>
       Ok (fun pod => forallb (fun kv => bool_decide (kv ∈ pod_Labels pod)) (MatchLabels sel)) |}.

(** A strategy that does nothing, named [name], configured by the entry of
    the map under [name]; a constructor after the pattern of
    [NewRemovePodsViolatingNodeTaintsStrategy]. *)
Definition idle (name : StrategyName) (enabled : bool) : Strategy :=
  mkStrategy name enabled None (fun _ _ => mret tt).

Definition newIdle (name : StrategyName) (strategyList : StrategyList) : Result Strategy :=
  match strategyList !! name with
  | None => Err ""
  | Some strategy => Ok (idle name (strategy_Enabled strategy))
  end.

(** A strategy that lists the pods of every node and evicts none. *)
Fixpoint lookAt (nodes : list Node) : Prog unit :=
  match nodes with
  | [] => mret tt
  | node :: rest => listAllPodsOnANode (node_Name node) (fun _ => true);; lookAt rest
  end.

Definition observer (name : StrategyName) (enabled : bool) : Strategy :=
  mkStrategy name enabled None (fun nodes _ => lookAt nodes).

Definition newObserver (name : StrategyName) (strategyList : StrategyList) : Result Strategy :=
  match strategyList !! name with
  | None => Err ""
  | Some strategy => Ok (observer name (strategy_Enabled strategy))
  end.

Definition strategies : StrategyPackages :=
  {| NewRemoveDuplicatesStrategy := newIdle "RemoveDuplicates";
     NewLowNodeUtilizationStrategy := newIdle "LowNodeUtilization";
     NewHighNodeUtilizationStrategy := newIdle "HighNodeUtilization";
     NewRemovePodsViolatingInterPodAntiAffinityStrategy :=
       newIdle "RemovePodsViolatingInterPodAntiAffinity";
     NewRemovePodsViolatingNodeAffinityStrategy := newIdle "RemovePodsViolatingNodeAffinity";
     NewRemovePodsHavingTooManyRestartsStrategy := newIdle "RemovePodsHavingTooManyRestarts";
     NewPodLifeTimeStrategy := newObserver "PodLifeTime";
     NewRemovePodsViolatingTopologySpreadConstraintStrategy :=
       newIdle "RemovePodsViolatingTopologySpreadConstraint";
     NewRemoveFailedPodsStrategy := newIdle "RemoveFailedPods" |}.

(** Constructors that never fail: without an entry the strategy is
    disabled. *)
Definition newLenient (name : StrategyName) (strategyList : StrategyList) : Result Strategy :=
  Ok (idle name (match strategyList !! name with Some s => strategy_Enabled s | None => false end)).

Definition lenientStrategies : StrategyPackages :=
  {| NewRemoveDuplicatesStrategy := newLenient "RemoveDuplicates";
     NewLowNodeUtilizationStrategy := newLenient "LowNodeUtilization";
     NewHighNodeUtilizationStrategy := newLenient "HighNodeUtilization";
     NewRemovePodsViolatingInterPodAntiAffinityStrategy :=
       newLenient "RemovePodsViolatingInterPodAntiAffinity";
     NewRemovePodsViolatingNodeAffinityStrategy := newLenient "RemovePodsViolatingNodeAffinity";
     NewRemovePodsHavingTooManyRestartsStrategy := newLenient "RemovePodsHavingTooManyRestarts";
     NewPodLifeTimeStrategy := newLenient "PodLifeTime";
     NewRemovePodsViolatingTopologySpreadConstraintStrategy :=
       newLenient "RemovePodsViolatingTopologySpreadConstraint";
     NewRemoveFailedPodsStrategy := newLenient "RemoveFailedPods" |}.

Definition dedicated : Taint := mkTaint "dedicated" "gpu" TaintEffectNoSchedule.
Definition softTaint : Taint := mkTaint "zone" "b" TaintEffectPreferNoSchedule.

Definition n1 : Node := mkNode "n1" [dedicated; softTaint].
Definition n2 : Node := mkNode "n2" [].

Definition existsDedicated : Toleration := mkToleration "dedicated" TolerationOpExists "" None.

Definition podOn (name nodeName : string) (tolerations : list Toleration) : Pod :=
  mkPod name "default" nodeName [] None tolerations.

Definition p1 : Pod := podOn "p1" "n1" [].
Definition p2 : Pod := podOn "p2" "n1" [].
Definition p3 : Pod := podOn "p3" "n1" [existsDedicated].
Definition p4 : Pod := podOn "p4" "n2" [].

Definition enabled : DeschedulerStrategy := mkDeschedulerStrategy true None.
Definition disabled : DeschedulerStrategy := mkDeschedulerStrategy false None.

(** A policy with an entry for each of the ten strategies: the taint
    strategy and pod lifetime enabled, the others disabled. *)
Definition allStrategies : StrategyList :=
  <["RemoveDuplicates" := disabled]> (
  <["LowNodeUtilization" := disabled]> (
  <["HighNodeUtilization" := disabled]> (
  <["RemovePodsViolatingInterPodAntiAffinity" := disabled]> (
  <["RemovePodsViolatingNodeAffinity" := disabled]> (
  <["RemovePodsViolatingNodeTaints" := enabled]> (
  <["RemovePodsHavingTooManyRestarts" := disabled]> (
  <["PodLifeTime" := enabled]> (
  <["RemovePodsViolatingTopologySpreadConstraint" := disabled]> (
  <["RemoveFailedPods" := disabled]> ∅))))))))).

Definition policyOf (strategyList : StrategyList) : DeschedulerPolicy :=
  mkDeschedulerPolicy strategyList None None None None None None None.

(** The list [initializeStratagies] builds from [allStrategies]. *)
Definition tenStrategies : list Strategy :=
  [ idle "RemoveDuplicates" false;
    idle "LowNodeUtilization" false;
    idle "HighNodeUtilization" false;
    idle "RemovePodsViolatingInterPodAntiAffinity" false;
    idle "RemovePodsViolatingNodeAffinity" false;
    @NodeTaint.asStrategy packages (NodeTaint.mkTaintStrategy enabled None);
    idle "RemovePodsHavingTooManyRestarts" false;
    observer "PodLifeTime" true;
    idle "RemovePodsViolatingTopologySpreadConstraint" false;
    idle "RemoveFailedPods" false ].

(** A policy that names one strategy, disabled. *)
Definition onlyDuplicatesDisabled : StrategyList := <["RemoveDuplicates" := disabled]> ∅.

(** Parameters with both namespace sets. *)
Definition bothNamespaces : StrategyParameters :=
  mkStrategyParameters (Some (mkNamespaces ["a"] ["b"])) None None "" false false [].

Definition config : EvictorConfig :=
  mkEvictorConfig RealClient "policy/v1" false None None [n1; n2] false false false false true.

(** The environment of a tick: two ready nodes, four pods, nothing fails
    and the API server accepts every eviction. *)
Definition calm : TickEnv :=
  {| e_cancelled := false;
     e_readyNodes := fun _ => Ok [n1; n2];
     e_pods := [p1; p2; p3; p4];
     e_podListErr := None;
     e_nodes := Ok [n1; n2];
     e_namespaces := Ok ["default"];
     e_priorityClasses := Ok [];
     e_fakeIndexErr := None;
     e_indexErr := fun _ => None;
     e_apiEvict := fun _ _ => None |}.

(** As [calm], but the API server rejects every eviction. *)
Definition rejecting : TickEnv :=
  {| e_cancelled := false;
     e_readyNodes := fun _ => Ok [n1; n2];
     e_pods := [p1; p2; p3; p4];
     e_podListErr := None;
     e_nodes := Ok [n1; n2];
     e_namespaces := Ok ["default"];
     e_priorityClasses := Ok [];
     e_fakeIndexErr := None;
     e_indexErr := fun _ => None;
     e_apiEvict := fun _ _ => Some "Cannot evict pod as it would violate the pod's disruption budget" |}.

(** As [calm], but the node-name index fails for [n1]. *)
Definition indexFails : TickEnv :=
  {| e_cancelled := false;
     e_readyNodes := fun _ => Ok [n1; n2];
     e_pods := [p1; p2; p3; p4];
     e_podListErr := None;
     e_nodes := Ok [n1; n2];
     e_namespaces := Ok ["default"];
     e_priorityClasses := Ok [];
     e_fakeIndexErr := None;
     e_indexErr := fun nodeName => if bool_decide (nodeName = "n1") then Some "index error" else None;
     e_apiEvict := fun _ _ => None |}.

(** As [calm], but only one node is ready. *)
Definition oneNode : TickEnv :=
  {| e_cancelled := false;
     e_readyNodes := fun _ => Ok [n1];
     e_pods := [p1; p2; p3; p4];
     e_podListErr := None;
     e_nodes := Ok [n1; n2];
     e_namespaces := Ok ["default"];
     e_priorityClasses := Ok [];
     e_fakeIndexErr := None;
     e_indexErr := fun _ => None;
     e_apiEvict := fun _ _ => None |}.

Definition world : World := mkWorld [p1; p2; p3; p4] NewSimpleClientset (NewPodEvictor config).

Definition once : DeschedulerServer := mkDeschedulerServer false 0 false.
Definition everyFiveMinutes : DeschedulerServer := mkDeschedulerServer false 300000000000 false.
Definition dryOnce : DeschedulerServer := mkDeschedulerServer true 0 false.
Definition dryEveryFiveMinutes : DeschedulerServer := mkDeschedulerServer true 300000000000 false.

End Sample.

(** ** The other argument validations of strategy_migration.go *)

(** The argument structs of [componentconfig], with the fields the
    validations read.  The validations read the fields of [args] at once:
    they are embedded on the struct a non-nil [args] points to, but for
    [ValidateRemovePodsViolatingNodeAffinityArgs], which tests for nil. *)
Record RemoveFailedPodsArgs := mkRemoveFailedPodsArgs {
  rfp_Namespaces : option Namespaces;
  rfp_LabelSelector : option LabelSelector }.

Record RemovePodsHavingTooManyRestartsArgs := mkRemovePodsHavingTooManyRestartsArgs {
  tmr_Namespaces : option Namespaces;
  tmr_LabelSelector : option LabelSelector;
  tmr_PodRestartThreshold : Z }.

Record RemovePodsViolatingNodeAffinityArgs := mkRemovePodsViolatingNodeAffinityArgs {
  na_NodeAffinityType : list string;
  na_Namespaces : option Namespaces;
  na_LabelSelector : option LabelSelector }.

Record PodLifeTimeArgs := mkPodLifeTimeArgs {
  plt_MaxPodLifeTimeSeconds : option N;
  plt_Namespaces : option Namespaces;
  plt_LabelSelector : option LabelSelector;
  plt_States : list string }.

Record RemoveDuplicatesArgs := mkRemoveDuplicatesArgs {
  rd_Namespaces : option Namespaces }.

(** [validatePodRestartThreshold]: the threshold is an [int32]. *)
Definition validatePodRestartThreshold (podRestartThreshold : Z) : option string :=
  if (podRestartThreshold <? 1)%Z
  then Some "PodsHavingTooManyRestarts threshold not set"
  else None.

(** The set [validatePodLifeTimeStates] builds: [string(v1.PodRunning)],
    [string(v1.PodPending)] and two container state reasons. *)
Definition podLifeTimeAllowedStates : gset string :=
  list_to_set ["Running"; "Pending"; "PodInitializing"; "ContainerCreating"].

(** [validatePodLifeTimeStates]: [HasAll] holds when every state is in the
    set. *)
Definition validatePodLifeTimeStates (states : list string) : option string :=
  if negb (forallb (fun s => bool_decide (s ∈ podLifeTimeAllowedStates)) states)
  then Some "states must be one of [ContainerCreating Pending PodInitializing Running]"
  else None.

(** [ValidateRemoveDuplicatesArgs]. *)
Definition ValidateRemoveDuplicatesArgs (args : RemoveDuplicatesArgs) : option string :=
  validateNamespaceArgs (rd_Namespaces args).

Section MoreValidation.
Context `{Packages}.

(** [ValidateRemoveFailedPodsArgs]. *)
Definition ValidateRemoveFailedPodsArgs (args : RemoveFailedPodsArgs) : option (list string) :=
  errorsAggregate [ validateNamespaceArgs (rfp_Namespaces args);
                    validateLabelSelectorArgs (rfp_LabelSelector args) ].

(** [ValidateRemovePodsHavingTooManyRestartsArgs]. *)
Definition ValidateRemovePodsHavingTooManyRestartsArgs
    (args : RemovePodsHavingTooManyRestartsArgs) : option (list string) :=
  errorsAggregate [ validateNamespaceArgs (tmr_Namespaces args);
                    validateLabelSelectorArgs (tmr_LabelSelector args);
                    validatePodRestartThreshold (tmr_PodRestartThreshold args) ].

(** [ValidateRemovePodsViolatingNodeAffinityArgs].  The function tests
    [args == nil] for its own error and then reads [args.Namespaces] for the
    call of [errorsAggregate]: with nil arguments that read panics. *)
Definition ValidateRemovePodsViolatingNodeAffinityArgs
    (args : option RemovePodsViolatingNodeAffinityArgs) : Outcome (option (list string)) :=
  let err :=
    if match args with
       | None => true
       | Some a => (length (na_NodeAffinityType a) =? 0)%nat
       end
    then Some "nodeAffinityType needs to be set"
    else None in
  match args with
  | None => Panics
  | Some a =>
    Returns (errorsAggregate [ err;
                               validateNamespaceArgs (na_Namespaces a);
                               validateLabelSelectorArgs (na_LabelSelector a) ])
  end.

(** [ValidatePodLifeTimeArgs]. *)
Definition ValidatePodLifeTimeArgs (args : PodLifeTimeArgs) : option (list string) :=
  let err :=
    match plt_MaxPodLifeTimeSeconds args with
    | None => Some "MaxPodLifeTimeSeconds not set"
    | Some _ => None
    end in
  errorsAggregate [ err;
                    validateNamespaceArgs (plt_Namespaces args);
                    validateLabelSelectorArgs (plt_LabelSelector args);
                    validatePodLifeTimeStates (plt_States args) ].
End MoreValidation.

(** ** descheduler.go: Run *)

Module Descheduler.
Section WithPackages.
Context `{Packages} `{StrategyPackages}.

(** [Run]: the client, the policy and the eviction group version are set
    up, each with its error, then [RunDeschedulerStrategies] takes over.
    [createClient] is the result of [client.CreateClient], [loadPolicyConfig]
    that of [LoadPolicyConfig] (a policy pointer that may be nil) and
    [supportEviction] that of [eutils.SupportEviction].  The goroutine that
    closes the stop channel when the context is done is the [e_cancelled] of
    the tick environments. *)
Definition Run (createClient : Result unit)
    (loadPolicyConfig : Result (option DeschedulerPolicy))
    (supportEviction : Result string)
    (rs : DeschedulerServer) (buildIndexErr : option string) (envs : list TickEnv)
    : RunOutcome * list TickReport :=
  match createClient with
  | Err err => (Returned (Some err), [])
  | Ok _ =>
    match loadPolicyConfig with
    | Err err => (Returned (Some err), [])
    | Ok None => (Returned (Some "deschedulerPolicy is nil"), [])
    | Ok (Some deschedulerPolicy) =>
      match supportEviction with
      | Err err => (Returned (Some err), [])
      | Ok evictionPolicyGroupVersion =>
        (* if err != nil || len(evictionPolicyGroupVersion) == 0 { return err } *)
        if (String.length evictionPolicyGroupVersion =? 0)%nat
        then (Returned None, [])
        else RunDeschedulerStrategies rs deschedulerPolicy evictionPolicyGroupVersion
               buildIndexErr envs
      end
    end
  end.
End WithPackages.
End Descheduler.

(** ** Further instances for the examples *)

Module More.

(** Packages whose threshold resolution fails. *)
Definition noPriority : Packages :=
  {| GetPriorityFromStrategyParams := fun _ _ => Err "priority class not found";
     IsEvictable := fun _ _ _ _ => true;
     BuildFilterFunc := Sample.buildFilterFunc;
     LabelSelectorAsSelector := fun sel =>
       Ok (fun pod => forallb (fun kv => bool_decide (kv ∈ pod_Labels pod)) (MatchLabels sel)) |}.

(** Packages whose selector conversion rejects a selector with match
    expressions. *)
Definition strictSelector : Packages :=
  {| GetPriorityFromStrategyParams := fun _ _ => Ok Sample.SystemCriticalPriority;
     IsEvictable := fun _ _ _ _ => true;
     BuildFilterFunc := Sample.buildFilterFunc;
     LabelSelectorAsSelector := fun sel =>
       match MatchExpressions sel with
       | [] => Ok (fun pod =>
                     forallb (fun kv => bool_decide (kv ∈ pod_Labels pod)) (MatchLabels sel))
       | _ => Err "not a valid label selector operator"
       end |}.

(** Parameters with both a numeric threshold and a class name. *)
Definition bothThresholds : StrategyParameters :=
  mkStrategyParameters None None (Some 100%Z) "high" true false [].

(** Parameters with one namespace set. *)
Definition oneNamespaceSet : StrategyParameters :=
  mkStrategyParameters (Some (mkNamespaces ["a"] [])) None None "" false true ["k"].

(** As [Sample.calm], but the pod lister of the dry run fails. *)
Definition listerFails : TickEnv :=
  {| e_cancelled := false;
     e_readyNodes := fun _ => Ok [Sample.n1; Sample.n2];
     e_pods := [Sample.p1; Sample.p2; Sample.p3; Sample.p4];
     e_podListErr := Some "lister error";
     e_nodes := Ok [Sample.n1; Sample.n2];
     e_namespaces := Ok ["default"];
     e_priorityClasses := Ok [];
     e_fakeIndexErr := None;
     e_indexErr := fun _ => None;
     e_apiEvict := fun _ _ => None |}.

(** The fake client that holds the four pods of the examples. *)
Definition fourPods : FakeClientset :=
  mkFakeClientset
    (<[podKey Sample.p1 := Sample.p1]> (<[podKey Sample.p2 := Sample.p2]>
       (<[podKey Sample.p3 := Sample.p3]> (<[podKey Sample.p4 := Sample.p4]> ∅))))
    ∅ ∅ ∅.

(** A second tainted node with two pods that do not tolerate its taint. *)
Definition n3 : Node := mkNode "n3" [Sample.dedicated].
Definition p5 : Pod := Sample.podOn "p5" "n3" [].
Definition p6 : Pod := Sample.podOn "p6" "n3" [].

(** The two tainted nodes are ready, and the API server rejects the
    eviction of [p1] and accepts every other. *)
Definition rejectsP1 : TickEnv :=
  {| e_cancelled := false;
     e_readyNodes := fun _ => Ok [Sample.n1; n3];
     e_pods := [Sample.p1; Sample.p2; Sample.p3; p5; p6];
     e_podListErr := None;
     e_nodes := Ok [Sample.n1; n3];
     e_namespaces := Ok ["default"];
     e_priorityClasses := Ok [];
     e_fakeIndexErr := None;
     e_indexErr := fun _ => None;
     e_apiEvict := fun _ pod =>
       if bool_decide (pod_Name pod = "p1")
       then Some "Cannot evict pod as it would violate the pod's disruption budget"
       else None |}.

Definition fivePods : World :=
  mkWorld [Sample.p1; Sample.p2; Sample.p3; p5; p6] NewSimpleClientset
    (NewPodEvictor Sample.config).

(** Two strategies, neither enabled. *)
Definition allDisabled : list Strategy :=
  [ Sample.idle "RemoveDuplicates" false;
    Sample.observer "PodLifeTime" false ].

End More.

(** ** Measures and conditions for the properties below *)

(** The [EvictPod] calls of a trace that returned an error. *)
Definition failedEvicts (t : list Event) : nat := length (List.filter isFailedEvict t).

(** At most one of the two namespace sets is non-empty. *)
Definition atMostOneNamespaceSet (namespaces : option Namespaces) : Prop :=
  forall ns, namespaces = Some ns -> Include ns = [] \/ Exclude ns = [].

(** The label selector, if there is one, converts to a selector. *)
Definition selectorConverts `{Packages} (labelSelector : option LabelSelector) : Prop :=
  forall sel, labelSelector = Some sel -> is_Err (LabelSelectorAsSelector sel) = false.

(** * Properties *)

(** ** Traces and the command interpreter *)

Lemma nextCall_app a b :
  nextCall (a ++ b) = match nextCall a with Some ev => Some ev | None => nextCall b end.
Proof.
  induction a as [|ev a IH]; simpl; [destruct (nextCall b); reflexivity|].
  destruct ev; auto.
Qed.

Lemma stopsAfterFailedEvict_app a b :
  stopsAfterFailedEvict a -> stopsAfterFailedEvict b -> listOrEnd (nextCall b) ->
  stopsAfterFailedEvict (a ++ b).
Proof.
  intros Ha Hb Hn. induction a as [|ev a IH]; simpl in *; [assumption|].
  destruct Ha as [Hev Ha]. split; [|auto].
  intros Hf. specialize (Hev Hf). rewrite nextCall_app.
  destruct (nextCall a); assumption.
Qed.

Lemma stopsAfterFailedEvict_split t t1 ev t2 :
  stopsAfterFailedEvict t -> t = t1 ++ ev :: t2 -> isFailedEvict ev = true ->
  listOrEnd (nextCall t2).
Proof.
  intros Ht ->. induction t1 as [|x t1 IH]; simpl in Ht; destruct Ht as [H1 H2]; auto.
Qed.

Lemma endsAtFailedList_app a b :
  forallb (fun ev => negb (isList ev)) a = true -> endsAtFailedList b ->
  endsAtFailedList (a ++ b).
Proof.
  intros Ha Hb. induction a as [|ev a IH]; simpl in *; [assumption|].
  apply andb_prop in Ha as [Hev Ha]. split; [|auto].
  destruct ev; simpl in *; try discriminate.
Qed.

Lemma endsAtFailedList_split t t1 ev t2 :
  endsAtFailedList t -> t = t1 ++ ev :: t2 -> isFailedList ev = true -> t2 = [].
Proof.
  intros Ht ->. induction t1 as [|x t1 IH]; simpl in Ht; destruct Ht as [H1 H2]; auto.
Qed.

Lemma evictCalls_app a b : evictCalls (a ++ b) = evictCalls a ++ evictCalls b.
Proof. apply omap_app. Qed.

Lemma listings_app a b : listings (a ++ b) = listings a ++ listings b.
Proof. apply omap_app. Qed.

Lemma listings_no_list a : forallb (fun ev => negb (isList ev)) a = true -> listings a = [].
Proof.
  induction a as [|ev a IH]; simpl; [reflexivity|].
  intros Ha. apply andb_prop in Ha as [Hev Ha]. destruct ev; simpl in *; try discriminate; auto.
Qed.

(** A trace read node by node *)

Lemma callsBeforeList_app a b :
  forallb (fun ev => negb (isList ev)) a = true ->
  callsBeforeList (a ++ b) = callsBeforeList a ++ callsBeforeList b.
Proof.
  induction a as [|ev a IH]; simpl; [reflexivity|].
  intros Hn. apply andb_prop in Hn as [Hev Hn].
  destruct ev; simpl in *; try discriminate; rewrite (IH Hn); reflexivity.
Qed.

Lemma byNode_app a b :
  forallb (fun ev => negb (isList ev)) a = true -> byNode (a ++ b) = byNode b.
Proof.
  induction a as [|ev a IH]; simpl; [reflexivity|].
  intros Hn. apply andb_prop in Hn as [Hev Hn].
  destruct ev; simpl in *; try discriminate; apply (IH Hn).
Qed.

Lemma byNode_listings t : (byNode t).*1 = listings t.
Proof.
  induction t as [|ev t IH]; [reflexivity|].
  destruct ev; simpl; try exact IH. f_equal. exact IH.
Qed.

Lemma callsBeforeList_listOrEnd t : listOrEnd (nextCall t) -> callsBeforeList t = [].
Proof.
  induction t as [|ev t IH]; [reflexivity|].
  destruct ev; simpl; try contradiction; auto.
Qed.

Lemma evictCalls_byNode t :
  evictCalls t = (fun c : Eviction => c.1) <$> (callsBeforeList t ++ concat (byNode t).*2).
Proof.
  induction t as [|ev t IH]; [reflexivity|].
  destruct ev; simpl; try exact IH.
  unfold evictCalls in *. simpl. rewrite IH. reflexivity.
Qed.

Lemma evictedUntilFailure_last node pods calls :
  evictedUntilFailure node pods calls ->
  (length (List.filter failed calls) <= 1)%nat
  /\ forall calls1 c calls2, calls = calls1 ++ c :: calls2 -> failed c = true -> calls2 = [].
Proof.
  revert calls. induction pods as [|pod rest IH]; intros [|[[[q n] r] res] calls']; simpl;
    try contradiction.
  - intros _. split; [lia|]. intros [|? ?] ? ? ?; discriminate.
  - intros (-> & -> & -> & Hres). unfold failed at 1. simpl.
    destruct res as [b [err|]]; simpl in *.
    + subst calls'. simpl. split; [lia|].
      intros [|? [|? ?]] c calls2 Heq; inversion Heq; subst; auto.
    + destruct (IH _ Hres) as [Hlen Hlast]. split; [exact Hlen|].
      intros [|c1 calls1] c calls2 Heq Hf; inversion Heq; subst; [discriminate|].
      eapply Hlast; [reflexivity|exact Hf].
Qed.

Lemma evictedUntilFailure_all node pods calls :
  evictedUntilFailure node pods calls ->
  forallb (fun c => negb (failed c)) calls = true ->
  forall pod, (exists res, (pod, node, "NodeTaint", res) ∈ calls) <-> pod ∈ pods.
Proof.
  revert calls. induction pods as [|pod rest IH]; intros [|[[[q n] r] res] calls']; simpl;
    try contradiction.
  - intros _ _ p. split; [intros [? Hin]|intros Hin]; inversion Hin.
  - intros (-> & -> & -> & Hres) Hn p. apply andb_prop in Hn as [Hf Hn].
    unfold failed in Hf. simpl in Hf. destruct res as [b [err|]]; simpl in *; [discriminate|].
    specialize (IH _ Hres Hn p). rewrite elem_of_cons, <- IH. split.
    + intros [res Hin]. apply elem_of_cons in Hin as [Heq|Hin]; [|eauto].
      inversion Heq. auto.
    + intros [->|[res Hin]]; [exists (b, None); left|exists res; right; exact Hin].
Qed.

Lemma failedEvicts_byNode t :
  failedEvicts t = length (List.filter failed (callsBeforeList t ++ concat (byNode t).*2)).
Proof.
  unfold failedEvicts. induction t as [|ev t IH]; [reflexivity|].
  destruct ev as [| |pod node reason [b [err|]]| |]; simpl; rewrite IH; reflexivity.
Qed.

Section InterpFacts.
Context {S : Type} (h : Handler S).

Lemma interp_bind {A B} (m : Prog A) (f : A -> Prog B) (s : S) :
  interp h (m ≫= f) s =
  let '(a, s1, t1) := interp h m s in
  let '(b, s2, t2) := interp h (f a) s1 in
  (b, s2, t1 ++ t2).
Proof.
  revert s. induction m as [a | sev msg k IH | n flt k IH | p n reason k IH]; intros s; simpl.
  - destruct (interp h (f a) s) as [[b s2] t2]. reflexivity.
  - change (Prog_bind f k) with (k ≫= f). rewrite IH.
    destruct (interp h k s) as [[a s1] t1].
    destruct (interp h (f a) s1) as [[b s2] t2]. reflexivity.
  - change (Prog_bind f (k (h_list h n flt s))) with (k (h_list h n flt s) ≫= f).
    rewrite IH.
    destruct (interp h (k (h_list h n flt s)) s) as [[a s1] t1].
    destruct (interp h (f a) s1) as [[b s2] t2]. reflexivity.
  - destruct (h_evict h p n reason s) as [r s0].
    change (Prog_bind f (k r)) with (k r ≫= f). rewrite IH.
    destruct (interp h (k r) s0) as [[a s1] t1].
    destruct (interp h (f a) s1) as [[b s2] t2]. reflexivity.
Qed.

Context `{Packages}.

Lemma interp_evictPods_cons node pod rest s :
  interp h (NodeTaint.evictPods node (pod :: rest)) s =
  if violates node pod then
    let '(r, s1) := h_evict h pod node "NodeTaint" s in
    match r.2 with
    | Some err =>
      (tt, s1,
       [EvLog Info "Not all taints with NoSchedule effect are tolerated after update for pod on node";
        EvEvict pod node "NodeTaint" r; EvLog Error "Error evicting pod"])
    | None =>
      let '(a, s2, t) := interp h (NodeTaint.evictPods node rest) s1 in
      (a, s2,
       EvLog Info "Not all taints with NoSchedule effect are tolerated after update for pod on node"
         :: EvEvict pod node "NodeTaint" r :: t)
    end
  else interp h (NodeTaint.evictPods node rest) s.
Proof.
  unfold violates. simpl.
  destruct (TolerationsTolerateTaintsWithFilter _ _ _); simpl; [reflexivity|].
  destruct (h_evict h pod node "NodeTaint" s) as [r s1].
  destruct r as [b [err|]]; simpl; [reflexivity|].
  destruct (interp h (NodeTaint.evictPods node rest) s1) as [[a s2] t]. reflexivity.
Qed.

Lemma interp_processNodes_cons podFilter node rest s :
  interp h (NodeTaint.processNodes podFilter (node :: rest)) s =
  match h_list h (node_Name node) podFilter s with
  | Err err =>
    (tt, s, [EvLog Info "Processing node";
             EvList (node_Name node) (h_list h (node_Name node) podFilter s)])
  | Ok pods =>
    let '(_, s1, t1) := interp h (NodeTaint.evictPods node pods) s in
    let '(a, s2, t2) := interp h (NodeTaint.processNodes podFilter rest) s1 in
    (a, s2, EvLog Info "Processing node"
              :: EvList (node_Name node) (h_list h (node_Name node) podFilter s) :: t1 ++ t2)
  end.
Proof.
  simpl. destruct (h_list h (node_Name node) podFilter s) as [pods|err]; [|reflexivity].
  change (Prog_bind ?f ?m) with (m ≫= f). rewrite interp_bind.
  destruct (interp h (NodeTaint.evictPods node pods) s) as [[[] s1] t1].
  destruct (interp h (NodeTaint.processNodes podFilter rest) s1) as [[a s2] t2]. reflexivity.
Qed.


Lemma evictPods_shape node pods s :
  let t := traceOf h (NodeTaint.evictPods node pods) s in
  stopsAfterFailedEvict t /\ forallb (fun ev => negb (isList ev)) t = true.
Proof.
  unfold traceOf. revert s. induction pods as [|pod rest IH]; intros s.
  - simpl. auto.
  - rewrite (interp_evictPods_cons). destruct (violates node pod); [|apply IH].
    destruct (h_evict h pod node "NodeTaint" s) as [[b [err|]] s1]; simpl.
    + repeat split; auto; discriminate.
    + specialize (IH s1). destruct (interp h (NodeTaint.evictPods node rest) s1) as [[a s2] t].
      simpl in *. destruct IH. repeat split; auto; discriminate.
Qed.

(** Every eviction of the inner loop is for a pod of the list that
    violates the node's taints, with the reason "NodeTaint". *)
Lemma evictPods_sound node pods s call :
  call ∈ evictCalls (traceOf h (NodeTaint.evictPods node pods) s) ->
  exists pod, call = (pod, node, "NodeTaint") /\ pod ∈ pods /\ violates node pod = true.
Proof.
  unfold traceOf. revert s. induction pods as [|pod rest IH]; intros s.
  - simpl. intros Hin. inversion Hin.
  - rewrite (interp_evictPods_cons). destruct (violates node pod) eqn:Hv.
    + destruct (h_evict h pod node "NodeTaint" s) as [[b [err|]] s1]; simpl.
      * intros Hin. apply list_elem_of_singleton in Hin. exists pod.
        split; [assumption|]. split; [left|assumption].
      * specialize (IH s1). destruct (interp h (NodeTaint.evictPods node rest) s1) as [[a s2] t].
        simpl in *. intros Hin. apply elem_of_cons in Hin as [->|Hin].
        -- exists pod. split; [reflexivity|]. split; [left|assumption].
        -- destruct (IH Hin) as (q & ? & ? & ?). exists q. split; [assumption|].
           split; [right|]; assumption.
    + intros Hin. destruct (IH s Hin) as (q & ? & ? & ?). exists q. split; [assumption|].
      split; [right|]; assumption.
Qed.

(** Without an eviction error the inner loop calls [EvictPod] for exactly
    the violating pods, in list order. *)
Lemma evictPods_complete node pods s :
  noEvictErrors (traceOf h (NodeTaint.evictPods node pods) s) = true ->
  evictCalls (traceOf h (NodeTaint.evictPods node pods) s)
  = (fun pod => (pod, node, "NodeTaint")) <$> List.filter (violates node) pods.
Proof.
  unfold traceOf. revert s. induction pods as [|pod rest IH]; intros s.
  - reflexivity.
  - rewrite (interp_evictPods_cons). simpl List.filter. destruct (violates node pod) eqn:Hv.
    + destruct (h_evict h pod node "NodeTaint" s) as [[b [err|]] s1]; simpl.
      * discriminate.
      * specialize (IH s1). destruct (interp h (NodeTaint.evictPods node rest) s1) as [[a s2] t].
        simpl in *. intros Hn. rewrite (IH Hn). reflexivity.
    + apply IH.
Qed.


Lemma evictPods_noErrorLogged node pods s :
  noErrorLogged (traceOf h (NodeTaint.evictPods node pods) s) = true ->
  noEvictErrors (traceOf h (NodeTaint.evictPods node pods) s) = true.
Proof.
  unfold traceOf. revert s. induction pods as [|pod rest IH]; intros s.
  - reflexivity.
  - rewrite (interp_evictPods_cons). destruct (violates node pod); [|apply IH].
    destruct (h_evict h pod node "NodeTaint" s) as [[b [err|]] s1]; simpl.
    + discriminate.
    + specialize (IH s1). destruct (interp h (NodeTaint.evictPods node rest) s1) as [[a s2] t].
      simpl in *. assumption.
Qed.

Lemma processNodes_shape podFilter nodes s :
  let t := traceOf h (NodeTaint.processNodes podFilter nodes) s in
  stopsAfterFailedEvict t /\ listOrEnd (nextCall t) /\ endsAtFailedList t.
Proof.
  unfold traceOf. revert s. induction nodes as [|node rest IH]; intros s.
  - simpl. auto.
  - rewrite (interp_processNodes_cons).
    destruct (h_list h (node_Name node) podFilter s) as [pods|err] eqn:Hl.
    + pose proof (evictPods_shape node pods s) as [Hs Hn]. unfold traceOf in Hs, Hn.
      destruct (interp h (NodeTaint.evictPods node pods) s) as [[[] s1] t1].
      specialize (IH s1).
      destruct (interp h (NodeTaint.processNodes podFilter rest) s1) as [[a s2] t2].
      simpl in *. destruct IH as (IH1 & IH2 & IH3).
      repeat split; try discriminate; auto using stopsAfterFailedEvict_app, endsAtFailedList_app.
    + simpl. repeat split; auto; discriminate.
Qed.

Lemma processNodes_sound podFilter nodes s call :
  call ∈ evictCalls (traceOf h (NodeTaint.processNodes podFilter nodes) s) ->
  exists pod node pods,
    call = (pod, node, "NodeTaint") /\ node ∈ nodes /\ violates node pod = true
    /\ (node_Name node, Ok pods) ∈ listings (traceOf h (NodeTaint.processNodes podFilter nodes) s)
    /\ pod ∈ pods.
Proof.
  unfold traceOf. revert s. induction nodes as [|node rest IH]; intros s.
  - simpl. intros Hin. inversion Hin.
  - rewrite (interp_processNodes_cons).
    destruct (h_list h (node_Name node) podFilter s) as [pods|err] eqn:Hl.
    + pose proof (evictPods_sound node pods s call) as Hs. unfold traceOf in Hs.
      destruct (interp h (NodeTaint.evictPods node pods) s) as [[[] s1] t1].
      specialize (IH s1).
      destruct (interp h (NodeTaint.processNodes podFilter rest) s1) as [[a s2] t2].
      simpl in *. rewrite evictCalls_app. intros Hin. apply elem_of_app in Hin as [Hin|Hin].
      * destruct (Hs Hin) as (pod & -> & Hp & Hv). exists pod, node, pods.
        repeat split; auto; left.
      * destruct (IH Hin) as (pod & n & ps & -> & Hn & Hv & Hl' & Hp). exists pod, n, ps.
        repeat split; auto; [right; assumption|].
        right. rewrite listings_app. apply elem_of_app. right. assumption.
    + simpl. intros Hin. inversion Hin.
Qed.

Lemma processNodes_listings podFilter nodes s :
  noListErrors (traceOf h (NodeTaint.processNodes podFilter nodes) s) = true ->
  (listings (traceOf h (NodeTaint.processNodes podFilter nodes) s)).*1 = node_Name <$> nodes.
Proof.
  unfold traceOf. revert s. induction nodes as [|node rest IH]; intros s.
  - reflexivity.
  - rewrite (interp_processNodes_cons).
    destruct (h_list h (node_Name node) podFilter s) as [pods|err] eqn:Hl.
    + pose proof (evictPods_shape node pods s) as [_ Hn]. unfold traceOf in Hn.
      destruct (interp h (NodeTaint.evictPods node pods) s) as [[[] s1] t1].
      specialize (IH s1).
      destruct (interp h (NodeTaint.processNodes podFilter rest) s1) as [[a s2] t2].
      simpl in *. unfold noListErrors. rewrite forallb_app. intros Hne.
      apply andb_prop in Hne as [_ Hne].
      rewrite listings_app, (listings_no_list _ Hn). simpl. f_equal. auto.
    + simpl. discriminate.
Qed.

Lemma processNodes_complete podFilter nodes s :
  let t := traceOf h (NodeTaint.processNodes podFilter nodes) s in
  noListErrors t = true -> noErrorLogged t = true ->
  forall i node, nodes !! i = Some node ->
  exists pods, listings t !! i = Some (node_Name node, Ok pods)
    /\ forall pod, pod ∈ pods -> violates node pod = true ->
       (pod, node, "NodeTaint") ∈ evictCalls t.
Proof.
  unfold traceOf. revert s. induction nodes as [|node rest IH]; intros s.
  - simpl. intros _ _ i node Hi. destruct i; discriminate.
  - rewrite (interp_processNodes_cons).
    destruct (h_list h (node_Name node) podFilter s) as [pods|err] eqn:Hl.
    + pose proof (evictPods_shape node pods s) as [_ Hn].
      pose proof (evictPods_complete node pods s) as Hc.
      pose proof (evictPods_noErrorLogged node pods s) as He.
      unfold traceOf in Hn, Hc, He.
      destruct (interp h (NodeTaint.evictPods node pods) s) as [[[] s1] t1].
      specialize (IH s1).
      destruct (interp h (NodeTaint.processNodes podFilter rest) s1) as [[a s2] t2].
      simpl in *. unfold noListErrors, noErrorLogged. rewrite !forallb_app.
      intros Hnl Hnm. apply andb_prop in Hnl as [_ Hnl]. apply andb_prop in Hnm as [Hnm1 Hnm2].
      rewrite listings_app, (listings_no_list _ Hn), evictCalls_app. simpl.
      intros [|i] n Hi; simpl in Hi.
      * inversion Hi; subst n. exists pods. split; [reflexivity|].
        intros pod Hp Hv. apply elem_of_app. left. rewrite (Hc (He Hnm1)).
        apply list_elem_of_fmap. exists pod. split; [reflexivity|].
        apply list_elem_of_In, filter_In. split; [apply list_elem_of_In|]; assumption.
      * destruct (IH Hnl Hnm2 i n Hi) as (ps & Hps & Hall). exists ps. split; [assumption|].
        intros pod Hp Hv. apply elem_of_app. right. auto.
    + simpl. discriminate.
Qed.

(** The calls of the inner loop are for the violators of the listing, up to
    and including the first whose eviction returns an error. *)
Lemma evictPods_calls node pods s :
  evictedUntilFailure node (List.filter (violates node) pods)
    (callsBeforeList (traceOf h (NodeTaint.evictPods node pods) s)).
Proof.
  unfold traceOf. revert s. induction pods as [|pod rest IH]; intros s.
  - simpl. exact I.
  - rewrite (interp_evictPods_cons). simpl List.filter.
    destruct (violates node pod) eqn:Hv; [|apply IH].
    destruct (h_evict h pod node "NodeTaint" s) as [[b [err|]] s1]; simpl.
    + auto.
    + specialize (IH s1). destruct (interp h (NodeTaint.evictPods node rest) s1) as [[a s2] t].
      simpl in *. auto.
Qed.

Lemma processNodes_byNode podFilter nodes s i name res calls :
  byNode (traceOf h (NodeTaint.processNodes podFilter nodes) s) !! i = Some (name, res, calls) ->
  exists node, nodes !! i = Some node /\ name = node_Name node
    /\ match res with
       | Ok pods => evictedUntilFailure node (List.filter (violates node) pods) calls
       | Err _ => calls = []
       end.
Proof.
  unfold traceOf. revert s i. induction nodes as [|node rest IH]; intros s i.
  - simpl. destruct i; discriminate.
  - rewrite (interp_processNodes_cons).
    destruct (h_list h (node_Name node) podFilter s) as [pods|err] eqn:Hl.
    + pose proof (evictPods_shape node pods s) as [_ Hn].
      pose proof (evictPods_calls node pods s) as Hc.
      pose proof (processNodes_shape podFilter rest) as Hshape.
      unfold traceOf in Hn, Hc, Hshape.
      destruct (interp h (NodeTaint.evictPods node pods) s) as [[[] s1] t1].
      specialize (IH s1). specialize (Hshape s1).
      destruct (interp h (NodeTaint.processNodes podFilter rest) s1) as [[a s2] t2].
      simpl in *. destruct Hshape as (_ & Hnext & _).
      rewrite (byNode_app _ _ Hn), (callsBeforeList_app _ _ Hn),
        (callsBeforeList_listOrEnd _ Hnext), app_nil_r.
      destruct i as [|i]; simpl.
      * intros Heq. inversion Heq; subst. exists node. auto.
      * intros Hi. destruct (IH i Hi) as (n & ? & ? & ?). exists n. auto.
    + simpl. destruct i as [|[|i]]; simpl; try discriminate.
      intros Heq. inversion Heq; subst. exists node. auto.
Qed.

Lemma processNodes_listed podFilter nodes s i node :
  nodes !! i = Some node ->
  (forall j name err, (j < i)%nat ->
     listings (traceOf h (NodeTaint.processNodes podFilter nodes) s) !! j
     <> Some (name, Err err)) ->
  exists res,
    listings (traceOf h (NodeTaint.processNodes podFilter nodes) s) !! i
    = Some (node_Name node, res).
Proof.
  unfold traceOf. revert s i. induction nodes as [|n rest IH]; intros s i.
  - destruct i; discriminate.
  - rewrite (interp_processNodes_cons).
    destruct (h_list h (node_Name n) podFilter s) as [pods|err] eqn:Hl.
    + pose proof (evictPods_shape n pods s) as [_ Hn]. unfold traceOf in Hn.
      destruct (interp h (NodeTaint.evictPods n pods) s) as [[[] s1] t1].
      specialize (IH s1).
      destruct (interp h (NodeTaint.processNodes podFilter rest) s1) as [[a s2] t2].
      simpl in *. rewrite listings_app, (listings_no_list _ Hn). simpl.
      destruct i as [|i]; simpl.
      * intros Heq _. inversion Heq; subst. eauto.
      * intros Hi Hno. apply IH; [exact Hi|].
        intros j name err Hj. apply (Hno (Datatypes.S j) name err). lia.
    + simpl. destruct i as [|i]; simpl.
      * intros Heq _. inversion Heq; subst. eauto.
      * intros _ Hno. exfalso. apply (Hno 0%nat (node_Name n) err); [lia|reflexivity].
Qed.

(** [Run] either ends in its set-up with one error line, or is the loop
    over the nodes with the filter it built. *)
Lemma Run_cases client strategy nodes pe :
  (exists msg, NodeTaint.Run client strategy nodes pe = klog Error msg)
  \/ (exists podFilter, NodeTaint.Run client strategy nodes pe
                        = NodeTaint.processNodes podFilter nodes).
Proof.
  unfold NodeTaint.Run.
  destruct (validateRemovePodsViolatingNodeTaintsParams _); [left; eauto|].
  destruct (match strategy_Params strategy with Some _ => _ | None => _ end) as [incl excl].
  destruct (GetPriorityFromStrategyParams _ _); [|left; eauto].
  destruct (BuildFilterFunc _); [right|left]; eauto.
Qed.
End InterpFacts.

(** ** The taint strategy *)

Lemma exists_toleration_covers tol taint :
  tol_Operator tol = TolerationOpExists ->
  tol_Key tol = taint_Key taint ->
  (tol_Effect tol = None \/ tol_Effect tol = Some (taint_Effect taint)) ->
  ToleratesTaint tol taint = true.
Proof.
  intros Hop Hkey Heff. unfold ToleratesTaint. rewrite Hop.
  rewrite (bool_decide_eq_true_2 (tol_Key tol = taint_Key taint) Hkey), orb_true_r.
  destruct Heff as [->| ->]; [reflexivity|]. rewrite bool_decide_eq_true_2; reflexivity.
Qed.

Lemma covered_not_violates node pod :
  (forall taint, taint ∈ node_Taints node -> taint_Effect taint = TaintEffectNoSchedule ->
     exists tol, tol ∈ pod_Tolerations pod /\ ToleratesTaint tol taint = true) ->
  violates node pod = false.
Proof.
  intros Hcov. unfold violates, TolerationsTolerateTaintsWithFilter.
  apply negb_false_iff, forallb_forall. intros taint Hin.
  apply list_elem_of_In in Hin. unfold isNoSchedule. case_bool_decide as Heff; [|reflexivity].
  simpl. destruct (Hcov taint Hin Heff) as (tol & Htol & Hok).
  apply existsb_exists. exists tol. split; [apply list_elem_of_In|]; assumption.
Qed.

Section RunFacts.
Context {S : Type} (h : Handler S) `{Packages}.
Context (client : option Clientset) (strategy : DeschedulerStrategy)
        (nodes : list Node) (podEvictor : EvictorConfig) (s : S).

Abbreviation theTrace := (traceOf h (NodeTaint.Run client strategy nodes podEvictor) s).

Lemma Run_trace_cases :
  (exists msg, theTrace = [EvLog Error msg])
  \/ (exists podFilter, theTrace = traceOf h (NodeTaint.processNodes podFilter nodes) s).
Proof.
  destruct (Run_cases client strategy nodes podEvictor) as [[msg ->]|[f ->]].
  - left. exists msg. reflexivity.
  - right. exists f. reflexivity.
Qed.

(** Read node by node, the trace of [Run] has one entry for each node it
    lists, in the order of the node list; the [EvictPod] calls of an entry
    are for the pods of its listing that do not tolerate the node's taints,
    up to and including the first whose eviction returns an error. *)
Lemma Run_byNode i name res calls :
  byNode theTrace !! i = Some (name, res, calls) ->
  exists node, nodes !! i = Some node /\ name = node_Name node
    /\ match res with
       | Ok pods => evictedUntilFailure node (List.filter (violates node) pods) calls
       | Err _ => calls = []
       end.
Proof.
  destruct Run_trace_cases as [[msg Ht]|[f Ht]]; rewrite Ht.
  - destruct i; discriminate.
  - apply (processNodes_byNode h).
Qed.

(** A node is listed unless the set-up or the listing of an earlier node
    failed. *)
Lemma Run_listed i node :
  setUpFailed theTrace = false -> nodes !! i = Some node ->
  (forall j name err, (j < i)%nat -> listings theTrace !! j <> Some (name, Err err)) ->
  exists res, listings theTrace !! i = Some (node_Name node, res).
Proof.
  destruct Run_trace_cases as [[msg Ht]|[f Ht]]; rewrite Ht.
  - discriminate.
  - intros _. apply (processNodes_listed h).
Qed.

(** [Run] makes no [EvictPod] call before its first listing. *)
Lemma Run_callsBeforeList : callsBeforeList theTrace = [].
Proof.
  destruct Run_trace_cases as [[msg Ht]|[f Ht]]; rewrite Ht; [reflexivity|].
  apply callsBeforeList_listOrEnd. apply (processNodes_shape h f nodes s).
Qed.

(** C6.  In the taint strategy, an [EvictPod] call that returns an error
    ends the work on its node: the next call [Run] makes, if it makes one,
    is the listing of a node and not an eviction, and a call that failed is
    the last of its node.  The node loop goes on: every node is listed
    unless the set-up or the listing of an earlier node failed, whatever the
    evictions returned; and for every node listed, also after an eviction
    failed on an earlier node, the pods of its listing that do not tolerate
    its taints are passed to [EvictPod] in their order, from the first up to
    and including the first whose eviction fails.  Every [EvictPod] call of
    the run is one of these. *)
Theorem eviction_error_abandons_node :
  (forall t1 pod node reason evicted err t2,
     theTrace = t1 ++ EvEvict pod node reason (evicted, Some err) :: t2 ->
     listOrEnd (nextCall t2))
  /\ (setUpFailed theTrace = false -> noListErrors theTrace = true ->
      (listings theTrace).*1 = node_Name <$> nodes)
  /\ (setUpFailed theTrace = false ->
      forall i node, nodes !! i = Some node ->
      (forall j name err, (j < i)%nat -> listings theTrace !! j <> Some (name, Err err)) ->
      exists res, listings theTrace !! i = Some (node_Name node, res))
  /\ (forall i name pods calls,
      byNode theTrace !! i = Some (name, Ok pods, calls) ->
      exists node, nodes !! i = Some node /\ name = node_Name node
        /\ evictedUntilFailure node (List.filter (violates node) pods) calls
        /\ forall calls1 call calls2,
             calls = calls1 ++ call :: calls2 -> failed call = true -> calls2 = [])
  /\ evictCalls theTrace = (fun c : Eviction => c.1) <$> concat (byNode theTrace).*2.
Proof.
  split; [|split; [|split; [|split]]].
  - destruct Run_trace_cases as [[msg Ht]|[f Ht]]; rewrite Ht.
    + intros [|? [|? ?]] ? ? ? ? ? ? Heq; discriminate.
    + intros t1 pod node reason evicted err t2 Heq.
      pose proof (processNodes_shape h f nodes s) as (Hshape & _ & _).
      eapply stopsAfterFailedEvict_split; [exact Hshape|exact Heq|reflexivity].
  - destruct Run_trace_cases as [[msg Ht]|[f Ht]]; rewrite Ht; [discriminate|].
    intros _. apply (processNodes_listings h).
  - intros Hset i node. apply Run_listed. exact Hset.
  - intros i name pods calls Hi.
    destruct (Run_byNode i name (Ok pods) calls Hi) as (node & Hn & Hname & Hev).
    exists node. split; [exact Hn|]. split; [exact Hname|]. split; [exact Hev|].
    apply (evictedUntilFailure_last _ _ _ Hev).
  - rewrite evictCalls_byNode, Run_callsBeforeList. reflexivity.
Qed.

(** A listing that fails is the last thing [Run] does. *)
Lemma Run_ends_at_failed_listing t1 nodeName err t2 :
  theTrace = t1 ++ EvList nodeName (Err err) :: t2 -> t2 = [].
Proof.
  destruct Run_trace_cases as [[msg Ht]|[f Ht]]; rewrite Ht.
  - destruct t1 as [|? [|? ?]]; discriminate.
  - intros Heq. pose proof (processNodes_shape h f nodes s) as (_ & _ & Hshape).
    eapply endsAtFailedList_split; [exact Hshape|exact Heq|reflexivity].
Qed.

(** C3, amended.  Every [EvictPod] call of the taint strategy has the
    reason "NodeTaint" and is for a ready node and a pod of that node's
    filtered listing whose tolerations do not tolerate every [NoSchedule]
    taint of the node.  Conversely, node by node: every node is listed
    unless the set-up or the listing of an earlier node failed, and the
    [EvictPod] calls made for a listed node are exactly the pods of its
    listing that do not tolerate its taints, in their order, from the first
    up to and including the first whose eviction returns an error.  So on
    every listed node for which no eviction returns an error, whatever
    happened on the other nodes, a pod of the listing is passed to
    [EvictPod] exactly if it does not tolerate the taints.  A pod that has,
    for every [NoSchedule] taint of the node, an [Exists] toleration on the
    taint's key is never evicted. *)
Theorem taint_eviction_iff_violation :
  (forall pod node reason, (pod, node, reason) ∈ evictCalls theTrace ->
     reason = "NodeTaint" /\ node ∈ nodes
     /\ TolerationsTolerateTaintsWithFilter
          (pod_Tolerations pod) (node_Taints node) isNoSchedule = false
     /\ exists pods, (node_Name node, Ok pods) ∈ listings theTrace /\ pod ∈ pods)
  /\ (setUpFailed theTrace = false ->
      forall i node, nodes !! i = Some node ->
      (forall j name err, (j < i)%nat -> listings theTrace !! j <> Some (name, Err err)) ->
      exists res, listings theTrace !! i = Some (node_Name node, res))
  /\ (forall i name res calls,
      byNode theTrace !! i = Some (name, res, calls) ->
      exists node, nodes !! i = Some node /\ name = node_Name node
        /\ match res with
           | Ok pods => evictedUntilFailure node (List.filter (violates node) pods) calls
           | Err _ => calls = []
           end)
  /\ (forall i node pods calls,
      nodes !! i = Some node ->
      byNode theTrace !! i = Some (node_Name node, Ok pods, calls) ->
      forallb (fun call => negb (failed call)) calls = true ->
      forall pod, pod ∈ pods ->
        ((exists res, (pod, node, "NodeTaint", res) ∈ calls)
         <-> TolerationsTolerateTaintsWithFilter
               (pod_Tolerations pod) (node_Taints node) isNoSchedule = false))
  /\ (forall pod node reason,
        (forall taint, taint ∈ node_Taints node ->
           taint_Effect taint = TaintEffectNoSchedule ->
           exists tol, tol ∈ pod_Tolerations pod
             /\ tol_Operator tol = TolerationOpExists
             /\ tol_Key tol = taint_Key taint
             /\ (tol_Effect tol = None \/ tol_Effect tol = Some TaintEffectNoSchedule)) ->
        (pod, node, reason) ∉ evictCalls theTrace).
Proof.
  assert (Hsound : forall pod node reason, (pod, node, reason) ∈ evictCalls theTrace ->
     reason = "NodeTaint" /\ node ∈ nodes /\ violates node pod = true
     /\ exists pods, (node_Name node, Ok pods) ∈ listings theTrace /\ pod ∈ pods).
  { destruct Run_trace_cases as [[msg Ht]|[f Ht]]; rewrite Ht.
    - intros pod node reason Hin. inversion Hin.
    - intros pod node reason Hin.
      destruct (processNodes_sound h _ _ _ _ Hin) as (p & n & ps & Heq & Hn & Hv & Hl & Hp).
      inversion Heq; subst. eauto 10. }
  split; [|split; [|split; [|split]]].
  - intros pod node reason Hin. destruct (Hsound _ _ _ Hin) as (? & ? & Hv & ?).
    repeat split; try assumption. apply negb_true_iff. exact Hv.
  - intros Hset i node. apply Run_listed. exact Hset.
  - apply Run_byNode.
  - intros i node pods calls Hi Hseg Hok pod Hpod.
    destruct (Run_byNode i _ _ _ Hseg) as (node' & Hi' & _ & Hev).
    rewrite Hi in Hi'. inversion Hi'; subst node'.
    rewrite (evictedUntilFailure_all _ _ _ Hev Hok pod).
    rewrite list_elem_of_In, filter_In, <- list_elem_of_In. unfold violates.
    rewrite negb_true_iff. tauto.
  - intros pod node reason Hcov Hin. destruct (Hsound _ _ _ Hin) as (_ & _ & Hv & _).
    rewrite covered_not_violates in Hv; [discriminate|].
    intros taint Ht Heff. destruct (Hcov taint Ht Heff) as (tol & Hin' & Hop & Hkey & He).
    exists tol. split; [assumption|]. apply exists_toleration_covers; try assumption.
    rewrite Heff. exact He.
Qed.
End RunFacts.

(** ** The loop over the strategies and the tick *)

(** Inside the sections below the names of the loop stand for the functions
    applied to the section's server options and policy; these tactics unfold
    the functions themselves. *)
Ltac unfold_tick := unfold tick.
Ltac unfold_endsInDryRunSetup := unfold endsInDryRunSetup.
Ltac unfold_RunDeschedulerStrategies := unfold RunDeschedulerStrategies.

Lemma strategyEvents_app a b : strategyEvents (a ++ b) = strategyEvents a ++ strategyEvents b.
Proof. apply List.filter_app. Qed.

Lemma strategyEvents_log sev msg t : strategyEvents (EvLog sev msg :: t) = strategyEvents t.
Proof. reflexivity. Qed.

Lemma strategyEvents_interp {S A} (h : Handler S) (m : Prog A) (s : S) :
  strategyEvents (interp h m s).2 = [].
Proof.
  revert s. induction m as [a | sev msg k IH | n flt k IH | p n reason k IH]; intros s; simpl.
  - reflexivity.
  - specialize (IH s). destruct (interp h k s) as [[a s1] t]. exact IH.
  - specialize (IH (h_list h n flt s) s).
    destruct (interp h (k (h_list h n flt s)) s) as [[a s1] t]. exact IH.
  - destruct (h_evict h p n reason s) as [r s0]. specialize (IH r s0).
    destruct (interp h (k r) s0) as [[a s1] t]. exact IH.
Qed.

Lemma NonSlidingUntil_app f pre rest ls ls1 reports :
  NonSlidingUntil f pre ls = (LoopWaiting, ls1, reports) ->
  NonSlidingUntil f (pre ++ rest) ls =
  let '(outcome, ls2, reports2) := NonSlidingUntil f rest ls1 in
  (outcome, ls2, reports ++ reports2).
Proof.
  revert ls reports. induction pre as [|e pre IH]; intros ls reports; simpl.
  - destruct (stopChannelClosed ls) eqn:Hc; [discriminate|].
    intros Heq. inversion Heq; subst.
    destruct rest as [|e rest]; simpl; rewrite Hc; [reflexivity|].
    destruct (e_cancelled e); [reflexivity|].
    destruct (f e ls1) as [ls' report].
    destruct (NonSlidingUntil f rest ls') as [[o l] r]. reflexivity.
  - destruct (stopChannelClosed ls) eqn:Hc; [discriminate|].
    destruct (e_cancelled e); [discriminate|].
    destruct (f e ls) as [ls' report] eqn:Hf.
    destruct (NonSlidingUntil f pre ls') as [[o l] r] eqn:Hn.
    intros Heq. inversion Heq; subst. rewrite (IH _ _ Hn).
    destruct (NonSlidingUntil f rest ls1) as [[o2 l2] r2]. reflexivity.
Qed.

Lemma NonSlidingUntil_closed f envs ls :
  stopChannelClosed ls = true -> NonSlidingUntil f envs ls = (LoopReturned, ls, []).
Proof. intros Hc. destruct envs; simpl; rewrite Hc; reflexivity. Qed.

Section LoopFacts.
Context `{Packages} `{StrategyPackages}.
Context (rs : DeschedulerServer) (deschedulerPolicy : DeschedulerPolicy)
        (evictionPolicyGroupVersion : string).

Abbreviation tick := (tick rs deschedulerPolicy evictionPolicyGroupVersion).
Abbreviation RunDeschedulerStrategies :=
  (RunDeschedulerStrategies rs deschedulerPolicy evictionPolicyGroupVersion).
Abbreviation nodeSelector := (nodeSelector deschedulerPolicy).

Lemma runStrategies_events e fn strategyList nodes w :
  strategyEvents (runStrategies e fn strategyList nodes w).2 = strategyEvent <$> strategyList.
Proof.
  revert w. induction strategyList as [|strategy rest IH]; intros w; simpl.
  - reflexivity.
  - unfold strategyEvent at 1. destruct (Enabled strategy).
    + pose proof (strategyEvents_interp (tickHandler e fn)
                    (Run strategy nodes (pe_config (evictor w))) w) as Hi.
      destruct (interp _ _ w) as [[[] w1] t1]. specialize (IH w1).
      destruct (runStrategies e fn rest nodes w1) as [w2 t2]. simpl in *.
      rewrite strategyEvents_app, Hi, IH. reflexivity.
    + specialize (IH w). destruct (runStrategies e fn rest nodes w) as [w2 t2]. simpl in *.
      rewrite IH. reflexivity.
Qed.

Lemma dryRunSetup_log e ls ls' c log :
  dryRunSetup rs e ls = inr (ls', c, log) ->
  strategyEvents log = [] /\ stopChannelClosed ls' = stopChannelClosed ls.
Proof.
  unfold dryRunSetup. destruct (DryRun rs).
  - destruct (cachedClient _ _ _ _); [|discriminate].
    destruct (e_fakeIndexErr e); [discriminate|].
    intros Heq. inversion Heq; subst. auto.
  - intros Heq. inversion Heq; subst. auto.
Qed.

(** A tick that reaches the loop over the strategies goes through the
    whole list, whatever the strategies do, and closes the stop channel
    only for a zero interval. *)
Lemma tick_reaches_every_strategy strategyList e ls :
  unsafeClusterSize (e_readyNodes e nodeSelector) = false ->
  endsInDryRunSetup rs deschedulerPolicy e ls = false ->
  strategyEvents (t_trace (tick strategyList e ls).2) = strategyEvent <$> strategyList
  /\ stopChannelClosed (tick strategyList e ls).1
     = stopChannelClosed ls || (DeschedulingInterval rs =? 0)%Z.
Proof.
  unfold endsInDryRunSetup, tick. intros Hsafe. rewrite Hsafe. simpl.
  destruct (e_readyNodes e nodeSelector) as [nodes|err]; [|discriminate].
  simpl in Hsafe. rewrite Hsafe.
  destruct (dryRunSetup rs e ls) as [[ls' log]|[[ls' c] log]] eqn:Hd; [discriminate|].
  intros _. apply dryRunSetup_log in Hd as [Hlog Hc].
  pose proof (runStrategies_events e (getPodsAssignedToNode ls') strategyList nodes
    (mkWorld (e_pods e) (indexedFakeClient ls')
       (NewPodEvictor
          (mkEvictorConfig c evictionPolicyGroupVersion (DryRun rs)
             (MaxNoOfPodsToEvictPerNode deschedulerPolicy)
             (MaxNoOfPodsToEvictPerNamespace deschedulerPolicy) nodes
             (evictLocalStoragePods deschedulerPolicy)
             (evictSystemCriticalPods deschedulerPolicy)
             (ignorePvcPods deschedulerPolicy) (evictBarePods deschedulerPolicy)
             (negb (DisableMetrics rs)))))) as Hr.
  destruct (runStrategies _ _ _ _ _) as [w t]. simpl in *.
  rewrite strategyEvents_app, Hlog, strategyEvents_log, strategyEvents_app, Hr. simpl.
  rewrite app_nil_r. split; [reflexivity|].
  destruct (DeschedulingInterval rs =? 0)%Z; simpl; [rewrite orb_true_r|rewrite orb_false_r];
    congruence.
Qed.

(** A tick that finds the ready nodes unlistable or at most one closes the
    stop channel and does nothing else. *)
Lemma tick_unsafe strategyList e ls :
  unsafeClusterSize (e_readyNodes e nodeSelector) = true ->
  exists msg, tick strategyList e ls
              = (closeStopChannel ls, mkTickReport [EvLog Info msg] (e_pods e)).
Proof.
  unfold tick. destruct (e_readyNodes e nodeSelector) as [nodes|err]; simpl.
  - intros ->. eauto.
  - eauto.
Qed.
End LoopFacts.

Lemma NonSlidingUntil_waiting f envs ls ls1 reports :
  NonSlidingUntil f envs ls = (LoopWaiting, ls1, reports) -> stopChannelClosed ls1 = false.
Proof.
  revert ls reports. induction envs as [|e envs IH]; intros ls reports; simpl.
  - destruct (stopChannelClosed ls) eqn:Hc; [discriminate|]. intros Heq. inversion Heq; subst.
    exact Hc.
  - destruct (stopChannelClosed ls) eqn:Hc; [discriminate|].
    destruct (e_cancelled e); [discriminate|].
    destruct (f e ls) as [ls' report].
    destruct (NonSlidingUntil f envs ls') as [[o l] r] eqn:Hn.
    intros Heq. inversion Heq; subst. eapply IH. exact Hn.
Qed.

Section InitFacts.
Context `{Packages} `{StrategyPackages}.

(** The list of strategies is built only from a map with an entry for the
    taint strategy, which becomes its sixth element. *)
Lemma initializeStratagies_taint_entry strategyList stats :
  initializeStratagies strategyList = Ok stats ->
  exists cfg, strategyList !! RemovePodsViolatingNodeTaints = Some cfg
    /\ stats !! 5%nat = Some (NodeTaint.asStrategy (NodeTaint.mkTaintStrategy cfg None))
    /\ length stats = 10%nat.
Proof.
  unfold initializeStratagies, mbind, Result_mbind, mret, Result_ret.
  destruct (NewRemoveDuplicatesStrategy strategyList); [|discriminate].
  destruct (NewLowNodeUtilizationStrategy strategyList); [|discriminate].
  destruct (NewHighNodeUtilizationStrategy strategyList); [|discriminate].
  destruct (NewRemovePodsViolatingInterPodAntiAffinityStrategy strategyList); [|discriminate].
  destruct (NewRemovePodsViolatingNodeAffinityStrategy strategyList); [|discriminate].
  unfold NodeTaint.NewRemovePodsViolatingNodeTaintsStrategy, NodeTaint.Name. simpl.
  destruct (strategyList !! RemovePodsViolatingNodeTaints) as [cfg|]; [|discriminate].
  destruct (NewRemovePodsHavingTooManyRestartsStrategy strategyList); [|discriminate].
  destruct (NewPodLifeTimeStrategy strategyList); [|discriminate].
  destruct (NewRemovePodsViolatingTopologySpreadConstraintStrategy strategyList); [|discriminate].
  destruct (NewRemoveFailedPodsStrategy strategyList); [|discriminate].
  intros Heq. inversion Heq; subst. exists cfg. auto.
Qed.
End InitFacts.

Section LoopTheorems.
Context `{Packages} `{StrategyPackages}.
Context (rs : DeschedulerServer) (deschedulerPolicy : DeschedulerPolicy)
        (evictionPolicyGroupVersion : string).

Abbreviation tick := (tick rs deschedulerPolicy evictionPolicyGroupVersion).
Abbreviation RunDeschedulerStrategies :=
  (RunDeschedulerStrategies rs deschedulerPolicy evictionPolicyGroupVersion).
Abbreviation nodeSelector := (nodeSelector deschedulerPolicy).
Abbreviation endsInDryRunSetup := (endsInDryRunSetup rs deschedulerPolicy).

Lemma tick_stop_flag strategyList e ls :
  unsafeClusterSize (e_readyNodes e nodeSelector) = false ->
  stopChannelClosed (tick strategyList e ls).1
  = stopChannelClosed ls || (negb (endsInDryRunSetup e ls) && (DeschedulingInterval rs =? 0)%Z).
Proof.
  intros Hsafe. destruct (endsInDryRunSetup e ls) eqn:Hd.
  - simpl. rewrite orb_false_r. revert Hd. unfold_endsInDryRunSetup; unfold_tick.
    rewrite Hsafe. destruct (e_readyNodes e nodeSelector) as [nodes|err]; [|discriminate].
    simpl in Hsafe. rewrite Hsafe. simpl. unfold dryRunSetup. destruct (DryRun rs); [|discriminate].
    destruct (cachedClient _ _ _ _); [|reflexivity].
    destruct (e_fakeIndexErr e); [reflexivity|discriminate].
  - simpl. apply tick_reaches_every_strategy; assumption.
Qed.

(** C2.  A tick in which the listing of the ready nodes fails or yields
    at most one node makes no [EvictPod] call and runs no strategy, leaves
    the pods of the cluster as they were, and is the last tick:
    [RunDeschedulerStrategies] returns nil, whatever the environment would
    answer afterwards. *)
Theorem unsafe_cluster_size_stops_schedule pre e post reports :
  RunDeschedulerStrategies None pre = (Running, reports) ->
  e_cancelled e = false ->
  unsafeClusterSize (e_readyNodes e nodeSelector) = true ->
  exists report,
    RunDeschedulerStrategies None (pre ++ e :: post) = (Returned None, reports ++ [report])
    /\ evictCalls (t_trace report) = []
    /\ strategyEvents (t_trace report) = []
    /\ t_podsAfter report = e_pods e.
Proof.
  unfold_RunDeschedulerStrategies.
  destruct (initializeStratagies (Strategies deschedulerPolicy)) as [strategyList|err];
    [|discriminate].
  destruct (NonSlidingUntil (tick strategyList) pre _) as [[o ls1] r] eqn:Hpre.
  intros Heq Hc Hu. destruct o; [discriminate|]. inversion Heq; subst r.
  rewrite (NonSlidingUntil_app _ _ _ _ _ _ Hpre). simpl.
  rewrite (NonSlidingUntil_waiting _ _ _ _ _ Hpre), Hc.
  destruct (tick_unsafe rs deschedulerPolicy evictionPolicyGroupVersion strategyList e ls1 Hu)
    as [msg ->].
  rewrite NonSlidingUntil_closed; [|reflexivity]. eexists. split; [reflexivity|]. auto.
Qed.

(** C9, amended.  With a zero interval the loop makes exactly one tick and
    returns, provided the tick does not return out of the dry-run set-up.
    With a non-zero interval a tick that finds more than one ready node
    leaves the stop channel open: the next tick follows unless the run is
    cancelled, in which case the loop returns. *)
Theorem interval_decides_next_tick strategyList e rest ls :
  stopChannelClosed ls = false ->
  e_cancelled e = false ->
  (DeschedulingInterval rs = 0%Z -> endsInDryRunSetup e ls = false ->
   NonSlidingUntil (tick strategyList) (e :: rest) ls
   = (LoopReturned, (tick strategyList e ls).1, [(tick strategyList e ls).2]))
  /\ (DeschedulingInterval rs <> 0%Z ->
      unsafeClusterSize (e_readyNodes e nodeSelector) = false ->
      stopChannelClosed (tick strategyList e ls).1 = false
      /\ forall e2 rest', rest = e2 :: rest' ->
         (e_cancelled e2 = false ->
          (2 <= length (NonSlidingUntil (tick strategyList) (e :: rest) ls).2)%nat)
         /\ (e_cancelled e2 = true ->
             NonSlidingUntil (tick strategyList) (e :: rest) ls
             = (LoopReturned, closeStopChannel (tick strategyList e ls).1,
                [(tick strategyList e ls).2]))).
Proof.
  intros Hopen Hc. split.
  - intros Hzero Hd. simpl. rewrite Hopen, Hc.
    assert (stopChannelClosed (tick strategyList e ls).1 = true) as Hclosed.
    { destruct (unsafeClusterSize (e_readyNodes e nodeSelector)) eqn:Hu.
      - destruct (tick_unsafe rs deschedulerPolicy evictionPolicyGroupVersion
                    strategyList e ls Hu) as [msg ->]. reflexivity.
      - rewrite tick_stop_flag, Hd, Hzero by assumption. apply orb_true_r. }
    destruct (tick strategyList e ls) as [ls' report]. simpl in *.
    rewrite NonSlidingUntil_closed by assumption. reflexivity.
  - intros Hnz Hsafe.
    assert (stopChannelClosed (tick strategyList e ls).1 = false) as Hstill.
    { rewrite tick_stop_flag, Hopen by assumption.
      destruct (DeschedulingInterval rs =? 0)%Z eqn:Hz; [apply Z.eqb_eq in Hz; contradiction|].
      rewrite andb_false_r. reflexivity. }
    split; [assumption|]. intros e2 rest' ->. simpl. rewrite Hopen, Hc.
    destruct (tick strategyList e ls) as [ls' report]. simpl in *. rewrite Hstill. split.
    + intros ->. destruct (tick strategyList e2 ls') as [ls2 report2].
      destruct (NonSlidingUntil (tick strategyList) rest' ls2) as [[o l] r]. simpl. lia.
    + intros ->. reflexivity.
Qed.

(** C1, amended.  When [initializeStratagies] builds the list, the policy
    has an entry for the taint strategy, which is the sixth strategy of
    the list, enabled as the entry says; [RunDeschedulerStrategies] does
    not return an error; and every tick that reaches the loop over the
    list logs and skips each strategy that is not enabled and runs each
    enabled one, in the order of the list. *)
Theorem disabled_strategies_skipped_when_initialised strategyList :
  initializeStratagies (Strategies deschedulerPolicy) = Ok strategyList ->
  (exists cfg, Strategies deschedulerPolicy !! RemovePodsViolatingNodeTaints = Some cfg
     /\ strategyList !! 5%nat
        = Some (NodeTaint.asStrategy (NodeTaint.mkTaintStrategy cfg None)))
  /\ (forall envs err, (RunDeschedulerStrategies None envs).1 <> Returned (Some err))
  /\ (forall e ls,
        unsafeClusterSize (e_readyNodes e nodeSelector) = false ->
        endsInDryRunSetup e ls = false ->
        strategyEvents (t_trace (tick strategyList e ls).2) = strategyEvent <$> strategyList).
Proof.
  intros Hinit. split; [|split].
  - destruct (initializeStratagies_taint_entry _ _ Hinit) as (cfg & ? & ? & ?). eauto.
  - intros envs err. unfold_RunDeschedulerStrategies. rewrite Hinit.
    destruct (NonSlidingUntil _ _ _) as [[[] ?] ?]; discriminate.
  - intros e ls Hsafe Hd. apply tick_reaches_every_strategy; assumption.
Qed.

(** C4, amended.  A listing of a node's pods that fails is the last call
    of the taint strategy's [Run]: no further node, no further eviction by
    this strategy.  The tick goes on: every strategy of the list is still
    run or skipped, and the stop channel is closed only for a zero
    interval. *)
Theorem listing_failure_ends_strategy_only :
  (forall S (h : Handler S) client strategy nodes podEvictor s t1 nodeName err t2,
     traceOf h (NodeTaint.Run client strategy nodes podEvictor) s
     = t1 ++ EvList nodeName (Err err) :: t2 -> t2 = [])
  /\ (forall strategyList e ls,
        unsafeClusterSize (e_readyNodes e nodeSelector) = false ->
        endsInDryRunSetup e ls = false ->
        noListErrors (t_trace (tick strategyList e ls).2) = false ->
        strategyEvents (t_trace (tick strategyList e ls).2) = strategyEvent <$> strategyList
        /\ stopChannelClosed (tick strategyList e ls).1
           = stopChannelClosed ls || (DeschedulingInterval rs =? 0)%Z).
Proof.
  split.
  - intros. eapply Run_ends_at_failed_listing. eassumption.
  - intros strategyList e ls Hsafe Hd _. apply tick_reaches_every_strategy; assumption.
Qed.
End LoopTheorems.

(** ** Ticks do not depend on earlier ticks *)

Section LiveFacts.
Context (e : TickEnv).

Lemma EvictPod_live pod node reason w1 w2 :
  sameReal w1 w2 -> pe_client (pe_config (evictor w1)) = RealClient ->
  (podEvictor_EvictPod e pod node reason w1).1 = (podEvictor_EvictPod e pod node reason w2).1
  /\ sameReal (podEvictor_EvictPod e pod node reason w1).2
              (podEvictor_EvictPod e pod node reason w2).2
  /\ pe_client (pe_config (evictor (podEvictor_EvictPod e pod node reason w1).2)) = RealClient.
Proof.
  intros [Hp He] Hc. unfold podEvictor_EvictPod. rewrite <- He.
  destruct (atCap _ _); [repeat split; assumption|].
  destruct (atCap _ _); [repeat split; assumption|].
  rewrite Hc. simpl. rewrite <- Hp.
  destruct (e_apiEvict e (realPods w1) pod); simpl; repeat split; try assumption.
  rewrite He. reflexivity.
Qed.

Lemma interp_live {A} (m : Prog A) w1 w2 :
  sameReal w1 w2 -> pe_client (pe_config (evictor w1)) = RealClient ->
  (interp (tickHandler e LiveIndex) m w1).1.1 = (interp (tickHandler e LiveIndex) m w2).1.1
  /\ (interp (tickHandler e LiveIndex) m w1).2 = (interp (tickHandler e LiveIndex) m w2).2
  /\ sameReal (interp (tickHandler e LiveIndex) m w1).1.2
              (interp (tickHandler e LiveIndex) m w2).1.2
  /\ pe_client (pe_config (evictor (interp (tickHandler e LiveIndex) m w1).1.2)) = RealClient.
Proof.
  revert w1 w2.
  induction m as [a | sev msg k IH | n flt k IH | p n reason k IH]; intros w1 w2 Hs Hc;
    cbn [interp].
  - auto.
  - destruct (IH w1 w2 Hs Hc) as (Ha & Ht & Hs' & Hc').
    destruct (interp _ k w1) as [[a1 w1'] t1]. destruct (interp _ k w2) as [[a2 w2'] t2].
    simpl in *. subst. auto.
  - assert (h_list (tickHandler e LiveIndex) n flt w1 = h_list (tickHandler e LiveIndex) n flt w2)
      as Hl by (simpl; unfold podsAssignedToNode; destruct Hs as [-> _]; reflexivity).
    rewrite <- Hl.
    destruct (IH (h_list (tickHandler e LiveIndex) n flt w1) w1 w2 Hs Hc)
      as (Ha & Ht & Hs' & Hc').
    destruct (interp _ (k _) w1) as [[a1 w1'] t1]. destruct (interp _ (k _) w2) as [[a2 w2'] t2].
    simpl in *. subst. auto.
  - destruct (EvictPod_live p n reason w1 w2 Hs Hc) as (Hr & Hs1 & Hc1).
    change (h_evict (tickHandler e LiveIndex)) with (podEvictor_EvictPod e).
    destruct (podEvictor_EvictPod e p n reason w1) as [r1 u1].
    destruct (podEvictor_EvictPod e p n reason w2) as [r2 u2]. simpl in *. subst r2.
    destruct (IH r1 u1 u2 Hs1 Hc1) as (Ha & Ht & Hs' & Hc').
    destruct (interp _ (k r1) u1) as [[a1 w1'] t1]. destruct (interp _ (k r1) u2) as [[a2 w2'] t2].
    simpl in *. subst. auto.
Qed.
End LiveFacts.

Section TickIndependence.
Context `{Packages} `{StrategyPackages}.
Context (rs : DeschedulerServer) (deschedulerPolicy : DeschedulerPolicy)
        (evictionPolicyGroupVersion : string).

Abbreviation tick := (tick rs deschedulerPolicy evictionPolicyGroupVersion).
Abbreviation RunDeschedulerStrategies :=
  (RunDeschedulerStrategies rs deschedulerPolicy evictionPolicyGroupVersion).

Lemma runStrategies_live e strategyList nodes w1 w2 :
  sameReal w1 w2 -> pe_client (pe_config (evictor w1)) = RealClient ->
  (runStrategies e LiveIndex strategyList nodes w1).2
  = (runStrategies e LiveIndex strategyList nodes w2).2
  /\ sameReal (runStrategies e LiveIndex strategyList nodes w1).1
              (runStrategies e LiveIndex strategyList nodes w2).1.
Proof.
  revert w1 w2. induction strategyList as [|strategy rest IH]; intros w1 w2 Hs Hc; simpl.
  - auto.
  - destruct (Enabled strategy).
    + assert (pe_config (evictor w1) = pe_config (evictor w2)) as Hcfg
        by (destruct Hs as [_ ->]; reflexivity).
      rewrite <- Hcfg.
      destruct (interp_live e (Run strategy nodes (pe_config (evictor w1))) w1 w2 Hs Hc)
        as (_ & Ht & Hs' & Hc').
      destruct (interp _ _ w1) as [[[] u1] t1]. destruct (interp _ _ w2) as [[[] u2] t2].
      simpl in *. subst t2. destruct (IH u1 u2 Hs' Hc') as [Ht' Hs''].
      destruct (runStrategies e LiveIndex rest nodes u1) as [v1 s1].
      destruct (runStrategies e LiveIndex rest nodes u2) as [v2 s2].
      simpl in *. subst. auto.
    + destruct (IH w1 w2 Hs Hc) as [Ht' Hs''].
      destruct (runStrategies e LiveIndex rest nodes w1) as [v1 s1].
      destruct (runStrategies e LiveIndex rest nodes w2) as [v2 s2].
      simpl in *. subst. auto.
Qed.

Lemma tick_alike strategyList e ls1 ls2 :
  alike (DryRun rs) ls1 ls2 ->
  (tick strategyList e ls1).2 = (tick strategyList e ls2).2
  /\ alike (DryRun rs) (tick strategyList e ls1).1 (tick strategyList e ls2).1.
Proof.
  intros [Hc Hd]. unfold_tick.
  destruct (e_readyNodes e _) as [nodes|err]; [|split; [reflexivity|split; [reflexivity|exact Hd]]].
  destruct (length nodes <=? 1)%nat; [split; [reflexivity|split; [reflexivity|exact Hd]]|].
  unfold dryRunSetup. destruct (DryRun rs) eqn:Hdry.
  - destruct (cachedClient _ _ _ _) as [fc|err];
      [|split; [reflexivity|split; [exact Hc|left; reflexivity]]].
    destruct (e_fakeIndexErr e);
      [split; [reflexivity|split; [exact Hc|left; reflexivity]]|].
    rewrite Hc. simpl. destruct (runStrategies _ _ _ _ _) as [w t].
    split; [reflexivity|]. destruct (DeschedulingInterval rs =? 0)%Z; split; auto.
  - destruct Hd as [Hd|[Hl1 Hl2]]; [discriminate|]. rewrite Hl1, Hl2.
    match goal with
    | |- context [runStrategies e LiveIndex strategyList nodes (mkWorld ?p (indexedFakeClient ls1) ?pe)] =>
      destruct (runStrategies_live e strategyList nodes
                  (mkWorld p (indexedFakeClient ls1) pe) (mkWorld p (indexedFakeClient ls2) pe))
        as [Ht Hs]; [split; reflexivity|reflexivity|]
    end.
    destruct (runStrategies e LiveIndex strategyList nodes (mkWorld _ (indexedFakeClient ls1) _))
      as [w1 t1].
    destruct (runStrategies e LiveIndex strategyList nodes (mkWorld _ (indexedFakeClient ls2) _))
      as [w2 t2].
    simpl in *. subst t2. destruct Hs as [Hp _]. rewrite Hp. split; [reflexivity|].
    destruct (DeschedulingInterval rs =? 0)%Z; split; simpl; auto.
Qed.

Lemma NonSlidingUntil_fresh strategyList envs ls k report :
  (DryRun rs = true \/ getPodsAssignedToNode ls = LiveIndex) ->
  (NonSlidingUntil (tick strategyList) envs ls).2 !! k = Some report ->
  exists e, envs !! k = Some e /\ report = (tick strategyList e firstLoopState).2.
Proof.
  revert ls k. induction envs as [|e envs IH]; intros ls k Hinv; simpl.
  - destruct (stopChannelClosed ls); destruct k; discriminate.
  - destruct (stopChannelClosed ls) eqn:Hc; [destruct k; discriminate|].
    destruct (e_cancelled e); [destruct k; discriminate|].
    assert (alike (DryRun rs) ls firstLoopState) as Hal.
    { split; [exact Hc|]. destruct Hinv; [left|right]; auto. }
    destruct (tick_alike strategyList e ls firstLoopState Hal) as [Hrep [_ Hinv']].
    destruct (tick strategyList e ls) as [ls' r] eqn:Ht. simpl in *.
    specialize (IH ls'). destruct (NonSlidingUntil (tick strategyList) envs ls') as [[o l] rs'].
    simpl in *. destruct k as [|k]; simpl.
    + intros Heq. inversion Heq; subst report. exists e. split; [reflexivity|exact Hrep].
    + intros Hk. apply IH; [|assumption]. destruct Hinv' as [?|[? _]]; auto.
Qed.

(** C7.  What a tick of a run does is what the first tick of a run would
    do in the same environment: the evictor with its counters and, in a
    dry run, the fake client are built inside the tick, and nothing an
    earlier tick left in the variables of the loop is read. *)
Theorem every_tick_starts_afresh envs k report :
  (RunDeschedulerStrategies None envs).2 !! k = Some report ->
  exists strategyList e,
    initializeStratagies (Strategies deschedulerPolicy) = Ok strategyList
    /\ envs !! k = Some e
    /\ report = (tick strategyList e firstLoopState).2.
Proof.
  unfold_RunDeschedulerStrategies.
  destruct (initializeStratagies (Strategies deschedulerPolicy)) as [strategyList|err];
    [|destruct k; discriminate].
  pose proof (NonSlidingUntil_fresh strategyList envs firstLoopState k report) as Hf.
  destruct (NonSlidingUntil (tick strategyList) envs _) as [[o l] reports]. simpl in *.
  intros Hk. destruct Hf as (e & He & Hr); [right; reflexivity|assumption|].
  exists strategyList, e. auto.
Qed.
End TickIndependence.

(** ** Dry runs *)

Lemma unseenAfterEvict_app t1 t2 :
  unseenAfterEvict t1 -> unseenAfterEvict t2 ->
  (forall pod node reason, EvEvict pod node reason (true, None) ∈ t1 ->
     forall nodeName pods q, EvList nodeName (Ok pods) ∈ t2 -> q ∈ pods -> podKey q <> podKey pod) ->
  unseenAfterEvict (t1 ++ t2).
Proof.
  intros H1 H2 Hx. induction t1 as [|ev t1 IH]; simpl in *; [assumption|].
  destruct H1 as [Hev H1]. split.
  - intros pod node reason -> nodeName pods q Hin Hq.
    apply elem_of_app in Hin as [Hin|Hin].
    + eapply Hev; eauto.
    + eapply Hx; eauto. left.
  - apply IH; [assumption|]. intros pod node reason Hin. eapply Hx. right. exact Hin.
Qed.

Lemma unseenAfterEvict_split t t1 pod node reason t2 nodeName pods t3 q :
  unseenAfterEvict t ->
  t = t1 ++ EvEvict pod node reason (true, None) :: t2 ++ EvList nodeName (Ok pods) :: t3 ->
  q ∈ pods -> podKey q <> podKey pod.
Proof.
  intros Ht ->. induction t1 as [|x t1 IH]; simpl in Ht; destruct Ht as [H1 H2]; [|auto].
  intros Hq. eapply H1; [reflexivity| |exact Hq]. apply elem_of_app. right. left.
Qed.

Lemma dryRunTrace_nil m : dryRunTrace m [] m.
Proof.
  split; [reflexivity|]. split; [|split]; [intros ? ? ? Hin|intros ? ? ? Hin|exact I];
    inversion Hin.
Qed.

Lemma dryRunTrace_app m t1 m1 t2 m2 :
  dryRunTrace m t1 m1 -> dryRunTrace m1 t2 m2 -> dryRunTrace m (t1 ++ t2) m2.
Proof.
  intros (Hs1 & Hl1 & Hg1 & Hu1) (Hs2 & Hl2 & Hg2 & Hu2). split; [|split; [|split]].
  - etrans; eassumption.
  - intros n pods q Hin Hq. apply elem_of_app in Hin as [Hin|Hin]; [eauto|].
    eapply lookup_weaken; [|exact Hs1]. eauto.
  - intros pod node reason Hin. apply elem_of_app in Hin as [Hin|Hin]; [|eauto].
    eapply lookup_weaken_None; [|exact Hs2]. eauto.
  - apply unseenAfterEvict_app; [assumption..|].
    intros pod node reason Hin n pods q Hl Hq Hk.
    specialize (Hg1 _ _ _ Hin). specialize (Hl2 _ _ _ Hl Hq). congruence.
Qed.

Lemma dryRunTrace_neutral m ev :
  isList ev = false -> isEvict ev = false -> dryRunTrace m [ev] m.
Proof.
  intros Hl He. split; [reflexivity|]. split; [|split].
  - intros n pods q Hin. apply list_elem_of_singleton in Hin. subst ev. discriminate.
  - intros pod node reason Hin. apply list_elem_of_singleton in Hin. subst ev. discriminate.
  - simpl. split; [|exact I]. intros pod node reason ->. discriminate.
Qed.

Lemma dryRunTrace_list m nodeName r :
  (forall pods q, r = Ok pods -> q ∈ pods -> m !! podKey q = Some q) ->
  dryRunTrace m [EvList nodeName r] m.
Proof.
  intros Hr. split; [reflexivity|]. split; [|split].
  - intros n pods q Hin. apply list_elem_of_singleton in Hin. inversion Hin; subst. eauto.
  - intros pod node reason Hin. apply list_elem_of_singleton in Hin. discriminate.
  - simpl. split; [|exact I]. intros pod node reason Heq. discriminate.
Qed.

Lemma dryRunTrace_evict m m1 pod node reason r :
  m1 ⊆ m -> (r = (true, None) -> m1 !! podKey pod = None) ->
  dryRunTrace m [EvEvict pod node reason r] m1.
Proof.
  intros Hs Hr. split; [assumption|]. split; [|split].
  - intros n pods q Hin. apply list_elem_of_singleton in Hin. discriminate.
  - intros p n rsn Hin. apply list_elem_of_singleton in Hin. inversion Hin; subst. auto.
  - simpl. split; [|exact I]. intros p n rsn Heq n' pods q Hin. inversion Hin.
Qed.

Lemma wfTracker_subseteq m m' : wfTracker m -> m' ⊆ m -> wfTracker m'.
Proof. intros Hwf Hs k p Hk. apply Hwf. eapply lookup_weaken; eassumption. Qed.

Section DryFacts.
Context (e : TickEnv).

Lemma listing_dry nodeName flt w pods q :
  wfTracker (tracker_pods (fakeClient w)) ->
  podsAssignedToNode e FakeIndex nodeName flt w = Ok pods -> q ∈ pods ->
  tracker_pods (fakeClient w) !! podKey q = Some q.
Proof.
  intros Hwf. unfold podsAssignedToNode. destruct (e_indexErr e nodeName); [discriminate|].
  intros Heq Hq. inversion Heq; subst pods. unfold assignedTo in Hq.
  apply list_elem_of_In, filter_In in Hq as [Hq _]. apply list_elem_of_In in Hq.
  apply list_elem_of_fmap in Hq as ([k p] & -> & Hkp). simpl.
  apply elem_of_map_to_list in Hkp. rewrite (Hwf _ _ Hkp). exact Hkp.
Qed.

Lemma EvictPod_dry pod node reason w :
  dryWorld w ->
  dryWorld (podEvictor_EvictPod e pod node reason w).2
  /\ realPods (podEvictor_EvictPod e pod node reason w).2 = realPods w
  /\ tracker_pods (fakeClient (podEvictor_EvictPod e pod node reason w).2)
     ⊆ tracker_pods (fakeClient w)
  /\ ((podEvictor_EvictPod e pod node reason w).1 = (true, None) ->
      tracker_pods (fakeClient (podEvictor_EvictPod e pod node reason w).2) !! podKey pod = None).
Proof.
  intros [Hc Hwf]. unfold podEvictor_EvictPod.
  destruct (atCap _ _); [repeat split; try assumption; try reflexivity; discriminate|].
  destruct (atCap _ _); [repeat split; try assumption; try reflexivity; discriminate|].
  rewrite Hc. unfold clientEvict, Invokes, evictionReactor.
  fold (podKey pod).
  destruct (tracker_pods (fakeClient w) !! podKey pod) eqn:Hk; simpl.
  - repeat split; try assumption.
    + eapply wfTracker_subseteq; [exact Hwf|apply delete_subseteq].
    + apply delete_subseteq.
    + intros _. apply lookup_delete_eq.
  - repeat split; try assumption; try reflexivity. discriminate.
Qed.

Lemma interp_dry {A} (m : Prog A) w :
  dryWorld w ->
  dryWorld (interp (tickHandler e FakeIndex) m w).1.2
  /\ realPods (interp (tickHandler e FakeIndex) m w).1.2 = realPods w
  /\ dryRunTrace (tracker_pods (fakeClient w)) (interp (tickHandler e FakeIndex) m w).2
       (tracker_pods (fakeClient (interp (tickHandler e FakeIndex) m w).1.2)).
Proof.
  revert w. induction m as [a | sev msg k IH | n flt k IH | p n reason k IH]; intros w Hw;
    cbn [interp].
  - simpl. auto using dryRunTrace_nil.
  - destruct (IH w Hw) as (Hw' & Hp & Ht). destruct (interp _ k w) as [[a w'] t]. simpl in *.
    split; [exact Hw'|]. split; [exact Hp|].
    apply (dryRunTrace_app _ [EvLog sev msg] (tracker_pods (fakeClient w)) t _); [|exact Ht].
    apply dryRunTrace_neutral; reflexivity.
  - destruct (IH (h_list (tickHandler e FakeIndex) n flt w) w Hw) as (Hw' & Hp & Ht).
    destruct (interp _ (k _) w) as [[a w'] t]. simpl in *.
    split; [exact Hw'|]. split; [exact Hp|].
    apply (dryRunTrace_app _ [EvList n _] (tracker_pods (fakeClient w)) t _); [|exact Ht].
    apply dryRunTrace_list. intros pods q Heq Hq. eapply listing_dry; [apply Hw|exact Heq|exact Hq].
  - destruct (EvictPod_dry p n reason w Hw) as (Hw1 & Hp1 & Hs1 & Hg1).
    change (h_evict (tickHandler e FakeIndex)) with (podEvictor_EvictPod e).
    destruct (podEvictor_EvictPod e p n reason w) as [r w1]. simpl in *.
    destruct (IH r w1 Hw1) as (Hw' & Hp & Ht). destruct (interp _ (k r) w1) as [[a w'] t].
    simpl in *. split; [exact Hw'|]. split; [congruence|].
    apply (dryRunTrace_app _ [EvEvict p n reason r] (tracker_pods (fakeClient w1)) t _); [|exact Ht].
    apply dryRunTrace_evict; assumption.
Qed.
End DryFacts.

(** The copy loops of [cachedClient] *)

Lemma copyAll_pods msg items fc fc' :
  copyAll (fun item => Invokes (CreatePod item)) msg items fc = Ok fc' ->
  forall k p, tracker_pods fc' !! k = Some p ->
    tracker_pods fc !! k = Some p \/ (p ∈ items /\ podKey p = k).
Proof.
  revert fc. induction items as [|item rest IH]; intros fc; simpl.
  - intros Heq. inversion Heq; subst. auto.
  - unfold Invokes at 1. simpl.
    destruct (tracker_pods fc !! podKey item) eqn:Hk; [discriminate|].
    intros Hcopy k p Hkp. destruct (IH _ Hcopy k p Hkp) as [Hin|[Hin Hkey]].
    + simpl in Hin. destruct (decide (podKey item = k)) as [<-|Hne].
      * rewrite lookup_insert_eq in Hin. inversion Hin; subst. right. split; [left|reflexivity].
      * rewrite lookup_insert_ne in Hin by assumption. left. exact Hin.
    + right. split; [right|]; assumption.
Qed.

Lemma copyAll_keeps_pods {A} (create : A -> FakeClientset -> option string * FakeClientset)
    msg items fc fc' :
  (forall item fc, tracker_pods (create item fc).2 = tracker_pods fc) ->
  copyAll create msg items fc = Ok fc' -> tracker_pods fc' = tracker_pods fc.
Proof.
  intros Hcreate. revert fc. induction items as [|item rest IH]; intros fc; simpl.
  - intros Heq. inversion Heq; subst. reflexivity.
  - pose proof (Hcreate item fc) as Hc. destruct (create item fc) as [[err|] fc1]; [discriminate|].
    intros Hcopy. rewrite (IH _ Hcopy). exact Hc.
Qed.

(** The tracker of a fake client [cachedClient] returns holds pods of the
    lister's answer only, each under its own key. *)
Lemma cachedClient_pods podLister nodeLister namespaceLister priorityClassLister fc :
  cachedClient podLister nodeLister namespaceLister priorityClassLister = Ok fc ->
  exists pods, podLister = Ok pods
    /\ forall k p, tracker_pods fc !! k = Some p -> p ∈ pods /\ podKey p = k.
Proof.
  unfold cachedClient, mbind, Result_mbind, mret, Result_ret.
  destruct podLister as [pods|err]; [|discriminate]. simpl.
  destruct (copyAll _ _ pods _) as [fc1|] eqn:H1; [|discriminate].
  destruct (listOr _ nodeLister) as [nodes|]; [|discriminate].
  destruct (copyAll createNode _ nodes fc1) as [fc2|] eqn:H2; [|discriminate].
  destruct (listOr _ namespaceLister) as [namespaces|]; [|discriminate].
  destruct (copyAll createNamespace _ namespaces fc2) as [fc3|] eqn:H3; [|discriminate].
  destruct (listOr _ priorityClassLister) as [priorityClasses|]; [|discriminate].
  destruct (copyAll createPriorityClass _ priorityClasses fc3) as [fc4|] eqn:H4; [|discriminate].
  intros Heq. inversion Heq; subst fc4. exists pods. split; [reflexivity|].
  apply copyAll_keeps_pods in H4;
    [|intros item c; unfold createPriorityClass; case_bool_decide; reflexivity].
  apply copyAll_keeps_pods in H3;
    [|intros item c; unfold createNamespace; case_bool_decide; reflexivity].
  apply copyAll_keeps_pods in H2;
    [|intros item c; unfold createNode; destruct (tracker_nodes c !! _); reflexivity].
  rewrite H4, H3, H2. intros k p Hkp.
  destruct (copyAll_pods _ _ _ _ H1 k p Hkp) as [Hin|?]; [|assumption].
  simpl in Hin. rewrite lookup_empty in Hin. discriminate.
Qed.

Section DryTick.
Context `{Packages} `{StrategyPackages}.
Context (rs : DeschedulerServer) (deschedulerPolicy : DeschedulerPolicy)
        (evictionPolicyGroupVersion : string).

Abbreviation tick := (tick rs deschedulerPolicy evictionPolicyGroupVersion).

Lemma runStrategies_dry e strategyList nodes w :
  dryWorld w ->
  realPods (runStrategies e FakeIndex strategyList nodes w).1 = realPods w
  /\ dryRunTrace (tracker_pods (fakeClient w)) (runStrategies e FakeIndex strategyList nodes w).2
       (tracker_pods (fakeClient (runStrategies e FakeIndex strategyList nodes w).1)).
Proof.
  revert w. induction strategyList as [|strategy rest IH]; intros w Hw; simpl.
  - auto using dryRunTrace_nil.
  - destruct (Enabled strategy).
    + destruct (interp_dry e (Run strategy nodes (pe_config (evictor w))) w Hw)
        as (Hw1 & Hp1 & Ht1).
      destruct (interp _ _ w) as [[[] w1] t1]. simpl in *.
      destruct (IH w1 Hw1) as [Hp2 Ht2].
      destruct (runStrategies e FakeIndex rest nodes w1) as [w2 t2]. simpl in *.
      split; [congruence|].
      apply (dryRunTrace_app _ [EvRun (Name strategy)] (tracker_pods (fakeClient w)) _ _);
        [apply dryRunTrace_neutral; reflexivity|].
      eapply dryRunTrace_app; eassumption.
    + destruct (IH w Hw) as [Hp2 Ht2].
      destruct (runStrategies e FakeIndex rest nodes w) as [w2 t2]. simpl in *.
      split; [assumption|].
      apply (dryRunTrace_app _ [EvSkip (Name strategy)] (tracker_pods (fakeClient w)) _ _);
        [apply dryRunTrace_neutral; reflexivity|assumption].
Qed.

Lemma dryRunTrace_logs m log :
  forallb (fun ev => match ev with EvLog _ _ => true | _ => false end) log = true ->
  dryRunTrace m log m.
Proof.
  induction log as [|ev log IH]; simpl; [intros _; apply dryRunTrace_nil|].
  intros Hl. apply andb_prop in Hl as [Hev Hl].
  apply (dryRunTrace_app _ [ev] m log _); [|auto].
  destruct ev; try discriminate. apply dryRunTrace_neutral; reflexivity.
Qed.

(** A tick of a dry run leaves the real pods alone, and its trace is one
    of evictions that delete from the tick's fake client and listings
    that read it; the fake client holds pods of the cluster only. *)
Lemma tick_dry strategyList e ls :
  DryRun rs = true ->
  t_podsAfter (tick strategyList e ls).2 = e_pods e
  /\ exists m,
       (forall k p, m !! k = Some p -> p ∈ e_pods e)
       /\ dryRunTrace m (t_trace (tick strategyList e ls).2)
            (if existsb isEvict (t_trace (tick strategyList e ls).2)
             then tracker_pods (indexedFakeClient (tick strategyList e ls).1)
             else m).
Proof.
  intros Hdry. unfold_tick.
  destruct (e_readyNodes e _) as [nodes|err];
    [|split; [reflexivity|exists ∅; split; [intros ? ? Hk; rewrite lookup_empty in Hk; discriminate
                                           |apply dryRunTrace_logs; reflexivity]]].
  destruct (length nodes <=? 1)%nat;
    [split; [reflexivity|exists ∅; split; [intros ? ? Hk; rewrite lookup_empty in Hk; discriminate
                                          |apply dryRunTrace_logs; reflexivity]]|].
  unfold dryRunSetup. rewrite Hdry.
  destruct (cachedClient _ _ _ _) as [fc|err] eqn:Hcc;
    [|split; [reflexivity|exists ∅; split; [intros ? ? Hk; rewrite lookup_empty in Hk; discriminate
                                           |apply dryRunTrace_logs; reflexivity]]].
  destruct (e_fakeIndexErr e);
    [split; [reflexivity|exists ∅; split; [intros ? ? Hk; rewrite lookup_empty in Hk; discriminate
                                          |apply dryRunTrace_logs; reflexivity]]|].
  apply cachedClient_pods in Hcc as (pods & Hpods & Hfc).
  assert (pods = e_pods e) as -> by (destruct (e_podListErr e); congruence).
  cbn [getPodsAssignedToNode indexedFakeClient].
  match goal with
  | |- context [runStrategies e FakeIndex strategyList nodes ?w] =>
    destruct (runStrategies_dry e strategyList nodes w) as [Hp Ht];
      [split; [reflexivity|intros k p Hk; apply (Hfc k p Hk)]|];
      destruct (runStrategies e FakeIndex strategyList nodes w) as [w' t]
  end.
  simpl in *. split; [exact Hp|]. exists (tracker_pods fc).
  split; [intros k p Hk; apply (Hfc k p Hk)|].
  assert (dryRunTrace (tracker_pods fc)
            (EvLog Info "Building a cached client from the cluster for the dry run"
               :: EvLog Info "Pulling resources for the cached client from the cluster"
               :: EvLog Info "Building a pod evictor"
               :: t ++ [EvLog Info "Number of evicted pods"]) (tracker_pods (fakeClient w'))) as Hall.
  { apply (dryRunTrace_app _ [_; _; _] (tracker_pods fc) _ _);
      [apply dryRunTrace_logs; reflexivity|].
    eapply dryRunTrace_app; [exact Ht|apply dryRunTrace_logs; reflexivity]. }
  destruct (existsb isEvict _) eqn:Hev.
  - destruct (DeschedulingInterval rs =? 0)%Z; exact Hall.
  - destruct Hall as (Hs & Hl & Hg & Hu). split; [reflexivity|]. split; [exact Hl|].
    split; [|exact Hu]. intros pod node reason Hin. exfalso.
    assert (existsb isEvict (t ++ [EvLog Info "Number of evicted pods"]) = true) as Hex.
    { apply existsb_exists. exists (EvEvict pod node reason (true, None)).
      split; [|reflexivity]. apply list_elem_of_In.
      apply elem_of_cons in Hin as [Hin|Hin]; [discriminate|].
      apply elem_of_cons in Hin as [Hin|Hin]; [discriminate|].
      apply elem_of_cons in Hin as [Hin|Hin]; [discriminate|]. exact Hin. }
    congruence.
Qed.

(** C5.  In a dry run a tick leaves the pods of the real cluster as they
    were; a pod whose eviction succeeded is deleted from the tick's fake
    client, and no later listing of the tick, by the same or a later
    strategy, shows a pod under its key; what the listings show are pods
    of the cluster, copied when the tick began. *)
Theorem dry_run_leaves_cluster_and_hides_evicted strategyList e ls :
  DryRun rs = true ->
  t_podsAfter (tick strategyList e ls).2 = e_pods e
  /\ (forall t1 pod node reason t2 nodeName pods t3,
        t_trace (tick strategyList e ls).2
        = t1 ++ EvEvict pod node reason (true, None) :: t2 ++ EvList nodeName (Ok pods) :: t3 ->
        forall q, q ∈ pods -> podKey q <> podKey pod)
  /\ (forall pod node reason,
        EvEvict pod node reason (true, None) ∈ t_trace (tick strategyList e ls).2 ->
        tracker_pods (indexedFakeClient (tick strategyList e ls).1) !! podKey pod = None)
  /\ (forall nodeName pods q,
        EvList nodeName (Ok pods) ∈ t_trace (tick strategyList e ls).2 -> q ∈ pods ->
        q ∈ e_pods e).
Proof.
  intros Hdry. destruct (tick_dry strategyList e ls Hdry) as (Hp & m & Hm & Hs & Hl & Hg & Hu).
  split; [exact Hp|]. split; [|split].
  - intros t1 pod node reason t2 nodeName pods t3 Heq q Hq.
    eapply unseenAfterEvict_split; eassumption.
  - intros pod node reason Hin.
    assert (existsb isEvict (t_trace (tick strategyList e ls).2) = true) as Hex.
    { apply existsb_exists. exists (EvEvict pod node reason (true, None)).
      split; [apply list_elem_of_In; exact Hin|reflexivity]. }
    rewrite Hex in Hg. eapply Hg. exact Hin.
  - intros nodeName pods q Hin Hq. eapply Hm. eapply Hl; eassumption.
Qed.
End DryTick.

(** ** Validation and nil parameters *)

Section ParamsTheorems.
Context `{Packages}.

(** C8.  Parameters with both namespace sets non-empty, or with both a
    numeric priority threshold and a priority class name, are rejected by
    the validation, and [Run] then does nothing but log the error: no
    listing, no eviction, the state untouched.  The plugin wiring rejects
    the two namespace sets as well. *)
Theorem invalid_params_rejected_and_not_run (params : StrategyParameters) :
  ((exists ns, params_Namespaces params = Some ns /\ Include ns <> [] /\ Exclude ns <> [])
   \/ (is_Some (params_ThresholdPriority params)
       /\ params_ThresholdPriorityClassName params <> "")) ->
  is_Some (validateRemovePodsViolatingNodeTaintsParams (Some params))
  /\ (forall S (h : Handler S) client enabled nodes podEvictor s,
        interp h (NodeTaint.Run client (mkDeschedulerStrategy enabled (Some params))
                    nodes podEvictor) s
        = (tt, s, [EvLog Error "Invalid RemovePodsViolatingNodeTaints parameters"]))
  /\ ((exists ns, params_Namespaces params = Some ns /\ Include ns <> [] /\ Exclude ns <> []) ->
      is_Some (validateNamespaceArgs (params_Namespaces params))
      /\ exists err, RemovePodsViolatingNodeTaints2plugin (Some params) = Returns (Err err)).
Proof.
  intros Hbad.
  assert (is_Some (validateRemovePodsViolatingNodeTaintsParams (Some params))) as Hv.
  { unfold validateRemovePodsViolatingNodeTaintsParams.
    destruct Hbad as [(ns & -> & Hi & He)|[Ht Hc]].
    - destruct (Include ns); [contradiction|]. destruct (Exclude ns); [contradiction|].
      simpl. eauto.
    - destruct (match params_Namespaces params with Some _ => _ | None => _ end); [eauto|].
      rewrite (bool_decide_eq_true_2 _ Ht), (bool_decide_eq_false_2 _ Hc). simpl. eauto. }
  split; [exact Hv|]. split.
  - intros S h client enabled nodes podEvictor s. unfold NodeTaint.Run.
    cbn [strategy_Params]. destruct Hv as [err ->]. reflexivity.
  - intros (ns & Hns & Hi & He). unfold RemovePodsViolatingNodeTaints2plugin,
      ValidateRemovePodsViolatingNodeTaintsArgs, errorsAggregate. simpl. rewrite Hns. simpl.
    destruct (Include ns); [contradiction|]. destruct (Exclude ns); [contradiction|]. simpl.
    split; [eauto|]. destruct (validateLabelSelectorArgs (params_LabelSelector params));
      eauto.
Qed.

(** C10.  Nil parameters pass the validation, and [Run] then resolves the
    priority threshold from the nil parameters and builds its filter from
    the evictability predicate without node fit, an empty include set, an
    empty exclude set and no label selector, before it walks the nodes. *)
Theorem nil_params_accepted (client : option Clientset) (enabled : bool)
    (nodes : list Node) (podEvictor : EvictorConfig) :
  validateRemovePodsViolatingNodeTaintsParams None = None
  /\ NodeTaint.Validate (NodeTaint.mkTaintStrategy (mkDeschedulerStrategy enabled None) client)
     = None
  /\ NodeTaint.Run client (mkDeschedulerStrategy enabled None) nodes podEvictor
     = match GetPriorityFromStrategyParams client None with
       | Err err => klog Error "Failed to get threshold priority from strategy's params"
       | Ok thresholdPriority =>
         match BuildFilterFunc
                 (mkOptions (IsEvictable podEvictor thresholdPriority false) ∅ ∅ None) with
         | Err err => klog Error "Error initializing pod filter function"
         | Ok podFilter => NodeTaint.processNodes podFilter nodes
         end
       end.
Proof. repeat split. Qed.
End ParamsTheorems.

(** ** The theorems at concrete inputs *)

Import Sample.

Lemma invalid_params_rejected_and_not_run_witness :
  is_Some (validateRemovePodsViolatingNodeTaintsParams (Some bothNamespaces))
  /\ interp (tickHandler calm LiveIndex)
       (@NodeTaint.Run packages None (mkDeschedulerStrategy true (Some bothNamespaces))
          [n1; n2] config) world
     = (tt, world, [EvLog Error "Invalid RemovePodsViolatingNodeTaints parameters"]).
Proof.
  assert ((exists ns, params_Namespaces bothNamespaces = Some ns
             /\ Include ns <> [] /\ Exclude ns <> [])
          \/ (is_Some (params_ThresholdPriority bothNamespaces)
              /\ params_ThresholdPriorityClassName bothNamespaces <> "")) as Hbad.
  { left. exists (mkNamespaces ["a"] ["b"]). repeat split; discriminate. }
  destruct (@invalid_params_rejected_and_not_run packages bothNamespaces Hbad) as (Hv & Hrun & _).
  split; [exact Hv|apply Hrun].
Defined.

(** C3 as stated fails: the API server rejects the eviction of [p1]; [p2],
    next in the listing of [n1], does not tolerate the taint of [n1] either,
    and is never passed to [EvictPod]. *)
Lemma violator_after_failed_eviction_not_evicted :
  let t := traceOf (tickHandler rejecting LiveIndex)
             (@NodeTaint.Run packages None enabled [n1; n2] config) world in
  listings t !! 0%nat = Some ("n1", Ok [p1; p2; p3])
  /\ TolerationsTolerateTaintsWithFilter (pod_Tolerations p2) (node_Taints n1) isNoSchedule = false
  /\ evictCalls t = [(p1, n1, "NodeTaint")]
  /\ (p2, n1, "NodeTaint") ∉ evictCalls t.
Proof.
  repeat split. intros Hin. apply list_elem_of_singleton in Hin. discriminate.
Qed.

Lemma taint_eviction_iff_violation_witness :
  exists calls,
    byNode (traceOf (tickHandler More.rejectsP1 LiveIndex)
              (@NodeTaint.Run packages None enabled [n1; More.n3] config) More.fivePods)
      !! 1%nat
    = Some (node_Name More.n3, Ok [More.p5; More.p6], calls)
    /\ forall pod, pod ∈ [More.p5; More.p6] ->
       ((exists res, (pod, More.n3, "NodeTaint", res) ∈ calls)
        <-> TolerationsTolerateTaintsWithFilter
              (pod_Tolerations pod) (node_Taints More.n3) isNoSchedule = false).
Proof.
  exists [(More.p5, More.n3, "NodeTaint", (true, None));
          (More.p6, More.n3, "NodeTaint", (true, None))].
  assert (byNode (traceOf (tickHandler More.rejectsP1 LiveIndex)
                    (@NodeTaint.Run packages None enabled [n1; More.n3] config)
                    More.fivePods) !! 1%nat
          = Some (node_Name More.n3, Ok [More.p5; More.p6],
                  [(More.p5, More.n3, "NodeTaint", (true, None));
                   (More.p6, More.n3, "NodeTaint", (true, None))])) as Hseg
    by (vm_compute; reflexivity).
  split; [exact Hseg|].
  apply (proj1 (proj2 (proj2 (proj2
           (taint_eviction_iff_violation (tickHandler More.rejectsP1 LiveIndex) (H:=packages)
              None enabled [n1; More.n3] config More.fivePods))))
           1%nat More.n3 [More.p5; More.p6] _ eq_refl Hseg).
  reflexivity.
Defined.

Lemma eviction_error_abandons_node_witness :
  listOrEnd (nextCall [EvLog Error "Error evicting pod"; EvLog Info "Processing node";
                       EvList "n2" (Ok [p4])])
  /\ (listings (traceOf (tickHandler rejecting LiveIndex)
                  (@NodeTaint.Run packages None enabled [n1; n2] config) world)).*1
     = node_Name <$> [n1; n2]
  /\ evictedUntilFailure n1 [p1; p2]
       [(p1, n1, "NodeTaint",
         (false, Some "Cannot evict pod as it would violate the pod's disruption budget"))]
  /\ evictedUntilFailure More.n3 [More.p5; More.p6]
       [(More.p5, More.n3, "NodeTaint", (true, None));
        (More.p6, More.n3, "NodeTaint", (true, None))].
Proof.
  destruct (eviction_error_abandons_node (tickHandler rejecting LiveIndex) (H:=packages)
              None enabled [n1; n2] config world) as (Hstop & Hloop & _).
  destruct (eviction_error_abandons_node (tickHandler More.rejectsP1 LiveIndex) (H:=packages)
              None enabled [n1; More.n3] config More.fivePods) as (_ & _ & _ & Hnode & _).
  split; [|split; [|split]].
  - apply (Hstop
             [EvLog Info "Processing node"; EvList "n1" (Ok [p1; p2; p3]);
              EvLog Info "Not all taints with NoSchedule effect are tolerated after update for pod on node"]
             p1 n1 "NodeTaint" false
             "Cannot evict pod as it would violate the pod's disruption budget").
    reflexivity.
  - apply Hloop; reflexivity.
  - destruct (Hnode 0%nat "n1" [p1; p2; p3]
                [(p1, n1, "NodeTaint",
                  (false,
                   Some "Cannot evict pod as it would violate the pod's disruption budget"))])
      as (node & Hn & _ & Hev & _); [vm_compute; reflexivity|].
    inversion Hn; subst node. exact Hev.
  - destruct (Hnode 1%nat "n3" [More.p5; More.p6]
                [(More.p5, More.n3, "NodeTaint", (true, None));
                 (More.p6, More.n3, "NodeTaint", (true, None))])
      as (node & Hn & _ & Hev & _); [vm_compute; reflexivity|].
    inversion Hn; subst node. exact Hev.
Defined.

(** C1 as stated fails: the policy names one strategy, disabled, and the
    run ends with the error of the taint strategy's constructor before any
    tick, even when no other constructor can fail. *)
Lemma missing_taint_entry_aborts_run :
  strategy_Enabled <$> onlyDuplicatesDisabled !! "RemoveDuplicates" = Some false
  /\ @RunDeschedulerStrategies packages lenientStrategies once (policyOf onlyDuplicatesDisabled)
       "policy/v1" None [calm]
     = (Returned (Some ""), []).
Proof. split; vm_compute; reflexivity. Qed.

(** The list built from the policy of the examples. *)
Lemma initializeStratagies_allStrategies :
  @initializeStratagies packages strategies (Strategies (policyOf allStrategies)) = Ok tenStrategies.
Proof.
  unfold initializeStratagies, strategies, NewRemoveDuplicatesStrategy, NewLowNodeUtilizationStrategy,
    NewHighNodeUtilizationStrategy, NewRemovePodsViolatingInterPodAntiAffinityStrategy,
    NewRemovePodsViolatingNodeAffinityStrategy, NewRemovePodsHavingTooManyRestartsStrategy,
    NewPodLifeTimeStrategy, NewRemovePodsViolatingTopologySpreadConstraintStrategy,
    NewRemoveFailedPodsStrategy, newIdle, newObserver,
    NodeTaint.NewRemovePodsViolatingNodeTaintsStrategy, NodeTaint.Name,
    RemovePodsViolatingNodeTaints, policyOf, Strategies.
  replace (allStrategies !! "RemoveDuplicates") with (Some disabled) by (vm_compute; reflexivity).
  replace (allStrategies !! "LowNodeUtilization") with (Some disabled) by (vm_compute; reflexivity).
  replace (allStrategies !! "HighNodeUtilization") with (Some disabled) by (vm_compute; reflexivity).
  replace (allStrategies !! "RemovePodsViolatingInterPodAntiAffinity") with (Some disabled)
    by (vm_compute; reflexivity).
  replace (allStrategies !! "RemovePodsViolatingNodeAffinity") with (Some disabled)
    by (vm_compute; reflexivity).
  replace (allStrategies !! "RemovePodsViolatingNodeTaints") with (Some enabled)
    by (vm_compute; reflexivity).
  replace (allStrategies !! "RemovePodsHavingTooManyRestarts") with (Some disabled)
    by (vm_compute; reflexivity).
  replace (allStrategies !! "PodLifeTime") with (Some enabled) by (vm_compute; reflexivity).
  replace (allStrategies !! "RemovePodsViolatingTopologySpreadConstraint") with (Some disabled)
    by (vm_compute; reflexivity).
  replace (allStrategies !! "RemoveFailedPods") with (Some disabled) by (vm_compute; reflexivity).
  reflexivity.
Qed.

Lemma disabled_strategies_skipped_witness :
  @initializeStratagies packages strategies (Strategies (policyOf allStrategies)) = Ok tenStrategies
  /\ strategyEvents
       (t_trace (tick once (policyOf allStrategies) "policy/v1" tenStrategies calm
                   firstLoopState).2)
     = strategyEvent <$> tenStrategies.
Proof.
  pose proof initializeStratagies_allStrategies as Hinit.
  split; [exact Hinit|].
  apply (proj2 (proj2 (@disabled_strategies_skipped_when_initialised packages strategies once
                         (policyOf allStrategies) "policy/v1" tenStrategies Hinit)));
    reflexivity.
Defined.

Lemma unsafe_cluster_size_stops_schedule_witness :
  exists report,
    @RunDeschedulerStrategies packages strategies everyFiveMinutes (policyOf allStrategies)
      "policy/v1" None ([calm] ++ oneNode :: [calm])
    = (Returned None,
       (@RunDeschedulerStrategies packages strategies everyFiveMinutes (policyOf allStrategies)
          "policy/v1" None [calm]).2 ++ [report])
    /\ evictCalls (t_trace report) = []
    /\ strategyEvents (t_trace report) = []
    /\ t_podsAfter report = e_pods oneNode.
Proof.
  apply (@unsafe_cluster_size_stops_schedule packages strategies everyFiveMinutes
           (policyOf allStrategies) "policy/v1" [calm] oneNode [calm]);
    [vm_compute; reflexivity|reflexivity|reflexivity].
Defined.

(** C4 as stated fails: the index fails for [n1] in the first tick; the
    strategy after the taint strategy still runs in that tick, the loop is
    not stopped, and the second tick takes place. *)
Lemma listing_failure_does_not_stop_schedule :
  let result := @RunDeschedulerStrategies packages strategies everyFiveMinutes
                  (policyOf allStrategies) "policy/v1" None [indexFails; calm] in
  result.1 = Running
  /\ length result.2 = 2%nat
  /\ (t_trace <$> result.2 !! 0%nat)
     = Some [EvLog Info "Building a pod evictor";
             EvSkip "RemoveDuplicates"; EvSkip "LowNodeUtilization"; EvSkip "HighNodeUtilization";
             EvSkip "RemovePodsViolatingInterPodAntiAffinity";
             EvSkip "RemovePodsViolatingNodeAffinity";
             EvRun "RemovePodsViolatingNodeTaints";
             EvLog Info "Processing node"; EvList "n1" (Err "index error");
             EvSkip "RemovePodsHavingTooManyRestarts";
             EvRun "PodLifeTime"; EvList "n1" (Err "index error"); EvList "n2" (Ok [p4]);
             EvSkip "RemovePodsViolatingTopologySpreadConstraint"; EvSkip "RemoveFailedPods";
             EvLog Info "Number of evicted pods"].
Proof. repeat split; vm_compute; reflexivity. Qed.

Lemma listing_failure_ends_strategy_only_witness :
  strategyEvents
    (t_trace (tick everyFiveMinutes (policyOf allStrategies) "policy/v1"
                tenStrategies indexFails firstLoopState).2)
  = strategyEvent <$> tenStrategies
  /\ stopChannelClosed
       (tick everyFiveMinutes (policyOf allStrategies) "policy/v1"
          tenStrategies indexFails firstLoopState).1
     = stopChannelClosed firstLoopState || (DeschedulingInterval everyFiveMinutes =? 0)%Z.
Proof.
  apply (proj2 (@listing_failure_ends_strategy_only packages everyFiveMinutes
                  (policyOf allStrategies) "policy/v1")); vm_compute; reflexivity.
Defined.

Lemma dry_run_leaves_cluster_and_hides_evicted_witness :
  t_podsAfter (tick dryEveryFiveMinutes (policyOf allStrategies) "policy/v1"
                 tenStrategies calm firstLoopState).2
  = [p1; p2; p3; p4]
  /\ listings (t_trace (tick dryEveryFiveMinutes (policyOf allStrategies) "policy/v1"
                          tenStrategies calm firstLoopState).2) !! 2%nat
     = Some ("n1", Ok [p3]).
Proof.
  split; [|vm_compute; reflexivity].
  apply (proj1 (dry_run_leaves_cluster_and_hides_evicted dryEveryFiveMinutes
                  (policyOf allStrategies) "policy/v1" tenStrategies calm firstLoopState
                  eq_refl)).
Defined.

Lemma every_tick_starts_afresh_witness :
  exists strategyList e,
    @initializeStratagies packages strategies (Strategies (policyOf allStrategies))
    = Ok strategyList
    /\ [calm; rejecting] !! 1%nat = Some e
    /\ (tick everyFiveMinutes (policyOf allStrategies) "policy/v1"
          tenStrategies rejecting firstLoopState).2
       = (tick everyFiveMinutes (policyOf allStrategies) "policy/v1"
            strategyList e firstLoopState).2.
Proof.
  apply (@every_tick_starts_afresh packages strategies everyFiveMinutes (policyOf allStrategies)
           "policy/v1" [calm; rejecting] 1%nat).
  vm_compute. reflexivity.
Defined.

(** C9 as stated fails: the interval is not zero and nothing cancels the
    run, yet the loop makes one tick only, because one node is ready. *)
Lemma one_node_stops_nonzero_interval :
  DeschedulingInterval everyFiveMinutes <> 0%Z
  /\ e_cancelled oneNode = false /\ e_cancelled calm = false
  /\ (@RunDeschedulerStrategies packages strategies everyFiveMinutes (policyOf allStrategies)
        "policy/v1" None [oneNode; calm]).1 = Returned None
  /\ length (@RunDeschedulerStrategies packages strategies everyFiveMinutes
               (policyOf allStrategies) "policy/v1" None [oneNode; calm]).2 = 1%nat.
Proof. repeat split; try discriminate; vm_compute; reflexivity. Qed.

Lemma interval_decides_next_tick_witness :
  NonSlidingUntil (tick once (policyOf allStrategies) "policy/v1" tenStrategies)
    [calm; calm] firstLoopState
  = (LoopReturned,
     (tick once (policyOf allStrategies) "policy/v1" tenStrategies calm
        firstLoopState).1,
     [(tick once (policyOf allStrategies) "policy/v1" tenStrategies calm
         firstLoopState).2])
  /\ (2 <= length (NonSlidingUntil
                     (tick everyFiveMinutes (policyOf allStrategies) "policy/v1"
                        tenStrategies)
                     [calm; calm] firstLoopState).2)%nat.
Proof.
  split.
  - apply (proj1 (interval_decides_next_tick once (policyOf allStrategies) "policy/v1"
                    tenStrategies calm [calm] firstLoopState eq_refl eq_refl)); reflexivity.
  - destruct (proj2 (interval_decides_next_tick everyFiveMinutes
                       (policyOf allStrategies) "policy/v1" tenStrategies calm [calm]
                       firstLoopState eq_refl eq_refl)) as [_ Hnext];
      [discriminate|reflexivity|].
    apply (Hnext calm []); reflexivity.
Defined.

(** * Further properties of the code *)

#[local] Set Warnings "-clear-no-such-hyp".

(** ** node_taint.go *)

(** X1.  The validation of the taint strategy accepts given parameters
    exactly when at most one of the two namespace sets is non-empty and at
    most one of the numeric threshold and the class name is set. *)
Theorem taint_params_valid_iff (params : StrategyParameters) :
  validateRemovePodsViolatingNodeTaintsParams (Some params) = None <->
  (forall ns, params_Namespaces params = Some ns -> Include ns = [] \/ Exclude ns = [])
  /\ (params_ThresholdPriority params = None \/ params_ThresholdPriorityClassName params = "").
Proof.
  unfold validateRemovePodsViolatingNodeTaintsParams. split.
  - intros Hv. split.
    + intros ns Hns. rewrite Hns in Hv.
      destruct (Include ns); [left; reflexivity|]. destruct (Exclude ns); [right; reflexivity|].
      discriminate.
    + destruct (match params_Namespaces params with Some _ => _ | None => _ end); [discriminate|].
      destruct (params_ThresholdPriority params); [|left; reflexivity].
      right. destruct (decide (params_ThresholdPriorityClassName params = "")) as [Hc|Hc];
        [exact Hc|].
      rewrite (bool_decide_eq_false_2 _ Hc) in Hv.
      rewrite bool_decide_eq_true_2 in Hv by eauto. discriminate.
  - intros [Hns Hthr].
    assert (match params_Namespaces params with
            | Some ns => (0 <? length (Include ns))%nat && (0 <? length (Exclude ns))%nat
            | None => false
            end = false) as ->.
    { destruct (params_Namespaces params) as [ns|]; [|reflexivity].
      destruct (Hns ns eq_refl) as [-> | ->]; [reflexivity|apply andb_false_r]. }
    destruct Hthr as [-> | ->].
    + rewrite bool_decide_eq_false_2; [reflexivity|]. intros [? ?]. discriminate.
    + rewrite (bool_decide_eq_true_2 ("" = "")) by reflexivity. simpl.
      rewrite andb_false_r. reflexivity.
Qed.


(** X2.  The constructor of the taint strategy reads the entry under its
    own name only: without it the result is the error with the empty
    message, with it the strategy carries the entry (enabled as the entry
    says, validated on the entry's parameters, the client nil), and entries
    under other names, added or removed, change nothing. *)
Theorem taint_constructor_reads_own_entry (strategyList : StrategyList) :
  (strategyList !! RemovePodsViolatingNodeTaints = None ->
   NodeTaint.NewRemovePodsViolatingNodeTaintsStrategy strategyList = Err "")
  /\ (forall cfg, strategyList !! RemovePodsViolatingNodeTaints = Some cfg ->
      NodeTaint.NewRemovePodsViolatingNodeTaintsStrategy strategyList
      = Ok (NodeTaint.mkTaintStrategy cfg None)
      /\ NodeTaint.Enabled (NodeTaint.mkTaintStrategy cfg None) = strategy_Enabled cfg
      /\ NodeTaint.Validate (NodeTaint.mkTaintStrategy cfg None)
         = validateRemovePodsViolatingNodeTaintsParams (strategy_Params cfg))
  /\ (forall name cfg, name <> RemovePodsViolatingNodeTaints ->
      NodeTaint.NewRemovePodsViolatingNodeTaintsStrategy (<[name := cfg]> strategyList)
      = NodeTaint.NewRemovePodsViolatingNodeTaintsStrategy strategyList
      /\ NodeTaint.NewRemovePodsViolatingNodeTaintsStrategy (delete name strategyList)
         = NodeTaint.NewRemovePodsViolatingNodeTaintsStrategy strategyList).
Proof.
  unfold NodeTaint.NewRemovePodsViolatingNodeTaintsStrategy, NodeTaint.Name. simpl.
  split; [|split].
  - intros ->. reflexivity.
  - intros cfg ->. auto.
  - intros name cfg Hne. rewrite lookup_insert_ne, lookup_delete_ne by assumption. auto.
Qed.


Lemma failedEvicts_app a b : failedEvicts (a ++ b) = (failedEvicts a + failedEvicts b)%nat.
Proof. unfold failedEvicts. rewrite List.filter_app, length_app. reflexivity. Qed.

Section RunExtras.
Context {S : Type} (h : Handler S) `{Packages}.

Lemma evictPods_one_failure node pods s :
  (failedEvicts (traceOf h (NodeTaint.evictPods node pods) s) <= 1)%nat.
Proof.
  unfold traceOf. revert s. induction pods as [|pod rest IH]; intros s.
  - simpl. unfold failedEvicts. simpl. lia.
  - rewrite (interp_evictPods_cons h). destruct (violates node pod); [|apply IH].
    destruct (h_evict h pod node "NodeTaint" s) as [[b [err|]] s1]; simpl.
    + unfold failedEvicts. simpl. lia.
    + specialize (IH s1). destruct (interp h (NodeTaint.evictPods node rest) s1) as [[a s2] t].
      simpl in *. exact IH.
Qed.

Lemma processNodes_order podFilter nodes s :
  (listings (traceOf h (NodeTaint.processNodes podFilter nodes) s)).*1
    `prefix_of` (node_Name <$> nodes)
  /\ (failedEvicts (traceOf h (NodeTaint.processNodes podFilter nodes) s)
      <= length (listings (traceOf h (NodeTaint.processNodes podFilter nodes) s)))%nat.
Proof.
  unfold traceOf. revert s. induction nodes as [|node rest IH]; intros s.
  - simpl. split; [reflexivity|]. unfold failedEvicts. simpl. lia.
  - rewrite (interp_processNodes_cons h).
    destruct (h_list h (node_Name node) podFilter s) as [pods|err] eqn:Hl.
    + pose proof (evictPods_shape h node pods s) as [_ Hn].
      pose proof (evictPods_one_failure node pods s) as Hone. unfold traceOf in Hn, Hone.
      destruct (interp h (NodeTaint.evictPods node pods) s) as [[[] s1] t1].
      destruct (IH s1) as [IH1 IH2].
      destruct (interp h (NodeTaint.processNodes podFilter rest) s1) as [[a s2] t2].
      simpl in *. rewrite listings_app, (listings_no_list _ Hn). simpl. split.
      * apply prefix_cons. exact IH1.
      * change (EvLog Info "Processing node" :: EvList (node_Name node) (Ok pods) :: t1 ++ t2)
          with ([EvLog Info "Processing node"; EvList (node_Name node) (Ok pods)] ++ t1 ++ t2).
        rewrite !failedEvicts_app. unfold failedEvicts at 1. simpl. lia.
    + simpl. split; [apply prefix_cons, prefix_nil|]. unfold failedEvicts. simpl. lia.
Qed.

(** X4.  [Run] lists the nodes in the order it is given them, each at most
    once, and stops somewhere in the list: the node names of its listings
    are a prefix of the node names. *)
Theorem Run_lists_nodes_in_order client strategy nodes podEvictor s :
  (listings (traceOf h (NodeTaint.Run client strategy nodes podEvictor) s)).*1
    `prefix_of` (node_Name <$> nodes).
Proof.
  destruct (Run_cases client strategy nodes podEvictor) as [[msg ->]|[f ->]].
  - apply prefix_nil.
  - apply processNodes_order.
Qed.

(** X5.  [Run] makes at most one failing [EvictPod] call per node it
    lists: read node by node, the calls after each listing and before the
    next hold at most one call that failed, and every failing call of the
    run is among them.  It lists at most as many nodes as it is given. *)
Theorem Run_one_failed_eviction_per_node client strategy nodes podEvictor s :
  Forall (fun entry => (length (List.filter failed entry.2) <= 1)%nat)
    (byNode (traceOf h (NodeTaint.Run client strategy nodes podEvictor) s))
  /\ failedEvicts (traceOf h (NodeTaint.Run client strategy nodes podEvictor) s)
     = length (List.filter failed
                 (concat (byNode (traceOf h (NodeTaint.Run client strategy nodes podEvictor)
                                    s)).*2))
  /\ (failedEvicts (traceOf h (NodeTaint.Run client strategy nodes podEvictor) s)
      <= length (listings (traceOf h (NodeTaint.Run client strategy nodes podEvictor) s)))%nat
  /\ (length (listings (traceOf h (NodeTaint.Run client strategy nodes podEvictor) s))
      <= length nodes)%nat.
Proof.
  split; [|split; [|split]].
  - apply Forall_lookup. intros i [[name res] calls] Hi. simpl.
    destruct (Run_byNode h client strategy nodes podEvictor s i name res calls Hi)
      as (node & _ & _ & Hev).
    destruct res as [pods|err]; [|subst calls; simpl; lia].
    apply (evictedUntilFailure_last _ _ _ Hev).
  - rewrite failedEvicts_byNode, (Run_callsBeforeList h). reflexivity.
  - destruct (Run_cases client strategy nodes podEvictor) as [[msg ->]|[f ->]].
    + unfold failedEvicts. simpl. lia.
    + apply processNodes_order.
  - assert ((listings (traceOf h (NodeTaint.Run client strategy nodes podEvictor) s)).*1
            `prefix_of` (node_Name <$> nodes)) as Hp.
    { destruct (Run_cases client strategy nodes podEvictor) as [[msg ->]|[f ->]];
        [apply prefix_nil|apply processNodes_order]. }
    apply prefix_length in Hp. rewrite !length_fmap in Hp. exact Hp.
Qed.

(** X3.  When the priority threshold cannot be resolved for valid
    parameters, [Run] logs that and does nothing else; and whenever [Run]
    ends in its set-up, it has made no call and left the state as it was. *)
Theorem Run_setup_failure_makes_no_call client strategy nodes podEvictor s :
  (validateRemovePodsViolatingNodeTaintsParams (strategy_Params strategy) = None ->
   is_Err (GetPriorityFromStrategyParams client (strategy_Params strategy)) = true ->
   interp h (NodeTaint.Run client strategy nodes podEvictor) s
   = (tt, s, [EvLog Error "Failed to get threshold priority from strategy's params"]))
  /\ (setUpFailed (traceOf h (NodeTaint.Run client strategy nodes podEvictor) s) = true ->
      exists msg, interp h (NodeTaint.Run client strategy nodes podEvictor) s
                  = (tt, s, [EvLog Error msg])).
Proof.
  split.
  - intros Hv Hp. unfold NodeTaint.Run. rewrite Hv.
    destruct (match strategy_Params strategy with Some _ => _ | None => _ end) as [incl excl].
    destruct (GetPriorityFromStrategyParams _ _); [discriminate|reflexivity].
  - unfold traceOf. destruct (Run_cases client strategy nodes podEvictor) as [[msg ->]|[f ->]].
    + intros _. exists msg. reflexivity.
    + destruct nodes as [|node rest]; [discriminate|].
      rewrite (interp_processNodes_cons h).
      destruct (h_list h (node_Name node) f s) as [pods|]; [|discriminate].
      destruct (interp h (NodeTaint.evictPods node pods) s) as [[[] s1] t1].
      destruct (interp h (NodeTaint.processNodes f rest) s1) as [[? s2] t2]. discriminate.
Qed.

(** X6.  [Validate] and [Run] agree: the strategy's [Validate] returns an
    error exactly when its [Run] does nothing but log the invalid
    parameters. *)
Theorem Validate_error_iff_Run_refuses (t : NodeTaint.RemovePodsViolatingNodeTaintsStrategy)
    nodes podEvictor s :
  is_Some (NodeTaint.Validate t) <->
  traceOf h (Run (NodeTaint.asStrategy t) nodes podEvictor) s
  = [EvLog Error "Invalid RemovePodsViolatingNodeTaints parameters"].
Proof.
  unfold NodeTaint.Validate, NodeTaint.asStrategy, traceOf. cbn [Run]. split.
  - intros [err Hv]. unfold NodeTaint.Run. rewrite Hv. reflexivity.
  - intros Ht.
    destruct (validateRemovePodsViolatingNodeTaintsParams
                (strategy_Params (NodeTaint.strategy t))) eqn:Hv; [eauto|].
    exfalso. revert Ht. unfold NodeTaint.Run. rewrite Hv.
    destruct (match strategy_Params (NodeTaint.strategy t) with Some _ => _ | None => _ end)
      as [incl excl].
    destruct (GetPriorityFromStrategyParams _ _); [|discriminate].
    destruct (BuildFilterFunc _) as [f|]; [|discriminate].
    destruct nodes as [|node rest]; [discriminate|].
    rewrite (interp_processNodes_cons h).
    destruct (h_list h (node_Name node) f s) as [pods|]; [|discriminate].
    destruct (interp h (NodeTaint.evictPods node pods) s) as [[[] s1] t1].
    destruct (interp h (NodeTaint.processNodes f rest) s1) as [[? s2] t2]. discriminate.
Qed.
End RunExtras.

(** ** The fake client *)

(** X7.  An eviction sent to the fake client deletes the pod of that
    namespace and name from the tracker and nothing else, without error; a
    second eviction of the same pod, like any eviction of a pod the tracker
    does not hold, returns an error and leaves the fake client as it was. *)
Theorem eviction_deletes_exactly_that_pod (fc : FakeClientset) (namespace name : string) :
  (is_Some (tracker_pods fc !! (namespace, name)) ->
   (Invokes (CreateEviction namespace name) fc).1 = None
   /\ tracker_pods (Invokes (CreateEviction namespace name) fc).2
      = delete (namespace, name) (tracker_pods fc)
   /\ tracker_nodes (Invokes (CreateEviction namespace name) fc).2 = tracker_nodes fc
   /\ tracker_namespaces (Invokes (CreateEviction namespace name) fc).2 = tracker_namespaces fc
   /\ tracker_priorityClasses (Invokes (CreateEviction namespace name) fc).2
      = tracker_priorityClasses fc
   /\ is_Some (Invokes (CreateEviction namespace name)
                 (Invokes (CreateEviction namespace name) fc).2).1)
  /\ (tracker_pods fc !! (namespace, name) = None ->
      is_Some (Invokes (CreateEviction namespace name) fc).1
      /\ (Invokes (CreateEviction namespace name) fc).2 = fc).
Proof.
  unfold Invokes, evictionReactor. split.
  - intros [p Hp]. rewrite Hp. simpl. rewrite lookup_delete_eq. simpl. repeat split; eauto.
  - intros ->. simpl. eauto.
Qed.

Lemma copyAll_keeps {A B} (create : A -> FakeClientset -> option string * FakeClientset)
    (proj : FakeClientset -> B) msg items fc fc' :
  (forall item fc, proj (create item fc).2 = proj fc) ->
  copyAll create msg items fc = Ok fc' -> proj fc' = proj fc.
Proof.
  intros Hcreate. revert fc. induction items as [|item rest IH]; intros fc; simpl.
  - intros Heq. inversion Heq; subst. reflexivity.
  - pose proof (Hcreate item fc) as Hc. destruct (create item fc) as [[err|] fc1]; [discriminate|].
    intros Hcopy. rewrite (IH _ Hcopy). exact Hc.
Qed.

Lemma copyAll_Err {A} (create : A -> FakeClientset -> option string * FakeClientset)
    msg items fc m :
  copyAll create msg items fc = Err m -> exists err, m = (msg ++ ": " ++ err)%string.
Proof.
  revert fc. induction items as [|item rest IH]; intros fc; simpl; [discriminate|].
  destruct (create item fc) as [[err|] fc1]; [intros Heq; inversion Heq; eauto|apply IH].
Qed.

Section CopyMap.
Context {A K : Type} `{Countable K}.
Context (create : A -> FakeClientset -> option string * FakeClientset)
        (key : A -> K) (get : FakeClientset -> gmap K A).
Hypothesis create_taken : forall item fc,
  is_Some (get fc !! key item) -> is_Some (create item fc).1.
Hypothesis create_free : forall item fc,
  get fc !! key item = None ->
  (create item fc).1 = None /\ get (create item fc).2 = <[key item := item]> (get fc).

Lemma copyAll_map msg items fc :
  match copyAll create msg items fc with
  | Ok fc' =>
    NoDup (key <$> items) /\ (forall item, item ∈ items -> get fc !! key item = None)
    /\ forall k v, get fc' !! k = Some v <-> get fc !! k = Some v \/ (v ∈ items /\ key v = k)
  | Err _ =>
    ~ (NoDup (key <$> items) /\ forall item, item ∈ items -> get fc !! key item = None)
  end.
Proof.
  revert fc. induction items as [|item rest IH]; intros fc; simpl.
  - split; [constructor|]. split; [intros ? Hin; inversion Hin|].
    intros k v. split; [auto|]. intros [?|[Hin _]]; [assumption|inversion Hin].
  - destruct (get fc !! key item) eqn:Hk.
    + destruct (create_taken item fc) as [err Herr]; [eauto|].
      destruct (create item fc) as [[e|] fc1]; [|discriminate].
      intros [_ Hfree]. rewrite Hfree in Hk by left. discriminate.
    + destruct (create_free item fc Hk) as [Hnone Hget].
      destruct (create item fc) as [[e|] fc1]; [discriminate|]. simpl in *.
      specialize (IH fc1). destruct (copyAll create msg rest fc1) as [fc'|m].
      * destruct IH as (Hnd & Hfree & Hcontent). split; [|split].
        -- constructor; [|exact Hnd]. intros Hin. apply list_elem_of_fmap in Hin as (x & Hx & Hin).
           specialize (Hfree x Hin). rewrite Hget, <- Hx, lookup_insert_eq in Hfree. discriminate.
        -- intros x Hin. apply elem_of_cons in Hin as [->|Hin]; [exact Hk|].
           specialize (Hfree x Hin). rewrite Hget in Hfree.
           destruct (decide (key item = key x)) as [Heq|Hne].
           ++ rewrite Heq, lookup_insert_eq in Hfree. discriminate.
           ++ rewrite lookup_insert_ne in Hfree by assumption. exact Hfree.
        -- intros k v. rewrite Hcontent, Hget. split.
           ++ intros [Hl|[Hin Hkey]].
              ** destruct (decide (key item = k)) as [<-|Hne].
                 --- rewrite lookup_insert_eq in Hl. inversion Hl; subst.
                     right. split; [left|reflexivity].
                 --- rewrite lookup_insert_ne in Hl by assumption. left. exact Hl.
              ** right. split; [right|]; assumption.
           ++ intros [Hl|[Hin Hkey]].
              ** left. rewrite lookup_insert_ne; [exact Hl|]. intros Heq. congruence.
              ** apply elem_of_cons in Hin as [->|Hin].
                 --- left. rewrite <- Hkey. apply lookup_insert_eq.
                 --- right. auto.
      * intros [Hnd Hfree]. apply IH. apply NoDup_cons in Hnd as [Hnotin Hnd].
        split; [exact Hnd|]. intros x Hin. rewrite Hget.
        rewrite lookup_insert_ne; [apply Hfree; right; exact Hin|].
        intros Heq. apply Hnotin. apply list_elem_of_fmap. exists x. auto.
Qed.
End CopyMap.

Section CopySet.
Context (create : string -> FakeClientset -> option string * FakeClientset)
        (get : FakeClientset -> gset string).
Hypothesis create_taken : forall item fc, item ∈ get fc -> is_Some (create item fc).1.
Hypothesis create_free : forall item fc,
  item ∉ get fc -> (create item fc).1 = None /\ get (create item fc).2 = {[item]} ∪ get fc.

Lemma copyAll_set msg items fc :
  match copyAll create msg items fc with
  | Ok fc' =>
    NoDup items /\ (forall item, item ∈ items -> item ∉ get fc)
    /\ forall x, x ∈ get fc' <-> x ∈ get fc \/ x ∈ items
  | Err _ => ~ (NoDup items /\ forall item, item ∈ items -> item ∉ get fc)
  end.
Proof.
  revert fc. induction items as [|item rest IH]; intros fc; simpl.
  - split; [constructor|]. split; [intros ? Hin; inversion Hin|].
    intros x. split; [auto|]. intros [?|Hin]; [assumption|inversion Hin].
  - destruct (decide (item ∈ get fc)) as [Hin|Hnotin].
    + destruct (create_taken item fc Hin) as [err Herr].
      destruct (create item fc) as [[e|] fc1]; [|discriminate].
      intros [_ Hfree]. apply (Hfree item); [left|exact Hin].
    + destruct (create_free item fc Hnotin) as [Hnone Hget].
      destruct (create item fc) as [[e|] fc1]; [discriminate|]. simpl in *.
      specialize (IH fc1). destruct (copyAll create msg rest fc1) as [fc'|m].
      * destruct IH as (Hnd & Hfree & Hcontent). split; [|split].
        -- constructor; [|exact Hnd]. intros Hin. apply (Hfree item Hin). rewrite Hget.
           set_solver.
        -- intros x Hin. apply elem_of_cons in Hin as [->|Hin]; [exact Hnotin|].
           specialize (Hfree x Hin). rewrite Hget in Hfree. set_solver.
        -- intros x. rewrite Hcontent, Hget. set_solver.
      * intros [Hnd Hfree]. apply IH. apply NoDup_cons in Hnd as [Hni Hnd].
        split; [exact Hnd|]. intros x Hin. rewrite Hget.
        assert (x <> item) by (intros ->; contradiction).
        assert (x ∉ get fc) by (apply Hfree; right; exact Hin). set_solver.
Qed.
End CopySet.

Lemma copy_pods msg items fc :
  match copyAll (fun item => Invokes (CreatePod item)) msg items fc with
  | Ok fc' =>
    NoDup (podKey <$> items)
    /\ (forall item, item ∈ items -> tracker_pods fc !! podKey item = None)
    /\ forall k v, tracker_pods fc' !! k = Some v
                   <-> tracker_pods fc !! k = Some v \/ (v ∈ items /\ podKey v = k)
  | Err _ =>
    ~ (NoDup (podKey <$> items)
       /\ forall item, item ∈ items -> tracker_pods fc !! podKey item = None)
  end.
Proof.
  apply (copyAll_map (fun item => Invokes (CreatePod item)) podKey tracker_pods).
  - intros item c [p Hp]. unfold Invokes. simpl. rewrite Hp. simpl. eauto.
  - intros item c Hn. unfold Invokes. simpl. rewrite Hn. simpl. auto.
Qed.

Lemma copy_nodes msg items fc :
  match copyAll createNode msg items fc with
  | Ok fc' =>
    NoDup (node_Name <$> items)
    /\ (forall item, item ∈ items -> tracker_nodes fc !! node_Name item = None)
    /\ forall k v, tracker_nodes fc' !! k = Some v
                   <-> tracker_nodes fc !! k = Some v \/ (v ∈ items /\ node_Name v = k)
  | Err _ =>
    ~ (NoDup (node_Name <$> items)
       /\ forall item, item ∈ items -> tracker_nodes fc !! node_Name item = None)
  end.
Proof.
  apply (copyAll_map createNode node_Name tracker_nodes).
  - intros item c [p Hp]. unfold createNode. rewrite Hp. simpl. eauto.
  - intros item c Hn. unfold createNode. rewrite Hn. simpl. auto.
Qed.

Lemma copy_namespaces msg items fc :
  match copyAll createNamespace msg items fc with
  | Ok fc' =>
    NoDup items /\ (forall item, item ∈ items -> item ∉ tracker_namespaces fc)
    /\ forall x, x ∈ tracker_namespaces fc' <-> x ∈ tracker_namespaces fc \/ x ∈ items
  | Err _ => ~ (NoDup items /\ forall item, item ∈ items -> item ∉ tracker_namespaces fc)
  end.
Proof.
  apply (copyAll_set createNamespace tracker_namespaces).
  - intros item c Hin. unfold createNamespace. rewrite bool_decide_eq_true_2 by assumption.
    simpl. eauto.
  - intros item c Hn. unfold createNamespace. rewrite bool_decide_eq_false_2 by assumption.
    simpl. auto.
Qed.

Lemma copy_priorityClasses msg items fc :
  match copyAll createPriorityClass msg items fc with
  | Ok fc' =>
    NoDup items /\ (forall item, item ∈ items -> item ∉ tracker_priorityClasses fc)
    /\ forall x, x ∈ tracker_priorityClasses fc' <-> x ∈ tracker_priorityClasses fc \/ x ∈ items
  | Err _ => ~ (NoDup items /\ forall item, item ∈ items -> item ∉ tracker_priorityClasses fc)
  end.
Proof.
  apply (copyAll_set createPriorityClass tracker_priorityClasses).
  - intros item c Hin. unfold createPriorityClass. rewrite bool_decide_eq_true_2 by assumption.
    simpl. eauto.
  - intros item c Hn. unfold createPriorityClass. rewrite bool_decide_eq_false_2 by assumption.
    simpl. auto.
Qed.

Lemma createPod_frame item fc :
  tracker_nodes (Invokes (CreatePod item) fc).2 = tracker_nodes fc
  /\ tracker_namespaces (Invokes (CreatePod item) fc).2 = tracker_namespaces fc
  /\ tracker_priorityClasses (Invokes (CreatePod item) fc).2 = tracker_priorityClasses fc.
Proof. unfold Invokes. simpl. destruct (tracker_pods fc !! podKey item); auto. Qed.

Lemma createNode_frame item fc :
  tracker_pods (createNode item fc).2 = tracker_pods fc
  /\ tracker_namespaces (createNode item fc).2 = tracker_namespaces fc
  /\ tracker_priorityClasses (createNode item fc).2 = tracker_priorityClasses fc.
Proof. unfold createNode. destruct (tracker_nodes fc !! node_Name item); auto. Qed.

Lemma createNamespace_frame item fc :
  tracker_pods (createNamespace item fc).2 = tracker_pods fc
  /\ tracker_nodes (createNamespace item fc).2 = tracker_nodes fc
  /\ tracker_priorityClasses (createNamespace item fc).2 = tracker_priorityClasses fc.
Proof. unfold createNamespace. case_bool_decide; auto. Qed.

Lemma createPriorityClass_frame item fc :
  tracker_pods (createPriorityClass item fc).2 = tracker_pods fc
  /\ tracker_nodes (createPriorityClass item fc).2 = tracker_nodes fc
  /\ tracker_namespaces (createPriorityClass item fc).2 = tracker_namespaces fc.
Proof. unfold createPriorityClass. case_bool_decide; auto. Qed.

Lemma cachedClient_tracker_pods pods nodeLister namespaceLister priorityClassLister fc :
  cachedClient (Ok pods) nodeLister namespaceLister priorityClassLister = Ok fc ->
  NoDup (podKey <$> pods)
  /\ forall k p, tracker_pods fc !! k = Some p <-> p ∈ pods /\ podKey p = k.
Proof.
  unfold cachedClient, mbind, Result_mbind, mret, Result_ret. simpl.
  pose proof (copy_pods "unable to copy pod" pods NewSimpleClientset) as Hpods.
  destruct (copyAll _ _ pods _) as [fc1|] eqn:H1; [|discriminate].
  destruct (listOr _ nodeLister) as [nodes|]; [|discriminate].
  destruct (copyAll createNode _ nodes fc1) as [fc2|] eqn:H2; [|discriminate].
  destruct (listOr _ namespaceLister) as [namespaces|]; [|discriminate].
  destruct (copyAll createNamespace _ namespaces fc2) as [fc3|] eqn:H3; [|discriminate].
  destruct (listOr _ priorityClassLister) as [priorityClasses|]; [|discriminate].
  destruct (copyAll createPriorityClass _ priorityClasses fc3) as [fc4|] eqn:H4; [|discriminate].
  intros Heq. inversion Heq; subst fc4.
  apply copyAll_keeps_pods in H4; [|intros i c; apply createPriorityClass_frame].
  apply copyAll_keeps_pods in H3; [|intros i c; apply createNamespace_frame].
  apply copyAll_keeps_pods in H2; [|intros i c; apply createNode_frame].
  destruct Hpods as (Hnd & _ & Hc). split; [exact Hnd|].
  intros k p. rewrite H4, H3, H2, Hc. simpl. rewrite lookup_empty. naive_solver.
Qed.

(** X8.  A fake client [cachedClient] returns holds exactly what the four
    listers returned, each object under its own key, and the listers
    returned no two objects of a kind with the same key. *)
Theorem cachedClient_holds_what_the_listers_return
    (podLister : Result (list Pod)) (nodeLister : Result (list Node))
    (namespaceLister priorityClassLister : Result (list string)) (fc : FakeClientset) :
  cachedClient podLister nodeLister namespaceLister priorityClassLister = Ok fc ->
  exists pods nodes namespaces priorityClasses,
    podLister = Ok pods /\ nodeLister = Ok nodes
    /\ namespaceLister = Ok namespaces /\ priorityClassLister = Ok priorityClasses
    /\ NoDup (podKey <$> pods) /\ NoDup (node_Name <$> nodes)
    /\ NoDup namespaces /\ NoDup priorityClasses
    /\ (forall k p, tracker_pods fc !! k = Some p <-> p ∈ pods /\ podKey p = k)
    /\ (forall k n, tracker_nodes fc !! k = Some n <-> n ∈ nodes /\ node_Name n = k)
    /\ (forall x, x ∈ tracker_namespaces fc <-> x ∈ namespaces)
    /\ (forall x, x ∈ tracker_priorityClasses fc <-> x ∈ priorityClasses).
Proof.
  unfold cachedClient, mbind, Result_mbind, mret, Result_ret.
  destruct podLister as [pods|]; [|discriminate]. simpl.
  pose proof (copy_pods "unable to copy pod" pods NewSimpleClientset) as Hpods.
  destruct (copyAll _ _ pods _) as [fc1|] eqn:H1; [|discriminate].
  destruct nodeLister as [nodes|]; [|discriminate]. simpl.
  pose proof (copy_nodes "unable to copy node" nodes fc1) as Hnodes.
  destruct (copyAll createNode _ nodes fc1) as [fc2|] eqn:H2; [|discriminate].
  destruct namespaceLister as [namespaces|]; [|discriminate]. simpl.
  pose proof (copy_namespaces "unable to copy node" namespaces fc2) as Hns.
  destruct (copyAll createNamespace _ namespaces fc2) as [fc3|] eqn:H3; [|discriminate].
  destruct priorityClassLister as [priorityClasses|]; [|discriminate]. simpl.
  pose proof (copy_priorityClasses "unable to copy priorityclass" priorityClasses fc3) as Hpc.
  destruct (copyAll createPriorityClass _ priorityClasses fc3) as [fc4|] eqn:H4; [|discriminate].
  intros Heq. inversion Heq; subst fc4.
  exists pods, nodes, namespaces, priorityClasses.
  destruct Hpods as (Hnd1 & _ & Hc1). destruct Hnodes as (Hnd2 & _ & Hc2).
  destruct Hns as (Hnd3 & _ & Hc3). destruct Hpc as (Hnd4 & _ & Hc4).
  repeat (split; [first [reflexivity|assumption]|]).
  (* what each later copy leaves alone *)
  pose proof (copyAll_keeps _ tracker_pods _ _ _ _ (fun i c => proj1 (createPriorityClass_frame i c)) H4) as P4.
  pose proof (copyAll_keeps _ tracker_pods _ _ _ _ (fun i c => proj1 (createNamespace_frame i c)) H3) as P3.
  pose proof (copyAll_keeps _ tracker_pods _ _ _ _ (fun i c => proj1 (createNode_frame i c)) H2) as P2.
  pose proof (copyAll_keeps _ tracker_nodes _ _ _ _ (fun i c => proj1 (proj2 (createPriorityClass_frame i c))) H4) as N4.
  pose proof (copyAll_keeps _ tracker_nodes _ _ _ _ (fun i c => proj1 (proj2 (createNamespace_frame i c))) H3) as N3.
  pose proof (copyAll_keeps _ tracker_nodes _ _ _ _ (fun i c => proj1 (createPod_frame i c)) H1) as N1.
  pose proof (copyAll_keeps _ tracker_namespaces _ _ _ _ (fun i c => proj2 (proj2 (createPriorityClass_frame i c))) H4) as S4.
  pose proof (copyAll_keeps _ tracker_namespaces _ _ _ _ (fun i c => proj1 (proj2 (createNode_frame i c))) H2) as S2.
  pose proof (copyAll_keeps _ tracker_namespaces _ _ _ _ (fun i c => proj1 (proj2 (createPod_frame i c))) H1) as S1.
  pose proof (copyAll_keeps _ tracker_priorityClasses _ _ _ _ (fun i c => proj2 (proj2 (createNamespace_frame i c))) H3) as C3.
  pose proof (copyAll_keeps _ tracker_priorityClasses _ _ _ _ (fun i c => proj2 (proj2 (createNode_frame i c))) H2) as C2.
  pose proof (copyAll_keeps _ tracker_priorityClasses _ _ _ _ (fun i c => proj2 (proj2 (createPod_frame i c))) H1) as C1.
  split; [|split; [|split]].
  - intros k p. rewrite P4, P3, P2, Hc1. simpl. rewrite lookup_empty. naive_solver.
  - intros k n. rewrite N4, N3, Hc2, N1. simpl. rewrite lookup_empty. naive_solver.
  - intros x. rewrite S4, Hc3, S2, S1. simpl. set_solver.
  - intros x. rewrite Hc4, C3, C2, C1. simpl. set_solver.
Qed.

(** X9.  [cachedClient] succeeds whenever the four listers succeed and
    return no two objects of a kind with the same key. *)
Theorem cachedClient_succeeds_without_duplicates
    (pods : list Pod) (nodes : list Node) (namespaces priorityClasses : list string) :
  NoDup (podKey <$> pods) -> NoDup (node_Name <$> nodes) ->
  NoDup namespaces -> NoDup priorityClasses ->
  exists fc, cachedClient (Ok pods) (Ok nodes) (Ok namespaces) (Ok priorityClasses) = Ok fc.
Proof.
  intros Hnd1 Hnd2 Hnd3 Hnd4.
  unfold cachedClient, mbind, Result_mbind, mret, Result_ret. simpl.
  pose proof (copy_pods "unable to copy pod" pods NewSimpleClientset) as Hpods.
  destruct (copyAll _ _ pods _) as [fc1|] eqn:H1;
    [|exfalso; apply Hpods; split; [assumption|intros; apply lookup_empty]].
  pose proof (copyAll_keeps _ tracker_nodes _ _ _ _ (fun i c => proj1 (createPod_frame i c)) H1) as N1.
  pose proof (copyAll_keeps _ tracker_namespaces _ _ _ _ (fun i c => proj1 (proj2 (createPod_frame i c))) H1) as S1.
  pose proof (copyAll_keeps _ tracker_priorityClasses _ _ _ _ (fun i c => proj2 (proj2 (createPod_frame i c))) H1) as C1.
  pose proof (copy_nodes "unable to copy node" nodes fc1) as Hnodes.
  destruct (copyAll createNode _ nodes fc1) as [fc2|] eqn:H2;
    [|exfalso; apply Hnodes; split; [assumption|intros; rewrite N1; apply lookup_empty]].
  pose proof (copyAll_keeps _ tracker_namespaces _ _ _ _ (fun i c => proj1 (proj2 (createNode_frame i c))) H2) as S2.
  pose proof (copyAll_keeps _ tracker_priorityClasses _ _ _ _ (fun i c => proj2 (proj2 (createNode_frame i c))) H2) as C2.
  pose proof (copy_namespaces "unable to copy node" namespaces fc2) as Hns.
  destruct (copyAll createNamespace _ namespaces fc2) as [fc3|] eqn:H3;
    [|exfalso; apply Hns; split; [assumption|intros; rewrite S2, S1; apply not_elem_of_empty]].
  pose proof (copyAll_keeps _ tracker_priorityClasses _ _ _ _ (fun i c => proj2 (proj2 (createNamespace_frame i c))) H3) as C3.
  pose proof (copy_priorityClasses "unable to copy priorityclass" priorityClasses fc3) as Hpc.
  destruct (copyAll createPriorityClass _ priorityClasses fc3) as [fc4|] eqn:H4;
    [|exfalso; apply Hpc; split; [assumption|intros; rewrite C3, C2, C1; apply not_elem_of_empty]].
  eauto.
Qed.

(** ** The tick *)

Lemma assignedTo_elem nodeName filter pods q :
  q ∈ assignedTo nodeName filter pods
  <-> q ∈ pods /\ pod_NodeName q = nodeName /\ filter q = true.
Proof.
  unfold assignedTo. rewrite list_elem_of_In, filter_In, <- list_elem_of_In.
  rewrite andb_true_iff, bool_decide_eq_true. reflexivity.
Qed.

Lemma assignedTo_NoDup nodeName filter pods :
  NoDup pods -> NoDup (assignedTo nodeName filter pods).
Proof.
  intros Hnd. apply NoDup_ListNoDup. apply List.NoDup_filter. apply NoDup_ListNoDup. exact Hnd.
Qed.

(** X10.  Through the index of a fresh fake client a node shows the same
    pods as the pods copied into it show, up to order. *)
Theorem snapshot_lists_what_the_cluster_holds
    (e : TickEnv) (pods : list Pod) (nodeLister : Result (list Node))
    (namespaceLister priorityClassLister : Result (list string)) (fc : FakeClientset)
    (nodeName : string) (filter : Pod -> bool) (realPods : list Pod) (pe : PodEvictor) :
  cachedClient (Ok pods) nodeLister namespaceLister priorityClassLister = Ok fc ->
  e_indexErr e nodeName = None ->
  exists listed,
    podsAssignedToNode e FakeIndex nodeName filter (mkWorld realPods fc pe) = Ok listed
    /\ listed ≡ₚ assignedTo nodeName filter pods.
Proof.
  intros Hcc Hidx.
  apply cachedClient_tracker_pods in Hcc as [Hnd Hcontent].
  unfold podsAssignedToNode. rewrite Hidx. simpl. eexists. split; [reflexivity|].
  assert (NoDup pods) as Hndp by (eapply NoDup_fmap_1; exact Hnd).
  assert (forall q, q ∈ (map_to_list (tracker_pods fc)).*2 <-> q ∈ pods) as Hmem.
  { intros q. rewrite list_elem_of_fmap. split.
    - intros ([k p] & -> & Hin). apply elem_of_map_to_list in Hin. apply Hcontent in Hin.
      apply Hin.
    - intros Hin. exists (podKey q, q). split; [reflexivity|].
      apply elem_of_map_to_list, Hcontent. auto. }
  assert (NoDup (map_to_list (tracker_pods fc)).*2) as Hndl.
  { apply (NoDup_fmap_1 podKey).
    replace (podKey <$> (map_to_list (tracker_pods fc)).*2)
      with ((map_to_list (tracker_pods fc)).*1); [apply NoDup_fst_map_to_list|].
    rewrite <- list_fmap_compose. apply Forall_fmap_ext_1, Forall_forall.
    intros [k p] Hin. apply elem_of_map_to_list, Hcontent in Hin. simpl. symmetry. apply Hin. }
  apply NoDup_Permutation; [apply assignedTo_NoDup; exact Hndl|apply assignedTo_NoDup; exact Hndp|].
  intros q. rewrite !assignedTo_elem, Hmem. reflexivity.
Qed.

Section TickExtras.
Context (rs : DeschedulerServer) (deschedulerPolicy : DeschedulerPolicy)
        (evictionPolicyGroupVersion : string).

Abbreviation tick := (tick rs deschedulerPolicy evictionPolicyGroupVersion).
Abbreviation endsInDryRunSetup := (endsInDryRunSetup rs deschedulerPolicy).
Abbreviation nodeSelector := (nodeSelector deschedulerPolicy).

(** X11.  A tick returns out of the dry-run branch exactly when the cluster
    size is safe, the run is a dry run and the fake client or its index
    cannot be built.  Such a tick runs no strategy, lists and evicts
    nothing, and leaves the stop channel as it was: the next tick follows
    even when the interval is zero. *)
Theorem dry_run_setup_failure_keeps_the_schedule strategyList e ls :
  (endsInDryRunSetup e ls = true <->
   unsafeClusterSize (e_readyNodes e nodeSelector) = false
   /\ DryRun rs = true
   /\ (is_Some (e_fakeIndexErr e)
       \/ is_Err (cachedClient
                    (match e_podListErr e with Some err => Err err | None => Ok (e_pods e) end)
                    (e_nodes e) (e_namespaces e) (e_priorityClasses e)) = true))
  /\ (endsInDryRunSetup e ls = true ->
      stopChannelClosed (tick strategyList e ls).1 = stopChannelClosed ls
      /\ strategyEvents (t_trace (tick strategyList e ls).2) = []
      /\ listings (t_trace (tick strategyList e ls).2) = []
      /\ evictCalls (t_trace (tick strategyList e ls).2) = []
      /\ t_podsAfter (tick strategyList e ls).2 = e_pods e
      /\ (stopChannelClosed ls = false -> e_cancelled e = false ->
          forall e2 rest, e_cancelled e2 = false ->
          (2 <= length (NonSlidingUntil (tick strategyList) (e :: e2 :: rest) ls).2)%nat)).
Proof.
  unfold_endsInDryRunSetup. unfold dryRunSetup. split.
  - destruct (unsafeClusterSize _); simpl; [naive_solver|].
    destruct (DryRun rs); [|naive_solver].
    destruct (cachedClient _ _ _ _); simpl; [|naive_solver].
    destruct (e_fakeIndexErr e); [naive_solver|]. split; [discriminate|].
    intros (_ & _ & [[? ?]|?]); discriminate.
  - intros Hd.
    assert (stopChannelClosed (tick strategyList e ls).1 = stopChannelClosed ls
            /\ exists log, (tick strategyList e ls).2 = mkTickReport log (e_pods e)
                 /\ forallb (fun ev => match ev with EvLog _ _ => true | _ => false end) log
                    = true) as (Hstop & log & Hrep & Hlog).
    { revert Hd. unfold_tick. unfold dryRunSetup.
      destruct (e_readyNodes e nodeSelector) as [nodes|]; [|discriminate]. simpl.
      destruct (length nodes <=? 1)%nat; [discriminate|]. simpl.
      destruct (DryRun rs); [|discriminate].
      destruct (cachedClient _ _ _ _); [|intros _; split; [reflexivity|eexists; eauto]].
      destruct (e_fakeIndexErr e); [|discriminate].
      intros _. split; [reflexivity|eexists; eauto]. }
    rewrite Hrep. simpl.
    assert (strategyEvents log = [] /\ listings log = [] /\ evictCalls log = []) as (? & ? & ?).
    { clear Hrep. induction log as [|ev log IH]; [auto|]. simpl in Hlog.
      apply andb_prop in Hlog as [Hev Hlog]. destruct ev; try discriminate.
      destruct (IH Hlog) as (? & ? & ?). auto. }
    repeat (split; [assumption|]). split; [reflexivity|].
    intros Hopen Hc e2 rest Hc2. simpl. rewrite Hopen, Hc.
    destruct (tick strategyList e ls) as [ls' report]. simpl in *. rewrite Hstop, Hopen, Hc2.
    destruct (tick strategyList e2 ls') as [ls2 report2].
    destruct (NonSlidingUntil (tick strategyList) rest ls2) as [[o l] r]. simpl. lia.
Qed.

Lemma runStrategies_disabled e fn strategyList nodes w :
  Forall (fun s => Enabled s = false) strategyList ->
  runStrategies e fn strategyList nodes w = (w, (fun s => EvSkip (Name s)) <$> strategyList).
Proof.
  induction 1 as [|s rest Hs _ IH]; simpl; [reflexivity|]. rewrite Hs, IH. reflexivity.
Qed.

(** X12.  A tick whose strategies are all disabled lists no pods, evicts
    none and leaves the pods of the cluster as they were. *)
Theorem disabled_strategies_have_no_effect strategyList e ls :
  Forall (fun s => Enabled s = false) strategyList ->
  listings (t_trace (tick strategyList e ls).2) = []
  /\ evictCalls (t_trace (tick strategyList e ls).2) = []
  /\ t_podsAfter (tick strategyList e ls).2 = e_pods e.
Proof.
  intros Hall.
  assert (forall l : list Strategy, listings ((fun s => EvSkip (Name s)) <$> l) = []
                                    /\ evictCalls ((fun s => EvSkip (Name s)) <$> l) = [])
    as Hskip by (induction l as [|? ? [? ?]]; auto).
  assert (forall log, forallb (fun ev => match ev with EvLog _ _ => true | _ => false end) log
                      = true -> listings log = [] /\ evictCalls log = []) as Hlogs.
  { induction log as [|ev log IH]; [auto|]. simpl. intros Hl.
    apply andb_prop in Hl as [Hev Hl]. destruct ev; try discriminate. auto. }
  unfold_tick. destruct (e_readyNodes e nodeSelector) as [nodes|]; [|auto].
  destruct (length nodes <=? 1)%nat; [auto|].
  unfold dryRunSetup. destruct (DryRun rs).
  - destruct (cachedClient _ _ _ _); [|auto].
    destruct (e_fakeIndexErr e); [auto|].
    rewrite runStrategies_disabled by assumption. simpl.
    rewrite !listings_app, !evictCalls_app. destruct (Hskip strategyList) as [-> ->]. auto.
  - rewrite runStrategies_disabled by assumption. simpl.
    rewrite !listings_app, !evictCalls_app. destruct (Hskip strategyList) as [-> ->]. auto.
Qed.
End TickExtras.

(** ** The strategy list and the run *)

Section InitExtras.
Context `{Packages} `{StrategyPackages}.

(** X13.  [initializeStratagies] succeeds exactly when each of the ten
    constructors does, and its list is their results in the order of the
    calls. *)
Theorem initializeStratagies_keeps_the_order (strategyList : StrategyList)
    (stats : list Strategy) :
  initializeStratagies strategyList = Ok stats <->
  exists s1 s2 s3 s4 s5 t s7 s8 s9 s10,
    NewRemoveDuplicatesStrategy strategyList = Ok s1
    /\ NewLowNodeUtilizationStrategy strategyList = Ok s2
    /\ NewHighNodeUtilizationStrategy strategyList = Ok s3
    /\ NewRemovePodsViolatingInterPodAntiAffinityStrategy strategyList = Ok s4
    /\ NewRemovePodsViolatingNodeAffinityStrategy strategyList = Ok s5
    /\ NodeTaint.NewRemovePodsViolatingNodeTaintsStrategy strategyList = Ok t
    /\ NewRemovePodsHavingTooManyRestartsStrategy strategyList = Ok s7
    /\ NewPodLifeTimeStrategy strategyList = Ok s8
    /\ NewRemovePodsViolatingTopologySpreadConstraintStrategy strategyList = Ok s9
    /\ NewRemoveFailedPodsStrategy strategyList = Ok s10
    /\ stats = [s1; s2; s3; s4; s5; NodeTaint.asStrategy t; s7; s8; s9; s10].
Proof.
  unfold initializeStratagies, mbind, Result_mbind, mret, Result_ret. split.
  - destruct (NewRemoveDuplicatesStrategy strategyList); [|discriminate].
    destruct (NewLowNodeUtilizationStrategy strategyList); [|discriminate].
    destruct (NewHighNodeUtilizationStrategy strategyList); [|discriminate].
    destruct (NewRemovePodsViolatingInterPodAntiAffinityStrategy strategyList); [|discriminate].
    destruct (NewRemovePodsViolatingNodeAffinityStrategy strategyList); [|discriminate].
    destruct (NodeTaint.NewRemovePodsViolatingNodeTaintsStrategy strategyList); [|discriminate].
    destruct (NewRemovePodsHavingTooManyRestartsStrategy strategyList); [|discriminate].
    destruct (NewPodLifeTimeStrategy strategyList); [|discriminate].
    destruct (NewRemovePodsViolatingTopologySpreadConstraintStrategy strategyList);
      [|discriminate].
    destruct (NewRemoveFailedPodsStrategy strategyList); [|discriminate].
    intros Heq. inversion Heq; subst. do 10 eexists. repeat (split; [reflexivity|]). reflexivity.
  - intros (s1 & s2 & s3 & s4 & s5 & t & s7 & s8 & s9 & s10
            & -> & -> & -> & -> & -> & -> & -> & -> & -> & -> & ->). reflexivity.
Qed.

Context (rs : DeschedulerServer) (deschedulerPolicy : DeschedulerPolicy)
        (evictionPolicyGroupVersion : string).

Abbreviation RunDeschedulerStrategies :=
  (RunDeschedulerStrategies rs deschedulerPolicy evictionPolicyGroupVersion).

Lemma NonSlidingUntil_reports f envs ls :
  (length (NonSlidingUntil f envs ls).2 <= length envs)%nat.
Proof.
  revert ls. induction envs as [|e envs IH]; intros ls; simpl.
  - destruct (stopChannelClosed ls); simpl; lia.
  - destruct (stopChannelClosed ls); [simpl; lia|].
    destruct (e_cancelled e); [simpl; lia|].
    destruct (f e ls) as [ls' report]. specialize (IH ls').
    destruct (NonSlidingUntil f envs ls') as [[o l] r]. simpl in *. lia.
Qed.

(** X14.  [RunDeschedulerStrategies] returns an error exactly when the
    index of the pod informer cannot be built, and the error is then that
    cause behind the function's own words, or the strategy list cannot be
    initialised, and the error is then that of [initializeStratagies]; it
    has then made no tick.  It never makes more ticks than the environment
    has turns. *)
Theorem run_errors_come_before_the_first_tick (buildIndexErr : option string)
    (envs : list TickEnv) (err : string) :
  ((RunDeschedulerStrategies buildIndexErr envs).1 = Returned (Some err) <->
   (exists cause, buildIndexErr = Some cause
      /\ err = ("build get pods assigned to node function error: " ++ cause)%string)
   \/ (buildIndexErr = None /\ initializeStratagies (Strategies deschedulerPolicy) = Err err))
  /\ ((RunDeschedulerStrategies buildIndexErr envs).1 = Returned (Some err) ->
      (RunDeschedulerStrategies buildIndexErr envs).2 = [])
  /\ (length (RunDeschedulerStrategies buildIndexErr envs).2 <= length envs)%nat.
Proof.
  unfold_RunDeschedulerStrategies. destruct buildIndexErr as [e0|]; simpl.
  - split; [|split; [reflexivity|lia]]. split.
    + intros Heq. inversion Heq. left. eauto.
    + intros [(cause & Hc & ->)|[? _]]; [|discriminate]. inversion Hc. reflexivity.
  - destruct (initializeStratagies (Strategies deschedulerPolicy)) as [sl|msg]; simpl.
    + pose proof (NonSlidingUntil_reports
                    (tick rs deschedulerPolicy evictionPolicyGroupVersion sl) envs firstLoopState)
        as Hlen.
      destruct (NonSlidingUntil _ envs firstLoopState) as [[[] l] r]; simpl in *.
      * split; [|split; [discriminate|exact Hlen]]. split; [discriminate|].
        intros [(? & ? & _)|[_ ?]]; discriminate.
      * split; [|split; [discriminate|exact Hlen]]. split; [discriminate|].
        intros [(? & ? & _)|[_ ?]]; discriminate.
    + split; [|split; [reflexivity|lia]]. split.
      * intros Heq. inversion Heq. right. auto.
      * intros [(? & ? & _)|[_ Heq]]; [discriminate|]. inversion Heq. reflexivity.
Qed.

End InitExtras.

Section RunTopLevel.
Context `{Packages} `{StrategyPackages}.
Context (rs : DeschedulerServer).

(** X15.  [Run] reaches a tick only with a client, a non-nil policy and a
    non-empty eviction group version, and is then
    [RunDeschedulerStrategies]; with an empty version and no error it
    returns nil without a tick; a nil policy is an error. *)
Theorem Run_needs_client_policy_and_eviction_support
    (createClient : Result unit) (loadPolicyConfig : Result (option DeschedulerPolicy))
    (supportEviction : Result string) (buildIndexErr : option string) (envs : list TickEnv) :
  ((Descheduler.Run createClient loadPolicyConfig supportEviction rs buildIndexErr envs).2 <> [] ->
   exists policy version,
     createClient = Ok tt /\ loadPolicyConfig = Ok (Some policy)
     /\ supportEviction = Ok version /\ version <> ""
     /\ Descheduler.Run createClient loadPolicyConfig supportEviction rs buildIndexErr envs
        = RunDeschedulerStrategies rs policy version buildIndexErr envs)
  /\ (forall policy, createClient = Ok tt -> loadPolicyConfig = Ok (Some policy) ->
      supportEviction = Ok "" ->
      Descheduler.Run createClient loadPolicyConfig supportEviction rs buildIndexErr envs
      = (Returned None, []))
  /\ (createClient = Ok tt -> loadPolicyConfig = Ok None ->
      Descheduler.Run createClient loadPolicyConfig supportEviction rs buildIndexErr envs
      = (Returned (Some "deschedulerPolicy is nil"), [])).
Proof.
  unfold Descheduler.Run. split; [|split].
  - destruct createClient as [[]|]; [|intros Hne; contradiction].
    destruct loadPolicyConfig as [[policy|]|]; try (intros Hne; contradiction).
    destruct supportEviction as [version|]; [|intros Hne; contradiction].
    destruct version as [|c version]; simpl; [intros Hne; contradiction|].
    intros _. exists policy, (String c version). repeat split. discriminate.
  - intros policy -> -> ->. reflexivity.
  - intros -> ->. reflexivity.
Qed.
End RunTopLevel.

(** ** The argument validations *)


Lemma omap_id_nil (errors : list (option string)) :
  omap id errors = [] <-> Forall (fun e => e = None) errors.
Proof.
  induction errors as [|[m|] errors IH].
  - split; [constructor|reflexivity].
  - change (omap id (Some m :: errors)) with (m :: omap id errors).
    split; [discriminate|]. intros Hall. inversion Hall; discriminate.
  - change (omap id (None :: errors)) with (omap id errors). rewrite IH. split.
    + intros Hall. constructor; [reflexivity|exact Hall].
    + intros Hall. inversion Hall; assumption.
Qed.

Lemma errorsAggregate_None errors :
  errorsAggregate errors = None <-> Forall (fun e => e = None) errors.
Proof.
  unfold errorsAggregate. rewrite <- omap_id_nil. destruct (omap id errors); split; congruence.
Qed.

(** X16.  [errorsAggregate] returns nil exactly when every error is nil;
    otherwise it holds the non-nil errors, and only them. *)
Theorem errorsAggregate_nil_iff_all_nil (errors : list (option string)) :
  (errorsAggregate errors = None <-> Forall (fun e => e = None) errors)
  /\ (forall msgs, errorsAggregate errors = Some msgs ->
      msgs <> [] /\ forall m, m ∈ msgs <-> Some m ∈ errors).
Proof.
  split; [apply errorsAggregate_None|].
  unfold errorsAggregate.
  - intros msgs Heq.
    assert (msgs = omap id errors /\ msgs <> []) as [-> Hne]
      by (destruct (omap id errors); [discriminate|split; congruence]).
    split; [exact Hne|].
    intros m. rewrite list_elem_of_omap. split.
    + intros (x & Hin & Hx). destruct x; simpl in Hx; inversion Hx; subst. exact Hin.
    + intros Hin. exists (Some m). auto.
Qed.

Lemma validateNamespaceArgs_None namespaces :
  validateNamespaceArgs namespaces = None <-> atMostOneNamespaceSet namespaces.
Proof.
  unfold validateNamespaceArgs, atMostOneNamespaceSet.
  destruct namespaces as [ns|]; [|split; [intros _ ? ?; discriminate|reflexivity]].
  destruct (Include ns) eqn:Hi; simpl.
  - split; [intros _ ? Heq; inversion Heq; subst; auto|reflexivity].
  - destruct (Exclude ns) eqn:He; simpl.
    + split; [intros _ ? Heq; inversion Heq; subst; auto|reflexivity].
    + split; [discriminate|]. intros Hns. destruct (Hns ns eq_refl); congruence.
Qed.

(** X17.  [validateNamespaceArgs], and with it
    [ValidateRemoveDuplicatesArgs], accept exactly the arguments with at most
    one non-empty namespace set. *)
Theorem namespace_args_valid_iff (namespaces : option Namespaces) (args : RemoveDuplicatesArgs) :
  (validateNamespaceArgs namespaces = None <-> atMostOneNamespaceSet namespaces)
  /\ (ValidateRemoveDuplicatesArgs args = None <-> atMostOneNamespaceSet (rd_Namespaces args)).
Proof.
  split.
  - apply validateNamespaceArgs_None.
  - unfold ValidateRemoveDuplicatesArgs. apply validateNamespaceArgs_None.
Qed.

Lemma validatePodRestartThreshold_None threshold :
  validatePodRestartThreshold threshold = None <-> (1 <= threshold)%Z.
Proof.
  unfold validatePodRestartThreshold. destruct (Z.ltb_spec threshold 1); split;
    try discriminate; try reflexivity; lia.
Qed.

(** X18.  [validatePodLifeTimeStates] accepts exactly the lists of states
    drawn from Running, Pending, PodInitializing and ContainerCreating; the
    empty list among them. *)
Theorem pod_life_time_states_valid_iff (states : list string) :
  validatePodLifeTimeStates states = None <->
  forall s, s ∈ states ->
    s = "Running" \/ s = "Pending" \/ s = "PodInitializing" \/ s = "ContainerCreating".
Proof.
  unfold validatePodLifeTimeStates.
  assert (forall s, s ∈ podLifeTimeAllowedStates <->
            s = "Running" \/ s = "Pending" \/ s = "PodInitializing" \/ s = "ContainerCreating")
    as Hmem.
  { intros s. unfold podLifeTimeAllowedStates. rewrite elem_of_list_to_set.
    rewrite !elem_of_cons. rewrite elem_of_nil. naive_solver. }
  destruct (forallb _ states) eqn:Hall; simpl.
  - split; [|reflexivity]. intros _ s Hin. apply Hmem.
    rewrite forallb_forall in Hall. specialize (Hall s).
    rewrite <- list_elem_of_In in Hall. specialize (Hall Hin).
    apply bool_decide_eq_true in Hall. exact Hall.
  - split; [discriminate|]. intros Hok. exfalso.
    assert (forallb (fun s => bool_decide (s ∈ podLifeTimeAllowedStates)) states = true);
      [|congruence].
    apply forallb_forall. intros s Hin. apply bool_decide_eq_true_2, Hmem, Hok.
    apply list_elem_of_In. exact Hin.
Qed.

Section ValidationExtras.
Context `{Packages}.

Lemma validateLabelSelectorArgs_None labelSelector :
  validateLabelSelectorArgs labelSelector = None <-> selectorConverts labelSelector.
Proof.
  unfold validateLabelSelectorArgs, selectorConverts.
  destruct labelSelector as [sel|]; [|split; [intros _ ? ?; discriminate|reflexivity]].
  destruct (LabelSelectorAsSelector sel) eqn:Hs.
  - split; [|reflexivity]. intros _ s Heq. inversion Heq; subst. rewrite Hs. reflexivity.
  - split; [discriminate|]. intros Hc. specialize (Hc sel eq_refl). rewrite Hs in Hc.
    discriminate.
Qed.

Lemma ValidateRemovePodsViolatingNodeTaintsArgs_None args :
  ValidateRemovePodsViolatingNodeTaintsArgs args = None <->
  atMostOneNamespaceSet (args_Namespaces args) /\ selectorConverts (args_LabelSelector args).
Proof.
  unfold ValidateRemovePodsViolatingNodeTaintsArgs.
  rewrite errorsAggregate_None, !Forall_cons, Forall_nil.
  rewrite validateNamespaceArgs_None, validateLabelSelectorArgs_None. tauto.
Qed.

(** X19.  [ValidateRemovePodsViolatingNodeTaintsArgs] and
    [ValidateRemoveFailedPodsArgs] accept exactly the arguments with at most
    one non-empty namespace set and a label selector that converts. *)
Theorem two_field_validations_valid_iff (taints : RemovePodsViolatingNodeTaintsArgs)
    (failed : RemoveFailedPodsArgs) :
  (ValidateRemovePodsViolatingNodeTaintsArgs taints = None <->
   atMostOneNamespaceSet (args_Namespaces taints) /\ selectorConverts (args_LabelSelector taints))
  /\ (ValidateRemoveFailedPodsArgs failed = None <->
      atMostOneNamespaceSet (rfp_Namespaces failed)
      /\ selectorConverts (rfp_LabelSelector failed)).
Proof.
  split; [apply ValidateRemovePodsViolatingNodeTaintsArgs_None|].
  unfold ValidateRemoveFailedPodsArgs.
  rewrite errorsAggregate_None, !Forall_cons, Forall_nil.
  rewrite validateNamespaceArgs_None, validateLabelSelectorArgs_None. tauto.
Qed.

(** X20.  [ValidateRemovePodsHavingTooManyRestartsArgs] accepts exactly the
    arguments with at most one non-empty namespace set, a label selector
    that converts and a restart threshold of at least one. *)
Theorem too_many_restarts_args_valid_iff (args : RemovePodsHavingTooManyRestartsArgs) :
  ValidateRemovePodsHavingTooManyRestartsArgs args = None <->
  atMostOneNamespaceSet (tmr_Namespaces args)
  /\ selectorConverts (tmr_LabelSelector args)
  /\ (1 <= tmr_PodRestartThreshold args)%Z.
Proof.
  unfold ValidateRemovePodsHavingTooManyRestartsArgs.
  rewrite errorsAggregate_None, !Forall_cons, Forall_nil.
  rewrite validateNamespaceArgs_None, validateLabelSelectorArgs_None,
    validatePodRestartThreshold_None. tauto.
Qed.

(** X21.  [ValidatePodLifeTimeArgs] accepts exactly the arguments with a
    maximum life time set, at most one non-empty namespace set, a label
    selector that converts and allowed states. *)
Theorem pod_life_time_args_valid_iff (args : PodLifeTimeArgs) :
  ValidatePodLifeTimeArgs args = None <->
  is_Some (plt_MaxPodLifeTimeSeconds args)
  /\ atMostOneNamespaceSet (plt_Namespaces args)
  /\ selectorConverts (plt_LabelSelector args)
  /\ validatePodLifeTimeStates (plt_States args) = None.
Proof.
  unfold ValidatePodLifeTimeArgs.
  rewrite errorsAggregate_None, !Forall_cons, Forall_nil.
  rewrite validateNamespaceArgs_None, validateLabelSelectorArgs_None.
  destruct (plt_MaxPodLifeTimeSeconds args); split.
  - intros (_ & ? & ? & ? & _). eauto.
  - tauto.
  - intros (? & _). discriminate.
  - intros ([? ?] & _). discriminate.
Qed.

(** X22.  [ValidateRemovePodsViolatingNodeAffinityArgs] panics on nil
    arguments, although it tests for them; on given arguments it accepts
    exactly those with a node affinity type, at most one non-empty namespace
    set and a label selector that converts. *)
Theorem node_affinity_args_nil_panics (args : RemovePodsViolatingNodeAffinityArgs) :
  ValidateRemovePodsViolatingNodeAffinityArgs None = Panics
  /\ exists result,
       ValidateRemovePodsViolatingNodeAffinityArgs (Some args) = Returns result
       /\ (result = None <->
           na_NodeAffinityType args <> []
           /\ atMostOneNamespaceSet (na_Namespaces args)
           /\ selectorConverts (na_LabelSelector args)).
Proof.
  split; [reflexivity|]. unfold ValidateRemovePodsViolatingNodeAffinityArgs.
  eexists. split; [reflexivity|].
  rewrite errorsAggregate_None, !Forall_cons, Forall_nil.
  rewrite validateNamespaceArgs_None, validateLabelSelectorArgs_None.
  destruct (na_NodeAffinityType args); simpl; split.
  - intros (? & _). discriminate.
  - intros (? & _). contradiction.
  - intros (_ & ? & ? & _). repeat split; [discriminate|assumption..].
  - tauto.
Qed.

(** X23.  The plugin wiring of the taint strategy panics on nil parameters,
    which the strategy's own validation accepts.  On given parameters it
    returns, and gets past its validation to the construction of the plugin
    exactly when at most one namespace set is non-empty and the label
    selector converts; it hands on the namespaces, the selector, the
    PreferNoSchedule flag and the excluded taints, and never reads the two
    thresholds or the node-fit flag.  Of the parameters the strategy's own
    validation accepts, the nil ones panic here and the given ones get past
    this validation when their selector converts. *)
Theorem plugin_wiring_reads_four_fields (params : StrategyParameters) :
  (RemovePodsViolatingNodeTaints2plugin None = Panics
   /\ validateRemovePodsViolatingNodeTaintsParams None = None)
  /\ (exists result,
        RemovePodsViolatingNodeTaints2plugin (Some params) = Returns result
        /\ (is_Err result = false <->
            atMostOneNamespaceSet (params_Namespaces params)
            /\ selectorConverts (params_LabelSelector params))
        /\ (forall args, result = Ok args ->
            args = mkRemovePodsViolatingNodeTaintsArgs
                     (params_Namespaces params) (params_LabelSelector params)
                     (params_IncludePreferNoSchedule params) (params_ExcludedTaints params)))
  /\ (forall thresholdPriority thresholdPriorityClassName nodeFit,
      RemovePodsViolatingNodeTaints2plugin
        (Some (mkStrategyParameters (params_Namespaces params) (params_LabelSelector params)
                 thresholdPriority thresholdPriorityClassName nodeFit
                 (params_IncludePreferNoSchedule params) (params_ExcludedTaints params)))
      = RemovePodsViolatingNodeTaints2plugin (Some params))
  /\ (forall accepted : option StrategyParameters,
      validateRemovePodsViolatingNodeTaintsParams accepted = None ->
      match accepted with
      | None => RemovePodsViolatingNodeTaints2plugin accepted = Panics
      | Some given =>
        selectorConverts (params_LabelSelector given) ->
        exists args, RemovePodsViolatingNodeTaints2plugin accepted = Returns (Ok args)
      end).
Proof.
  assert (forall given,
            atMostOneNamespaceSet (params_Namespaces given)
            /\ selectorConverts (params_LabelSelector given) <->
            ValidateRemovePodsViolatingNodeTaintsArgs
              (mkRemovePodsViolatingNodeTaintsArgs
                 (params_Namespaces given) (params_LabelSelector given)
                 (params_IncludePreferNoSchedule given) (params_ExcludedTaints given)) = None)
    as Hvalid.
  { intros given. rewrite ValidateRemovePodsViolatingNodeTaintsArgs_None. reflexivity. }
  split; [split; reflexivity|]. split; [|split].
  - unfold RemovePodsViolatingNodeTaints2plugin. cbv zeta. generalize (Hvalid params).
    destruct (ValidateRemovePodsViolatingNodeTaintsArgs _) as [errs|]; intros Hp; eexists;
      (split; [reflexivity|]); simpl.
    + split; [|discriminate]. split; [discriminate|]. intros Hok. apply Hp in Hok.
      discriminate.
    + split; [|intros args Heq; inversion Heq; reflexivity].
      split; [intros _; apply Hp|]; reflexivity.
  - intros. reflexivity.
  - intros [given|] Hv; [|reflexivity]. intros Hsel.
    assert (atMostOneNamespaceSet (params_Namespaces given)) as Hns.
    { apply validateNamespaceArgs_None. revert Hv.
      unfold validateRemovePodsViolatingNodeTaintsParams, validateNamespaceArgs.
      destruct (params_Namespaces given) as [ns|]; [|reflexivity].
      destruct ((0 <? length (Include ns))%nat && (0 <? length (Exclude ns))%nat);
        [discriminate|reflexivity]. }
    unfold RemovePodsViolatingNodeTaints2plugin. cbv zeta.
    rewrite (proj1 (Hvalid given) (conj Hns Hsel)). eauto.
Qed.
End ValidationExtras.

(** ** Instances of the further properties on the examples *)

Lemma taint_constructor_reads_own_entry_witness :
  NodeTaint.NewRemovePodsViolatingNodeTaintsStrategy onlyDuplicatesDisabled = Err ""
  /\ NodeTaint.NewRemovePodsViolatingNodeTaintsStrategy allStrategies
     = Ok (NodeTaint.mkTaintStrategy enabled None)
  /\ NodeTaint.NewRemovePodsViolatingNodeTaintsStrategy
       (<["PodLifeTime" := enabled]> onlyDuplicatesDisabled)
     = NodeTaint.NewRemovePodsViolatingNodeTaintsStrategy onlyDuplicatesDisabled.
Proof.
  split; [|split].
  - apply (proj1 (taint_constructor_reads_own_entry onlyDuplicatesDisabled)).
    vm_compute. reflexivity.
  - apply (proj1 (proj2 (taint_constructor_reads_own_entry allStrategies)) enabled).
    vm_compute. reflexivity.
  - apply (proj2 (proj2 (taint_constructor_reads_own_entry onlyDuplicatesDisabled))
             "PodLifeTime" enabled).
    discriminate.
Defined.

Lemma Run_setup_failure_makes_no_call_witness :
  interp (tickHandler calm LiveIndex)
    (@NodeTaint.Run More.noPriority None enabled [n1; n2] config) world
  = (tt, world, [EvLog Error "Failed to get threshold priority from strategy's params"]).
Proof.
  apply (proj1 (@Run_setup_failure_makes_no_call World (tickHandler calm LiveIndex)
                  More.noPriority None enabled [n1; n2] config world));
    reflexivity.
Defined.

Lemma eviction_deletes_exactly_that_pod_witness :
  (Invokes (CreateEviction "default" "p1") More.fourPods).1 = None
  /\ tracker_pods (Invokes (CreateEviction "default" "p1") More.fourPods).2
     = delete ("default", "p1") (tracker_pods More.fourPods)
  /\ is_Some (Invokes (CreateEviction "default" "p9") More.fourPods).1.
Proof.
  destruct (eviction_deletes_exactly_that_pod More.fourPods "default" "p1") as [Hin _].
  destruct (eviction_deletes_exactly_that_pod More.fourPods "default" "p9") as [_ Hout].
  destruct Hin as (Herr & Hpods & _).
  { exists p1. vm_compute. reflexivity. }
  split; [exact Herr|]. split; [exact Hpods|].
  apply Hout. vm_compute. reflexivity.
Defined.

Lemma cachedClient_holds_what_the_listers_return_witness :
  exists fc,
    cachedClient (Ok [p1; p2; p3; p4]) (Ok [n1; n2]) (Ok ["default"]) (Ok []) = Ok fc
    /\ (forall k p, tracker_pods fc !! k = Some p <-> p ∈ [p1; p2; p3; p4] /\ podKey p = k)
    /\ (forall x, x ∈ tracker_namespaces fc <-> x ∈ ["default"]).
Proof.
  assert (exists fc, cachedClient (Ok [p1; p2; p3; p4]) (Ok [n1; n2]) (Ok ["default"]) (Ok [])
                     = Ok fc) as [fc Hfc].
  { eexists. vm_compute. reflexivity. }
  exists fc. split; [exact Hfc|].
  destruct (cachedClient_holds_what_the_listers_return _ _ _ _ fc Hfc)
    as (pods & nodes & namespaces & priorityClasses & Hp & _ & Hn & _ & _ & _ & _ & _
        & Hpods & _ & Hnss & _).
  injection Hp as <-. injection Hn as <-. split; [exact Hpods|exact Hnss].
Defined.

Lemma cachedClient_succeeds_without_duplicates_witness :
  exists fc, cachedClient (Ok [p1; p2; p3; p4]) (Ok [n1; n2]) (Ok ["default"]) (Ok []) = Ok fc.
Proof.
  apply cachedClient_succeeds_without_duplicates.
  - apply (bool_decide_unpack _). vm_compute. exact I.
  - apply (bool_decide_unpack _). vm_compute. exact I.
  - apply (bool_decide_unpack _). vm_compute. exact I.
  - apply NoDup_nil_2.
Defined.

Lemma snapshot_lists_what_the_cluster_holds_witness :
  exists fc listed,
    cachedClient (Ok [p1; p2; p3; p4]) (Ok [n1; n2]) (Ok ["default"]) (Ok []) = Ok fc
    /\ podsAssignedToNode calm FakeIndex "n1" (fun _ => true)
         (mkWorld [] fc (NewPodEvictor config)) = Ok listed
    /\ listed ≡ₚ [p1; p2; p3].
Proof.
  assert (exists fc, cachedClient (Ok [p1; p2; p3; p4]) (Ok [n1; n2]) (Ok ["default"]) (Ok [])
                     = Ok fc) as [fc Hfc].
  { eexists. vm_compute. reflexivity. }
  destruct (snapshot_lists_what_the_cluster_holds calm _ _ _ _ fc "n1" (fun _ => true) []
              (NewPodEvictor config) Hfc eq_refl) as (listed & Hl & Hperm).
  exists fc, listed. split; [exact Hfc|]. split; [exact Hl|exact Hperm].
Defined.

Lemma dry_run_setup_failure_keeps_the_schedule_witness :
  stopChannelClosed (tick dryOnce (policyOf allStrategies) "policy/v1" tenStrategies
                       More.listerFails firstLoopState).1 = false
  /\ t_podsAfter (tick dryOnce (policyOf allStrategies) "policy/v1" tenStrategies
                    More.listerFails firstLoopState).2 = [p1; p2; p3; p4]
  /\ (2 <= length (NonSlidingUntil
                     (tick dryOnce (policyOf allStrategies) "policy/v1" tenStrategies)
                     [More.listerFails; calm] firstLoopState).2)%nat.
Proof.
  destruct (proj2 (dry_run_setup_failure_keeps_the_schedule dryOnce (policyOf allStrategies)
                     "policy/v1" tenStrategies More.listerFails firstLoopState))
    as (Hstop & _ & _ & _ & Hpods & Hnext).
  { vm_compute. reflexivity. }
  split; [exact Hstop|]. split; [exact Hpods|].
  apply Hnext; reflexivity.
Defined.

Lemma disabled_strategies_have_no_effect_witness :
  listings (t_trace (tick once (policyOf allStrategies) "policy/v1" More.allDisabled calm
                       firstLoopState).2) = []
  /\ evictCalls (t_trace (tick once (policyOf allStrategies) "policy/v1" More.allDisabled calm
                            firstLoopState).2) = []
  /\ t_podsAfter (tick once (policyOf allStrategies) "policy/v1" More.allDisabled calm
                    firstLoopState).2 = [p1; p2; p3; p4].
Proof.
  apply (disabled_strategies_have_no_effect once (policyOf allStrategies) "policy/v1"
           More.allDisabled calm firstLoopState).
  repeat constructor.
Defined.

Lemma run_errors_come_before_the_first_tick_witness :
  (@RunDeschedulerStrategies packages strategies once (policyOf onlyDuplicatesDisabled)
     "policy/v1" None [calm]).2 = [].
Proof.
  apply (proj1 (proj2 (@run_errors_come_before_the_first_tick packages strategies once
                         (policyOf onlyDuplicatesDisabled) "policy/v1" None [calm] ""))).
  apply (proj1 (@run_errors_come_before_the_first_tick packages strategies once
                  (policyOf onlyDuplicatesDisabled) "policy/v1" None [calm] "")).
  right. split; [reflexivity|]. vm_compute. reflexivity.
Defined.

Lemma Run_needs_client_policy_and_eviction_support_witness :
  @Descheduler.Run packages strategies (Ok tt) (Ok (Some (policyOf allStrategies))) (Ok "")
    once None [calm] = (Returned None, [])
  /\ @Descheduler.Run packages strategies (Ok tt) (Ok None) (Ok "policy/v1")
       once None [calm] = (Returned (Some "deschedulerPolicy is nil"), []).
Proof.
  split.
  - apply (proj1 (proj2 (@Run_needs_client_policy_and_eviction_support packages strategies once
                           (Ok tt) (Ok (Some (policyOf allStrategies))) (Ok "") None [calm]))
             (policyOf allStrategies)); reflexivity.
  - apply (proj2 (proj2 (@Run_needs_client_policy_and_eviction_support packages strategies once
                           (Ok tt) (Ok None) (Ok "policy/v1") None [calm]))); reflexivity.
Defined.

Lemma errorsAggregate_nil_iff_all_nil_witness :
  "b" ∈ ["a"; "b"] <-> Some "b" ∈ [Some "a"; None; Some "b"].
Proof.
  apply (proj2 (errorsAggregate_nil_iff_all_nil [Some "a"; None; Some "b"]) ["a"; "b"]).
  reflexivity.
Defined.

Lemma plugin_wiring_reads_four_fields_witness :
  @RemovePodsViolatingNodeTaints2plugin packages None = Panics
  /\ exists args,
       @RemovePodsViolatingNodeTaints2plugin packages (Some More.oneNamespaceSet)
       = Returns (Ok args).
Proof.
  split.
  - apply (proj2 (proj2 (proj2 (@plugin_wiring_reads_four_fields packages
                                  More.oneNamespaceSet))) None).
    reflexivity.
  - apply (proj2 (proj2 (proj2 (@plugin_wiring_reads_four_fields packages
                                  More.oneNamespaceSet))) (Some More.oneNamespaceSet)).
    + vm_compute. reflexivity.
    + intros sel Hsel. discriminate Hsel.
Defined.
